(** * Note/Markdown synchronisation of zotero-better-notes

    A shallow embedding of the sync module ([setSyncing], [callSyncing],
    [doCompare], enum [SyncCode]) and of the sync enrolment of the export
    module ([toSync], the auto-sync branch of [exportNotes]), with the
    properties the specification states about them. *)

From Stdlib Require Import ZArith String List Bool Lia.
From stdpp Require Import base gmap strings list.
Import ListNotations.

Local Open Scope Z_scope.
Local Open Scope string_scope.
Local Open Scope list_scope.

(** ** Data model *)

(** [enum SyncCode]: the members are numbered from 0 in declaration
    order. *)
Inductive SyncCode : Type :=
| UpToDate
| NoteAhead
| MDAhead
| NeedDiff.

Definition SyncCode_value (c : SyncCode) : Z :=
  match c with
  | UpToDate => 0
  | NoteAhead => 1
  | MDAhead => 2
  | NeedDiff => 3
  end.

(** The [SyncStatus] object: the literal built in [toSync] lists its six
    properties. *)
Record SyncStatus : Type := mkSyncStatus {
  path : string;
  filename : string;
  md5 : string;
  noteMd5 : string;
  lastsync : Z;
  itemID : Z
}.

(** [MDStatus.meta]: only its [version] property is read by the code. *)
Record MDMeta : Type := mkMDMeta {
  version : Z
}.

(** The object [getMDStatus] resolves to; [meta] is [None] when the
    property is null or undefined (no file found). *)
Record MDStatus : Type := mkMDStatus {
  meta : option MDMeta;
  content : string
}.

(** A [Zotero.Item] holding a note, as far as the code reads it:
    [item.id], [item.getNote()] and [item.version]. *)
Module Item.
Record t : Type := mk {
  id : Z;
  getNote : string;
  version : Z
}.
End Item.

(** An entry of [Zotero.Notes._editorInstances]: whether its iframe
    window is a dead wrapper, whether its document has focus, and the id
    of its item. *)
Record Editor : Type := mkEditor {
  isDeadWrapper : bool;
  hasFocus : bool;
  editorItemId : Z
}.

(** The options object of [callSyncing]. *)
Record SyncOptions : Type := mkSyncOptions {
  quiet : bool;
  skipActive : bool;
  reason : string
}.

(** What a [throw] carries. *)
Definition Exn : Type := string.

(** ** Fallible reads: [Exn + A] *)

Definition bindE {A B : Type} (m : Exn + A) (f : A -> Exn + B) : Exn + B :=
  match m with
  | inl e => inl e
  | inr a => f a
  end.

Declare Scope err_scope.
Delimit Scope err_scope with err.
Notation "x <- m ;; k" := (bindE m (fun x => k))
  (at level 100, m at next level, right associativity) : err_scope.

(** ** The collaborators

    [callSyncing] and [doCompare] reach the sync-status store, the Zotero
    library, the files and the editors only through the calls below;
    their code lives in other modules. [Data] is the state those calls
    read and write. A read yields a value or throws; an action yields the
    new state and, when it throws, the exception. None of them writes
    [addon.data.sync.lock]: in the sources only [callSyncing] does. *)
Class Host (Data : Type) : Type := {
  (** [addon.api.sync.getSyncNoteIds()] *)
  getSyncNoteIds : Data -> Exn + list Z;
  (** [addon.api.sync.isSyncNote(id)] *)
  isSyncNote : Data -> Z -> Exn + bool;
  (** [addon.api.sync.getSyncStatus(id)] *)
  getSyncStatus : Data -> Z -> Exn + SyncStatus;
  (** [await addon.api.sync.getMDStatus(id)] *)
  getMDStatus : Data -> Z -> Exn + MDStatus;
  (** [Zotero.Items.get(ids)] on an array of ids *)
  Items_getAll : Data -> list Z -> Exn + list Item.t;
  (** [Zotero.Items.get(id)] on the id of a sync record *)
  Items_get : Data -> Z -> Exn + Item.t;
  (** [Zotero.Notes._editorInstances], each entry with what the filter
      callback of [callSyncing] reads from it *)
  editorInstances : Data -> Exn + list Editor;
  (** [Zotero.Utilities.Internal.md5(text, false)] *)
  Internal_md5 : string -> string;
  (** [OS.Path.join(dir, name)] *)
  OS_Path_join : string -> string -> string;
  (** [await addon.api.$export.syncMDBatch(dir, ids)] *)
  syncMDBatch : Data -> string -> list Z -> option Exn * Data;
  (** [await addon.api.$import.fromMD(filepath, { noteId })] *)
  fromMD : Data -> string -> Z -> option Exn * Data;
  (** [await addon.hooks.onShowSyncDiff(itemID, filepath)] *)
  onShowSyncDiff : Data -> Z -> string -> option Exn * Data
}.

(** ** The three-way comparison *)

Section Compare.

Context {Data : Type} `{Host Data}.

(** [doCompare]. The flags [MDAhead] and [noteAhead] start false and are
    set by the three tests in the order of the source. *)
Definition doCompare (d : Data) (noteItem : Item.t) : Exn + SyncCode :=
  (syncStatus <- getSyncStatus d (Item.id noteItem) ;;
   mdStatus <- getMDStatus d (Item.id noteItem) ;;
   match meta mdStatus with
   | None => inr NoteAhead
   | Some m =>
       if Z.ltb (version m) 0 then inr NeedDiff
       else
         let MDAhead' := false in
         let noteAhead' := false in
         let md5' := Internal_md5 (content mdStatus) in
         let noteMd5' := Internal_md5 (Item.getNote noteItem) in
         let MDAhead' :=
           if negb (String.eqb md5' (md5 syncStatus)) then true else MDAhead' in
         let noteAhead' :=
           if negb (String.eqb noteMd5' (noteMd5 syncStatus)) then true
           else noteAhead' in
         let noteAhead' :=
           if negb (Z.eqb (version m) (Item.version noteItem)) then true
           else noteAhead' in
         if noteAhead' && MDAhead' then inr NeedDiff
         else if noteAhead' then inr NoteAhead
         else if MDAhead' then inr MDAhead
         else inr UpToDate
   end)%err.

(** The two classifications the comparison rests on: the file side is
    changed when the checksum of its content differs from the recorded
    one; the note side is changed when the checksum of the note differs
    from the recorded one or the note's version differs from the version
    the file declares. *)
Definition fileChanged (syncStatus : SyncStatus) (mdStatus : MDStatus) : Prop :=
  Internal_md5 (content mdStatus) <> md5 syncStatus.

Definition noteChanged (syncStatus : SyncStatus) (m : MDMeta)
    (noteItem : Item.t) : Prop :=
  Internal_md5 (Item.getNote noteItem) <> noteMd5 syncStatus
  \/ version m <> Item.version noteItem.

End Compare.

(** ** What a run leaves behind: the trace *)

(** The arguments of [ztoolkit.log]. *)
Inductive LogEntry : Type :=
| LogSyncStart (reason : string) (items : list Z) (skippedCount : Z)
| LogWillBeSynced (toExport : list (string * list Z))
    (toImport toDiff : list SyncStatus)
| LogError (e : Exn).

(** The text of a progress line: the locale key of its label and the
    numbers interpolated into it. *)
Inductive ProgressText : Type :=
| TxtCheck (i total : Z)
| TxtUpdateMD (i total : Z)
| TxtUpdateNote (i total queuing : Z)
| TxtDiff (i total : Z)
| TxtFinish (syncCount skippedCount : Z).

(** Every call that leaves the module, in the order it is made. *)
Inductive Event : Type :=
| EvLog (entry : LogEntry)
| EvShowHint (key : string)
| EvProgressWindow (title : string) (line : ProgressText)
| EvChangeLine (line : ProgressText)
| EvStartCloseTimer (ms : Z)
| EvDoCompare (id : Z)
| EvSyncMDBatch (dir : string) (ids : list Z)
| EvFromMD (filepath : string) (noteId : Z)
| EvShowSyncDiff (itemID : Z) (filepath : string).

(** The comparison and dispatch calls among them. *)
Definition isDoCompare (ev : Event) : bool :=
  match ev with EvDoCompare _ => true | _ => false end.

Definition isSyncMDBatch (ev : Event) : bool :=
  match ev with EvSyncMDBatch _ _ => true | _ => false end.

Definition isFromMD (ev : Event) : bool :=
  match ev with EvFromMD _ _ => true | _ => false end.

Definition isShowSyncDiff (ev : Event) : bool :=
  match ev with EvShowSyncDiff _ _ => true | _ => false end.

Definition isAction (ev : Event) : bool :=
  isDoCompare ev || isSyncMDBatch ev || isFromMD ev || isShowSyncDiff ev.

Definition actions (t : list Event) : list Event := List.filter isAction t.

(** ** The addon's global state *)

(** [addon.data.env], [addon.data.alive], [addon.data.sync.lock], the
    state behind the collaborators, and the trace. *)
Record World (Data : Type) : Type := mkWorld {
  env : string;
  alive : bool;
  lock : bool;
  data : Data;
  trace : list Event
}.

Arguments mkWorld {Data}.
Arguments env {Data}.
Arguments alive {Data}.
Arguments lock {Data}.
Arguments data {Data}.
Arguments trace {Data}.

(** The activation of [callSyncing]: the globals and the local
    [progress], which [finally] reads ([true] once it is assigned). *)
Record Frame (Data : Type) : Type := mkFrame {
  world : World Data;
  progress : bool
}.

Arguments mkFrame {Data}.
Arguments world {Data}.
Arguments progress {Data}.

(** ** Statements: state, [return], [throw]

    The functions are [async]; every call they make is awaited, so a
    call has completed when the next statement runs. A statement is a
    function from the state to the way it completes and the state it
    leaves; what other code does to the state between two statements is
    not part of the model. *)

Inductive Completion (A : Type) : Type :=
| Normal (a : A)
| Return
| Throw (e : Exn).

Arguments Normal {A}.
Arguments Return {A}.
Arguments Throw {A}.

Definition M (S A : Type) : Type := S -> Completion A * S.

Definition ret {S A : Type} (a : A) : M S A := fun s => (Normal a, s).

Definition bind {S A B : Type} (m : M S A) (f : A -> M S B) : M S B :=
  fun s =>
    match m s with
    | (Normal a, s1) => f a s1
    | (Return, s1) => (Return, s1)
    | (Throw e, s1) => (Throw e, s1)
    end.

Definition return_ {S A : Type} : M S A := fun s => (Return, s).

Definition throw {S A : Type} (e : Exn) : M S A := fun s => (Throw e, s).

Definition gets {S A : Type} (f : S -> A) : M S A := fun s => (Normal (f s), s).

Definition modify {S : Type} (f : S -> S) : M S unit := fun s => (Normal tt, f s).

Declare Scope js_scope.
Delimit Scope js_scope with js.
Notation "x <- m ;; k" := (bind m (fun x => k))
  (at level 100, m at next level, right associativity) : js_scope.
Notation "m ;;; k" := (bind m (fun _ => k))
  (at level 100, right associativity) : js_scope.

(** [try { body } catch (e) { handler } finally { fin }]: the handler runs
    on a throw of the body, the finaliser runs in every case, and an
    abrupt completion of the finaliser replaces the one it found. *)
Definition tryCatchFinally {S A : Type} (body : M S A) (handler : Exn -> M S A)
    (fin : M S unit) : M S A :=
  fun s =>
    let '(c, s1) := body s in
    let '(c', s2) :=
      match c with
      | Throw e => handler e s1
      | _ => (c, s1)
      end in
    match fin s2 with
    | (Normal _, s3) => (c', s3)
    | (Return, s3) => (Return, s3)
    | (Throw e, s3) => (Throw e, s3)
    end.

(** [for (const x of xs) { body }] *)
Fixpoint forOf {S A : Type} (xs : list A) (body : A -> M S unit) : M S unit :=
  match xs with
  | [] => ret tt
  | x :: xs' => bind (body x) (fun _ => forOf xs' body)
  end.

(** The same loop when its body updates locals declared before it. *)
Fixpoint forOfWith {S A L : Type} (xs : list A) (body : L -> A -> M S L)
    (locals : L) : M S L :=
  match xs with
  | [] => ret locals
  | x :: xs' => bind (body locals x) (fun locals' => forOfWith xs' body locals')
  end.

(** [xs.filter(p)] with a callback that may throw. *)
Fixpoint filterE {A : Type} (p : A -> Exn + bool) (xs : list A) : Exn + list A :=
  match xs with
  | [] => inr []
  | x :: xs' =>
      (b <- p x ;;
       rest <- filterE p xs' ;;
       inr (if b then x :: rest else rest))%err
  end.

(** What a call of a function comes to for its caller: it returned, or it
    threw. *)
Definition callResult {A : Type} (c : Completion A) : option Exn :=
  match c with
  | Throw e => Some e
  | _ => None
  end.

(** ** The orchestrator *)

Section Orchestrator.

Context {Data : Type} `{Host Data}.

Definition setTrace (t : list Event) (w : World Data) : World Data :=
  mkWorld (env w) (alive w) (lock w) (data w) t.

Definition setData (d : Data) (w : World Data) : World Data :=
  mkWorld (env w) (alive w) (lock w) d (trace w).

Definition setLockW (b : bool) (w : World Data) : World Data :=
  mkWorld (env w) (alive w) b (data w) (trace w).

Definition onWorld (g : World Data -> World Data) (f : Frame Data) : Frame Data :=
  mkFrame (g (world f)) (progress f).

(** A call that leaves the module is appended to the trace. *)
Definition emit (ev : Event) : M (Frame Data) unit :=
  modify (onWorld (fun w => setTrace (trace w ++ [ev]) w)).

(** [addon.data.sync.lock = b] *)
Definition setLock (b : bool) : M (Frame Data) unit :=
  modify (onWorld (setLockW b)).

(** A read of a collaborator. *)
Definition read {A : Type} (q : Data -> Exn + A) : M (Frame Data) A :=
  fun f =>
    match q (data (world f)) with
    | inl e => (Throw e, f)
    | inr a => (Normal a, f)
    end.

(** An action of a collaborator: recorded, then run. *)
Definition call (ev : Event) (a : Data -> option Exn * Data) : M (Frame Data) unit :=
  (emit ev ;;;
   fun f =>
     let '(r, d') := a (data (world f)) in
     let f' := onWorld (setData d') f in
     match r with
     | Some e => (Throw e, f')
     | None => (Normal tt, f')
     end)%js.

(** [ztoolkit.log(...)]. The logger and the progress window are sinks:
    their calls are recorded and do not throw. *)
Definition log (entry : LogEntry) : M (Frame Data) unit := emit (EvLog entry).

(** [progress?.changeLine({ text, progress })] *)
Definition changeLine (text : ProgressText) : M (Frame Data) unit :=
  (p <- gets progress ;;
   if p then emit (EvChangeLine text) else ret tt)%js.

(** [progress?.startCloseTimer(ms)] *)
Definition startCloseTimer (ms : Z) : M (Frame Data) unit :=
  (p <- gets progress ;;
   if p then emit (EvStartCloseTimer ms) else ret tt)%js.

(** The default of the second parameter of [callSyncing]. *)
Definition defaultOptions : SyncOptions :=
  {| quiet := true; skipActive := true; reason := "unknown" |}.

(** [Object.keys(toExport)] for [toExport : Record<string, number[]>]:
    the keys are directory paths, which come in insertion order. *)
Definition Object_keys (toExport : list (string * list Z)) : list string :=
  List.map fst toExport.

(** [toExport[filepath]]; the loop only asks for keys of the object. *)
Definition toExport_get (toExport : list (string * list Z)) (filepath : string)
    : list Z :=
  match List.find (fun kv => String.eqb (fst kv) filepath) toExport with
  | Some kv => snd kv
  | None => []
  end.

(** The [case SyncCode.NoteAhead] arm: push onto the array of the
    directory, or start one. *)
Definition toExport_add (toExport : list (string * list Z)) (filepath : string)
    (id : Z) : list (string * list Z) :=
  if existsb (String.eqb filepath) (Object_keys toExport)
  then List.map (fun kv => if String.eqb (fst kv) filepath
                           then (fst kv, snd kv ++ [id]) else kv) toExport
  else toExport ++ [(filepath, [id])].

(** The locals of the comparison loop. *)
Record Locals : Type := mkLocals {
  toExport : list (string * list Z);
  toImport : list SyncStatus;
  toDiff : list SyncStatus;
  i : Z
}.

Definition len {A : Type} (xs : list A) : Z := Z.of_nat (length xs).

(** The first branch of the function: which items the run is about. *)
Definition resolveItems (d : Data) (items : list Item.t) : Exn + list Item.t :=
  if (len items =? 0)%Z
  then (ids <- getSyncNoteIds d ;; Items_getAll d ids)%err
  else filterE (fun item => isSyncNote d (Item.id item)) items.

(** [activeNoteIds]: the items of the live, focused editors. *)
Definition activeNoteIds (d : Data) : Exn + list Z :=
  (editors <- editorInstances d ;;
   inr (List.map editorItemId
          (List.filter (fun editor => negb (isDeadWrapper editor) && hasFocus editor)
             editors)))%err.

(** [items.filter((item) => !activeNoteIds.includes(item.id))] *)
Definition filteredItems (activeIds : list Z) (items : list Item.t) : list Item.t :=
  List.filter (fun item => negb (existsb (Z.eqb (Item.id item)) activeIds)) items.

(** The body of the comparison loop. *)
Definition compareStep (total : Z) (l : Locals) (item : Item.t)
    : M (Frame Data) Locals :=
  (syncStatus <- read (fun d => getSyncStatus d (Item.id item)) ;;
   let filepath := path syncStatus in
   emit (EvDoCompare (Item.id item)) ;;;
   compareResult <- read (fun d => doCompare d item) ;;
   let l1 :=
     match compareResult with
     | NoteAhead =>
         mkLocals (toExport_add (toExport l) filepath (Item.id item))
           (toImport l) (toDiff l) (i l)
     | MDAhead =>
         mkLocals (toExport l) (toImport l ++ [syncStatus]) (toDiff l) (i l)
     | NeedDiff =>
         mkLocals (toExport l) (toImport l) (toDiff l ++ [syncStatus]) (i l)
     | UpToDate => l
     end in
   changeLine (TxtCheck (i l1) total) ;;;
   ret (mkLocals (toExport l1) (toImport l1) (toDiff l1) (i l1 + 1)))%js.

(** The body of the export loop; the line counts against [items.length]. *)
Definition exportStep (toExport : list (string * list Z)) (total : Z) (i : Z)
    (filepath : string) : M (Frame Data) Z :=
  (changeLine (TxtUpdateMD i total) ;;;
   call (EvSyncMDBatch filepath (toExport_get toExport filepath))
     (fun d => syncMDBatch d filepath (toExport_get toExport filepath)) ;;;
   ret (i + 1))%js.

(** The body of the import loop: import the file, then write it again so
    that its metadata follows the note. *)
Definition importStep (totalCount queuing : Z) (i : Z) (syncStatus : SyncStatus)
    : M (Frame Data) Z :=
  (changeLine (TxtUpdateNote i totalCount queuing) ;;;
   item <- read (fun d => Items_get d (itemID syncStatus)) ;;
   let filepath := OS_Path_join (path syncStatus) (filename syncStatus) in
   call (EvFromMD filepath (Item.id item))
     (fun d => fromMD d filepath (Item.id item)) ;;;
   call (EvSyncMDBatch (path syncStatus) [Item.id item])
     (fun d => syncMDBatch d (path syncStatus) [Item.id item]) ;;;
   ret (i + 1))%js.

(** The body of the conflict loop. *)
Definition diffStep (totalCount : Z) (i : Z) (syncStatus : SyncStatus)
    : M (Frame Data) Z :=
  (changeLine (TxtDiff i totalCount) ;;;
   let filepath := OS_Path_join (path syncStatus) (filename syncStatus) in
   call (EvShowSyncDiff (itemID syncStatus) filepath)
     (fun d => onShowSyncDiff d (itemID syncStatus) filepath) ;;;
   ret (i + 1))%js.

(** The comparison pass and the three dispatch passes, with the final
    progress line. *)
Definition syncPasses (skippedCount : Z) (items : list Item.t)
    : M (Frame Data) unit :=
  (l <- forOfWith items (compareStep (len items)) (mkLocals [] [] [] 1) ;;
   log (LogWillBeSynced (toExport l) (toImport l) (toDiff l)) ;;;
   _ <- forOfWith (Object_keys (toExport l))
          (exportStep (toExport l) (len items)) 1 ;;
   _ <- forOfWith (toImport l)
          (importStep (len (toImport l)) (len (toDiff l))) 1 ;;
   _ <- forOfWith (toDiff l) (diffStep (len (toDiff l))) 1 ;;
   let syncCount :=
     len (Object_keys (toExport l)) + len (toImport l) + len (toDiff l) in
   changeLine (TxtFinish syncCount skippedCount))%js.

(** [new ztoolkit.ProgressWindow(title).createLine(...).show(-1)],
    assigned to [progress]. *)
Definition openProgress (reason : string) (total : Z) : M (Frame Data) unit :=
  (env' <- gets (fun f => env (world f)) ;;
   emit (EvProgressWindow
           (if String.eqb env' "development" then reason else "Better Notes")
           (TxtCheck 0 total)) ;;;
   modify (fun f => mkFrame (world f) true))%js.

(** [if (skipActive) { ... }]: the count of skipped items, which starts
    at 0, and the items that stay. *)
Definition skipActiveItems (d : Data) (skipActive : bool) (items : list Item.t)
    : Exn + (Z * list Item.t) :=
  let skippedCount := 0 in
  if skipActive
  then
    (activeIds <- activeNoteIds d ;;
     let filtered := filteredItems activeIds items in
     inr (len items - len filtered, filtered))%err
  else inr (skippedCount, items).

(** The [try] block from the statement after the empty-set test on. *)
Definition syncItems (quiet skipActive : bool) (reason : string)
    (items : list Item.t) : M (Frame Data) unit :=
  (r <- read (fun d => skipActiveItems d skipActive items) ;;
   let '(skippedCount, items) := r in
   log (LogSyncStart reason (List.map Item.id items) skippedCount) ;;;
   (if negb quiet then openProgress reason (len items) else ret tt) ;;;
   syncPasses skippedCount items)%js.

(** The [try] block. *)
Definition tryBlock (quiet skipActive : bool) (reason : string)
    (items : list Item.t) : M (Frame Data) unit :=
  (setLock true ;;;
   items <- read (fun d => resolveItems d items) ;;
   if (len items =? 0)%Z
   then setLock false ;;; return_
   else syncItems quiet skipActive reason items)%js.

(** The body of [callSyncing]. The parameters take their defaults when
    the caller passes [undefined]. *)
Definition callSyncing_body (items : option (list Item.t))
    (options : option SyncOptions) : M (Frame Data) unit :=
  (let items := default [] items in
   let options := default defaultOptions options in
   let quiet := quiet options in
   env' <- gets (fun f => env (world f)) ;;
   let quiet := if String.eqb env' "development" then false else quiet in
   locked <- gets (fun f => lock (world f)) ;;
   if locked then return_
   else
     tryCatchFinally
       (tryBlock quiet (skipActive options) (reason options) items)
       (fun e => log (LogError e))
       (startCloseTimer 5000) ;;;
     setLock false)%js.

(** A call of [callSyncing] run to its end: what the caller gets and the
    globals it leaves. [progress] starts undefined. *)
Definition callSyncing (items : option (list Item.t))
    (options : option SyncOptions) (w : World Data) : option Exn * World Data :=
  let '(c, f) := callSyncing_body items options (mkFrame w false) in
  (callResult c, world f).

(** ** The scheduler *)

(** What the timer callback reads besides the addon's globals, and the
    intervals that are registered. *)
Record Scheduler : Type := mkScheduler {
  addon : World Data;
  document_hasFocus : bool;
  syncPeriodSeconds : Z;
  timers : list nat;
  nextTimer : nat
}.

Definition showHint (key : string) (s : Scheduler) : Scheduler :=
  mkScheduler (setTrace (trace (addon s) ++ [EvShowHint key]) (addon s))
    (document_hasFocus s) (syncPeriodSeconds s) (timers s) (nextTimer s).

Definition setInterval (s : Scheduler) : Scheduler :=
  mkScheduler (addon s) (document_hasFocus s) (syncPeriodSeconds s)
    (timers s ++ [nextTimer s]) (S (nextTimer s)).

Definition clearInterval (timer : nat) (s : Scheduler) : Scheduler :=
  mkScheduler (addon s) (document_hasFocus s) (syncPeriodSeconds s)
    (List.filter (fun t => negb (Nat.eqb t timer)) (timers s)) (nextTimer s).

(** The options the timer passes. *)
Definition autoOptions : SyncOptions :=
  {| quiet := true; skipActive := true; reason := "auto" |}.

(** The callback given to [setInterval]. The promise of [callSyncing] is
    dropped; the run is taken to its end within the tick. *)
Definition onInterval (timer : nat) (s : Scheduler) : Scheduler :=
  let s :=
    if negb (alive (addon s))
    then clearInterval timer (showHint "sync.stop.hint" s)
    else s in
  if document_hasFocus s && (syncPeriodSeconds s >? 0)%Z
  then
    mkScheduler (snd (callSyncing None (Some autoOptions) (addon s)))
      (document_hasFocus s) (syncPeriodSeconds s) (timers s) (nextTimer s)
  else s.

(** [setSyncing]. The period of the interval, [syncPeriod * 1000] ms, is
    real time and stays outside: any sequence of ticks is possible. *)
Definition setSyncing (s : Scheduler) : Scheduler :=
  let syncPeriod := syncPeriodSeconds s in
  if (syncPeriod >? 0)%Z
  then setInterval (showHint "sync.start.hint" s)
  else s.

(** The timer fires: the callback runs if the interval is still
    registered. *)
Definition tick (timer : nat) (s : Scheduler) : Scheduler :=
  if existsb (Nat.eqb timer) (timers s) then onInterval timer s else s.

End Orchestrator.

(** ** Enrolment into sync (export module) *)

Module ExportApi.

(** A call [await f(...)] of a function of the module: the callee's
    [return] ends the callee only. *)
Definition invoke {S : Type} (m : M S unit) : M S unit :=
  fun s =>
    match m s with
    | (Return, s1) => (Normal tt, s1)
    | r => r
    end.

(** Modelled from the spec: [addon.api.sync.isSyncNote] and
    [addon.api.sync.updateSyncStatus] are not among the sources. The
    spec's data model keeps at most one sync record per note id, and a
    note is under sync iff a record exists for it: the store is a finite
    map from note ids to records, [isSyncNote] is membership and
    [updateSyncStatus] writes the record of the given id. *)
Definition isSyncNote (store : gmap Z SyncStatus) (id : Z) : bool :=
  bool_decide (is_Some (store !! id)).

Definition updateSyncStatus (store : gmap Z SyncStatus) (id : Z)
    (status : SyncStatus) : gmap Z SyncStatus :=
  <[id := status]> store.

Section ToSync.

(** [await addon.api.sync.getMDFileName(id, syncDir)],
    [Zotero.Utilities.Internal.md5(text, false)] and
    [Zotero.Items.get(ids)]. *)
Variable getMDFileName : gmap Z SyncStatus -> Z -> string -> Exn + string.
Variable Internal_md5 : string -> string.
Variable Items_getAll : list Z -> list Item.t.

(** The record [toSync] writes. *)
Definition freshStatus (noteItem : Item.t) (syncDir name : string) : SyncStatus :=
  {| path := syncDir;
     filename := name;
     md5 := "";
     noteMd5 := Internal_md5 (Item.getNote noteItem);
     lastsync := 0;
     itemID := Item.id noteItem |}.

(** [toSync] *)
Definition toSync (noteItem : Item.t) (syncDir : string) (overwrite : bool)
    : M (gmap Z SyncStatus) unit :=
  (synced <- gets (fun store => isSyncNote store (Item.id noteItem)) ;;
   if negb overwrite && synced then return_
   else
     name <- (fun store =>
                match getMDFileName store (Item.id noteItem) syncDir with
                | inl e => (Throw e, store)
                | inr name => (Normal name, store)
                end) ;;
     modify (fun store =>
               updateSyncStatus store (Item.id noteItem)
                 (freshStatus noteItem syncDir name)))%js.

(** [linkedNoteItems] of [exportNotes], from the ids the link walk
    collected. *)
Definition linkedNoteItems (standaloneLink : bool) (inputNoteItems : list Item.t)
    (linkedNoteIds : list Z) : list Item.t :=
  if standaloneLink
  then
    let targetNoteItemIds := List.map Item.id inputNoteItems in
    Items_getAll
      (List.filter (fun id => negb (existsb (Z.eqb id) targetNoteItemIds))
         linkedNoteIds)
  else [].

(** The two loops of [exportNotes] under [exportMD], [setAutoSync] and a
    chosen folder, up to the call of the sync hook. *)
Definition exportNotes_enrol (standaloneLink : bool) (inputNoteItems : list Item.t)
    (linkedNoteIds : list Z) (syncDir : string) : M (gmap Z SyncStatus) unit :=
  (forOf inputNoteItems (fun noteItem => invoke (toSync noteItem syncDir true)) ;;;
   forOf (linkedNoteItems standaloneLink inputNoteItems linkedNoteIds)
     (fun noteItem => invoke (toSync noteItem syncDir false)))%js.

End ToSync.

(** What a hard reset leaves in the record of a note. *)
Definition resetAt (syncDir : string) (id : Z) (store : gmap Z SyncStatus) : Prop :=
  exists r, store !! id = Some r
    /\ path r = syncDir /\ md5 r = "" /\ lastsync r = 0 /\ itemID r = id.

End ExportApi.

(** ** The order of the calls of a run

    A run is in one of five phases: comparing, exporting, importing,
    refreshing the file of the note just imported, resolving conflicts.
    [advance] tells which event is in order in which phase; an event that
    is no comparison or dispatch call leaves the phase alone. *)
Inductive Phase : Type :=
| Comparing
| Exporting
| Importing
| Refreshing (noteId : Z)
| Resolving.

Definition sameIds (ids : list Z) (id : Z) : bool :=
  match ids with
  | [id'] => Z.eqb id' id
  | _ => false
  end.

Definition advance (ph : Phase) (ev : Event) : option Phase :=
  match ev with
  | EvDoCompare _ =>
      match ph with
      | Comparing => Some Comparing
      | _ => None
      end
  | EvSyncMDBatch _ ids =>
      match ph with
      | Comparing | Exporting => Some Exporting
      | Refreshing id => if sameIds ids id then Some Importing else None
      | _ => None
      end
  | EvFromMD _ id =>
      match ph with
      | Comparing | Exporting | Importing => Some (Refreshing id)
      | _ => None
      end
  | EvShowSyncDiff _ _ =>
      match ph with
      | Refreshing _ => None
      | _ => Some Resolving
      end
  | _ => Some ph
  end.

Fixpoint accept (ph : Phase) (evs : list Event) : option Phase :=
  match evs with
  | [] => Some ph
  | ev :: evs' =>
      match advance ph ev with
      | Some ph' => accept ph' evs'
      | None => None
      end
  end.

(** The phases a run may be in at the end of pass [k] (0 the comparison
    pass, 3 the conflict pass), a refresh not pending. *)
Definition reached (k : nat) (ph : Phase) : Prop :=
  match ph with
  | Comparing => True
  | Exporting => (1 <= k)%nat
  | Importing => (2 <= k)%nat
  | Resolving => (3 <= k)%nat
  | Refreshing _ => False
  end.

(** The calls of an import pass: for each record [fromMD] and then
    [syncMDBatch] on that one note; the last import may have failed
    before its refresh. *)
Inductive ImportSteps : list Event -> Prop :=
| ImportSteps_nil : ImportSteps []
| ImportSteps_failed (filepath : string) (id : Z) :
    ImportSteps [EvFromMD filepath id]
| ImportSteps_cons (filepath dir : string) (id : Z) (rest : list Event) :
    ImportSteps rest ->
    ImportSteps (EvFromMD filepath id :: EvSyncMDBatch dir [id] :: rest).

(** ** Specifications of statements

    [triple P m Q QR QT]: from a state in [P], [m] ends in [Q] when it
    completes normally, in [QR] when it returns and in [QT] when it
    throws. *)
Definition triple {S A : Type} (P : S -> Prop) (m : M S A) (Q : A -> S -> Prop)
    (QR QT : S -> Prop) : Prop :=
  forall s, P s ->
    match m s with
    | (Normal a, s') => Q a s'
    | (Return, s') => QR s'
    | (Throw _, s') => QT s'
    end.

(** A property of the trace, as a property of the activation. *)
Definition onTrace {Data : Type} (T : list Event -> Prop) (f : Frame Data) : Prop :=
  T (trace (world f)).

(** Since the trace was [t0] the run has gone through events that are in
    order and is in a phase of [phases]. *)
Definition seen (t0 : list Event) (phases : Phase -> Prop) (t : list Event) : Prop :=
  exists seg ph, t = t0 ++ seg /\ accept Comparing seg = Some ph /\ phases ph.

(** [moves t0 j k m]: entered at the end of pass [j] or before, [m] ends
    normally at the end of pass [k] or before, never returns, and a throw
    leaves the run with events in order. *)
Definition moves {Data A : Type} (t0 : list Event) (j k : nat)
    (m : M (Frame Data) A) : Prop :=
  triple (onTrace (seen t0 (reached j))) m
    (fun _ => onTrace (seen t0 (reached k)))
    (fun _ => False)
    (onTrace (seen t0 (fun _ => True))).

(** ** A small host to run the model on

    Each entry is a note of the library with its sync record, the state
    of its file and whether an editor on it has focus. Exports into the
    directory ["/readonly"] fail. *)
Record Entry : Type := mkEntry {
  entryItem : Item.t;
  entryStatus : SyncStatus;
  entryMD : MDStatus;
  entryFocused : bool
}.

Definition findEntry (d : list Entry) (id : Z) : option Entry :=
  List.find (fun en => Z.eqb (Item.id (entryItem en)) id) d.

#[export] Instance listHost : Host (list Entry) := {|
  getSyncNoteIds d := inr (List.map (fun en => Item.id (entryItem en)) d);
  isSyncNote d id := inr (existsb (fun en => Z.eqb (Item.id (entryItem en)) id) d);
  getSyncStatus d id :=
    match findEntry d id with
    | Some en => inr (entryStatus en)
    | None => inl "no sync status"
    end;
  getMDStatus d id :=
    match findEntry d id with
    | Some en => inr (entryMD en)
    | None => inl "no file status"
    end;
  Items_getAll d ids :=
    inr (List.map entryItem
           (List.filter (fun en => existsb (Z.eqb (Item.id (entryItem en))) ids) d));
  Items_get d id :=
    match findEntry d id with
    | Some en => inr (entryItem en)
    | None => inl "no item"
    end;
  editorInstances d :=
    inr (List.map (fun en => mkEditor false true (Item.id (entryItem en)))
           (List.filter entryFocused d));
  Internal_md5 text := String.append "md5:" text;
  OS_Path_join dir name := String.append dir (String.append "/" name);
  syncMDBatch d dir ids :=
    if String.eqb dir "/readonly" then (Some "EACCES", d) else (None, d);
  fromMD d filepath noteId := (None, d);
  onShowSyncDiff d itemID filepath := (None, d)
|}.

(** The parts of an entry: notes are at version 7 and were last synced
    with the text ["text"] on both sides. *)
Definition itemOf (id : Z) (note : string) : Item.t := Item.mk id note 7.

Definition statusOf (id : Z) (dir : string) : SyncStatus :=
  mkSyncStatus dir "note.md" "md5:text" "md5:text" 1 id.

Definition fileOf (fileVersion : Z) (fileText : string) : MDStatus :=
  mkMDStatus (Some (mkMDMeta fileVersion)) fileText.

Definition entryOf (id : Z) (note fileText : string) (fileVersion : Z)
    (dir : string) (focused : bool) : Entry :=
  mkEntry (itemOf id note) (statusOf id dir) (fileOf fileVersion fileText) focused.

(** A note in step with its file; one edited in Zotero; one whose file
    was edited; one whose file carries no readable header; one whose file
    declares an older version. *)
Definition library : list Entry :=
  [ entryOf 1 "text" "text" 7 "/notes" false;
    entryOf 2 "edited" "text" 7 "/notes" false;
    entryOf 3 "text" "edited" 7 "/notes" false;
    entryOf 4 "text" "text" (-1) "/notes" false ].

Definition staleLibrary : list Entry :=
  [ entryOf 5 "text" "text" 6 "/notes" false ].

Definition idle (d : list Entry) : World (list Entry) :=
  mkWorld "production" true false d [].

(** The same with a run in flight, and in the development environment. *)
Definition busy (d : list Entry) : World (list Entry) :=
  mkWorld "production" true true d [].

Definition developing (d : list Entry) : World (list Entry) :=
  mkWorld "development" true false d [].

(** A library whose edited note lives in the directory that refuses
    writes, and one whose only note is open in a focused editor. *)
Definition readonlyLibrary : list Entry :=
  [ entryOf 2 "edited" "text" 7 "/readonly" false;
    entryOf 3 "text" "edited" 7 "/notes" false ].

Definition focusedLibrary : list Entry :=
  [ entryOf 2 "edited" "text" 7 "/notes" true ].

(** The scheduler after shutdown: [addon.data.alive] is false, the
    interval 0 is still registered, the window has focus and the period
    is 10 seconds. *)
Definition tornDown : Scheduler :=
  mkScheduler (mkWorld "production" false false library [])
    true 10 [0%nat] 1%nat.

(** A sync-status store holding the record of note 2 only, and the file
    name and checksum functions of the export examples. *)
Definition oneRecord : gmap Z SyncStatus :=
  {[ 2 := mkSyncStatus "/old" "two.md" "md5:text" "md5:text" 99 2 ]}.

Definition fileNameOf (store : gmap Z SyncStatus) (id : Z) (syncDir : string)
    : Exn + string :=
  inr "note.md".

Definition checksumOf (text : string) : string := String.append "md5:" text.

Definition itemsOf (ids : list Z) : list Item.t :=
  List.map (fun id => Item.mk id "linked" 1) ids.

(** ** The comparison pass as a computation on the reads

    The comparison loop only reads: taken without its progress lines it
    is a fold over the items. *)

Section ComparePass.

Context {Data : Type} `{Host Data}.

(** The [switch] on the answer of [doCompare], and [i += 1]. *)
Definition sortItem (l : Locals) (item : Item.t) (syncStatus : SyncStatus)
    (compareResult : SyncCode) : Locals :=
  let filepath := path syncStatus in
  let l1 :=
    match compareResult with
    | NoteAhead =>
        mkLocals (toExport_add (toExport l) filepath (Item.id item))
          (toImport l) (toDiff l) (i l)
    | MDAhead =>
        mkLocals (toExport l) (toImport l ++ [syncStatus]) (toDiff l) (i l)
    | NeedDiff =>
        mkLocals (toExport l) (toImport l) (toDiff l ++ [syncStatus]) (i l)
    | UpToDate => l
    end in
  mkLocals (toExport l1) (toImport l1) (toDiff l1) (i l1 + 1).

Fixpoint comparePassFrom (d : Data) (l : Locals) (items : list Item.t)
    : Exn + Locals :=
  match items with
  | [] => inr l
  | item :: items' =>
      (syncStatus <- getSyncStatus d (Item.id item) ;;
       compareResult <- doCompare d item ;;
       comparePassFrom d (sortItem l item syncStatus compareResult) items')%err
  end.

Definition comparePass (d : Data) (items : list Item.t) : Exn + Locals :=
  comparePassFrom d (mkLocals [] [] [] 1) items.

(** The calls of the three dispatch loops for given locals. *)
Definition exportCalls (toExport : list (string * list Z)) : list Event :=
  List.map (fun filepath => EvSyncMDBatch filepath (toExport_get toExport filepath))
    (Object_keys toExport).

Definition importCalls (toImport : list SyncStatus) : list Event :=
  List.flat_map
    (fun syncStatus =>
       [ EvFromMD (OS_Path_join (path syncStatus) (filename syncStatus))
           (itemID syncStatus);
         EvSyncMDBatch (path syncStatus) [itemID syncStatus] ])
    toImport.

Definition diffCalls (toDiff : list SyncStatus) : list Event :=
  List.map
    (fun syncStatus =>
       EvShowSyncDiff (itemID syncStatus)
         (OS_Path_join (path syncStatus) (filename syncStatus)))
    toDiff.

End ComparePass.

(** Two answers of [doCompare] are the same member of the enum. *)
Definition isCode (c c' : SyncCode) : bool :=
  Z.eqb (SyncCode_value c) (SyncCode_value c').

(** [follows f f' seg]: from [f] to [f'] the globals other than the state
    of the collaborators and the local [progress] are unchanged, and the
    comparison and dispatch calls made are [seg]. *)
Definition follows {Data : Type} (f f' : Frame Data) (seg : list Event) : Prop :=
  env (world f') = env (world f)
  /\ alive (world f') = alive (world f)
  /\ lock (world f') = lock (world f)
  /\ progress f' = progress f
  /\ actions (trace (world f')) = actions (trace (world f)) ++ seg.

(** [ghost G t0 f]: the events since the trace was [t0] and the local
    [progress] stand in the relation [G]. *)
Definition ghost {Data : Type} (G : list Event -> bool -> Prop) (t0 : list Event)
    (f : Frame Data) : Prop :=
  exists seg, trace (world f) = t0 ++ seg /\ G seg (progress f).

(** [keeps G t0 m]: however [m] ends, it keeps [ghost G t0]. *)
Definition keeps {Data A : Type} (G : list Event -> bool -> Prop)
    (t0 : list Event) (m : M (Frame Data) A) : Prop :=
  triple (ghost G t0) m (fun _ => ghost G t0) (ghost G t0) (ghost G t0).

(** The calls on the progress window. *)
Definition isProgress (ev : Event) : bool :=
  match ev with
  | EvProgressWindow _ _ | EvChangeLine _ | EvStartCloseTimer _ => true
  | _ => false
  end.

Definition isProgressWindow (ev : Event) : bool :=
  match ev with
  | EvProgressWindow _ _ => true
  | _ => false
  end.

(** ** Embedding linked notes (export module) *)

Module EmbedLinks.

(** What [getNoteLinkParams] yields, as far as [embedLinkedNotes] reads
    it: the link, the note it points to if there is one, and the ignore
    mark. *)
Record LinkParams : Type := mkLinkParams {
  link : string;
  noteItem : option Item.t;
  ignore : bool
}.

Section EmbedLinkedNotes.

(** [getLinesInNote(noteItem)]; the [href] of every [a] element of the
    line parsed as HTML, in document order; [getNoteLinkParams(href)];
    [await addon.api.template.runTemplate(name, params, [link, noteItem])]. *)
Variable getLinesInNote : Item.t -> list string.
Variable anchorHrefs : string -> list string.
Variable getNoteLinkParams : string -> LinkParams.
Variable runTemplate : string -> string -> string -> Item.t -> Exn + string.

(** [linkParams] of one line. *)
Definition linkParamsOf (line : string) : list LinkParams :=
  List.filter
    (fun p => match noteItem p with Some _ => negb (ignore p) | None => false end)
    (List.map getNoteLinkParams
       (List.filter (fun href => String.prefix "zotero://note/" href)
          (anchorHrefs line))).

(** The inner loop: one template per link, pushed onto [newLines]. *)
Fixpoint pushTemplates (item : Item.t) (linkParams : list LinkParams)
    (newLines : list string) : Exn + list string :=
  match linkParams with
  | [] => inr newLines
  | linkParam :: linkParams' =>
      (html <- runTemplate "[QuickImportV2]" "link, noteItem" (link linkParam) item ;;
       pushTemplates item linkParams' (newLines ++ [html]))%err
  end.

(** The outer loop over the lines of the note. *)
Fixpoint pushLines (item : Item.t) (noteLines : list string)
    (newLines : list string) : Exn + list string :=
  match noteLines with
  | [] => inr newLines
  | line :: noteLines' =>
      (newLines1 <- pushTemplates item (linkParamsOf line) (newLines ++ [line]) ;;
       pushLines item noteLines' newLines1)%err
  end.

(** [embedLinkedNotes]: the new lines joined by a line feed. *)
Definition embedLinkedNotes (item : Item.t) : Exn + string :=
  (newLines <- pushLines item (getLinesInNote item) [] ;;
   inr (String.concat (String (Ascii.ascii_of_nat 10) EmptyString) newLines))%err.

End EmbedLinkedNotes.

End EmbedLinks.

(** ** [exportNotes] and the exporters it calls (export module) *)

Module ExportNotes.

(** The options of [exportNotes]; a property left out is falsy. The
    [syncDir] property of the type is never read. *)
Record Options : Type := mkOptions {
  embedLink : bool;
  standaloneLink : bool;
  exportNote : bool;
  exportMD : bool;
  setAutoSync : bool;
  withYAMLHeader : bool;
  exportDocx : bool;
  exportPDF : bool;
  exportFreeMind : bool
}.

(** The calls that leave the module and act on the library, the disk or
    the windows, in the order they are made. *)
Inductive Call : Type :=
| NewNote
| SetNote (id : Z) (text : string)
| SaveTx (id : Z) (skipping : bool)
| CopyEmbeddedImages (fromId toId : Z)
| PickFolder
| PickSave (kind defaultName : string)
| OnSyncing (ids : list Z) (options : SyncOptions)
| SaveMD (filename : string) (id : Z) (withYAMLHeader keepNoteLink : bool)
| SaveDocx (filename : string) (id : Z)
| SaveFreeMind (filename : string) (id : Z)
| SavePDF (id : Z)
| CloseWindow (id : Z)
| Erase (id : Z)
| OpenNoteWindow (id : Z).

(** The collaborators of [exportNotes], [toMD], [toDocx], [toFreeMind]
    and [embedLinkedNotes], over the state [X] of the library, the disk,
    the windows and the user's answers. A file picker yields [None] when
    its result is falsy. *)
Class Host (X : Type) : Type := {
  (** [await ZoteroPane.newNote()] *)
  newNote : X -> (Exn + Z) * X;
  (** [Zotero.Items.get(id)] *)
  Items_get : X -> Z -> Exn + Item.t;
  (** [Zotero.Items.get(ids)] *)
  Items_getAll : X -> list Z -> Exn + list Item.t;
  (** [item.setNote(text)] on the item with this id *)
  setNote : X -> Z -> string -> option Exn * X;
  (** [await item.saveTx(...)]; the flag tells the call with the three
      skip options from the one without *)
  saveTx : X -> Z -> bool -> option Exn * X;
  (** [Zotero.DB.executeTransaction] around
      [Zotero.Notes.copyEmbeddedImages(from, to)] *)
  copyEmbeddedImages : X -> Z -> Z -> option Exn * X;
  (** [getLinesInNote(item)], the [href]s of the anchors of a line,
      [getNoteLinkParams(href)], [runTemplate(name, params, [link, item])] *)
  getLinesInNote : X -> Item.t -> list string;
  anchorHrefs : string -> list string;
  getNoteLinkParams : X -> string -> EmbedLinks.LinkParams;
  runTemplate : X -> string -> string -> string -> Item.t -> Exn + string;
  (** [getNoteLink(item)], [None] when falsy *)
  getNoteLink : X -> Item.t -> option string;
  (** [getLinkedNotesRecursively(link, ids)] *)
  getLinkedNotesRecursively : X -> string -> list Z -> Exn + list Z;
  (** [Array.from(new Set(items))] *)
  uniqueItems : list Item.t -> list Item.t;
  (** [new ztoolkit.FilePicker(title, "folder").open()] *)
  pickFolder : X -> (Exn + option string) * X;
  (** [new ztoolkit.FilePicker(title, "save", filters, name).open()] *)
  pickSave : X -> string -> string -> (Exn + option string) * X;
  (** [formatPath(raw)] and [formatPath(raw, suffix)] *)
  formatPath : string -> option string -> string;
  (** [item.getNoteTitle()] *)
  getNoteTitle : X -> Item.t -> string;
  (** [await addon.api.sync.getMDFileName(id, syncDir)] *)
  getMDFileName : X -> gmap Z SyncStatus -> Z -> string -> Exn + string;
  (** [Zotero.Utilities.Internal.md5(text, false)] *)
  Internal_md5 : string -> string;
  (** [await addon.hooks.onSyncing(items, options)], which may rewrite
      sync records *)
  onSyncing : X -> gmap Z SyncStatus -> list Item.t -> SyncOptions ->
              option Exn * (X * gmap Z SyncStatus);
  (** [addon.api.$export.saveMD], [saveDocx], [saveFreeMind], [savePDF] *)
  saveMD : X -> string -> Z -> bool -> bool -> option Exn * X;
  saveDocx : X -> string -> Z -> option Exn * X;
  saveFreeMind : X -> string -> Z -> option Exn * X;
  savePDF : X -> Z -> option Exn * X;
  (** [ZoteroPane.findNoteWindow(id)] is truthy; [_w.close()];
      [Zotero.Items.erase(id)]; [ZoteroPane.openNoteWindow(id)] *)
  findNoteWindow : X -> Z -> bool;
  closeWindow : X -> Z -> option Exn * X;
  erase : X -> Z -> option Exn * X;
  openNoteWindow : X -> Z -> option Exn * X
}.

(** The state [exportNotes] runs on: the collaborators' state, the
    sync-status store, and the calls made. *)
Record World (X : Type) : Type := mkWorld {
  host : X;
  syncStore : gmap Z SyncStatus;
  calls : list Call
}.

Arguments mkWorld {X}.
Arguments host {X}.
Arguments syncStore {X}.
Arguments calls {X}.

Section Model.

Context {X : Type} `{Host X}.

Definition read {A : Type} (q : X -> Exn + A) : M (World X) A :=
  fun w =>
    match q (host w) with
    | inl e => (Throw e, w)
    | inr a => (Normal a, w)
    end.

(** A call with a result: recorded, then run. *)
Definition ask {A : Type} (c : Call) (a : X -> (Exn + A) * X) : M (World X) A :=
  fun w =>
    let w1 := mkWorld (host w) (syncStore w) (calls w ++ [c]) in
    let '(r, x') := a (host w1) in
    let w2 := mkWorld x' (syncStore w1) (calls w1) in
    match r with
    | inl e => (Throw e, w2)
    | inr v => (Normal v, w2)
    end.

(** A call without a result. *)
Definition call (c : Call) (a : X -> option Exn * X) : M (World X) unit :=
  ask c (fun x => let '(r, x') := a x in
                  (match r with Some e => inl e | None => inr tt end, x')).

(** [await toSync(noteItem, syncDir, overwrite)], on the store of the
    world. *)
Definition toSync (noteItem : Item.t) (syncDir : string) (overwrite : bool)
    : M (World X) unit :=
  fun w =>
    let '(c, store') :=
      ExportApi.invoke
        (ExportApi.toSync (getMDFileName (host w)) Internal_md5 noteItem syncDir
           overwrite)
        (syncStore w) in
    (c, mkWorld (host w) store' (calls w)).

(** [embedLinkedNotes(item)], read off the state. *)
Definition embedLinkedNotes (item : Item.t) (x : X) : Exn + string :=
  EmbedLinks.embedLinkedNotes (getLinesInNote x) anchorHrefs (getNoteLinkParams x)
    (runTemplate x) item.

(** [toMD]: a file name that is missing or empty is asked for; a
    cancelled dialog ends the function. *)
Definition toMD (noteItem : Item.t) (filename : option string)
    (keepNoteLink withYAML : bool) : M (World X) unit :=
  (let missing :=
     match filename with
     | Some name => String.eqb name ""
     | None => true
     end in
   filename <-
     (if missing
      then
        title <- gets (fun w => getNoteTitle (host w) noteItem) ;;
        raw <- ask (PickSave "MarkDown File" (String.append title ".md"))
                 (fun x => pickSave x "MarkDown File" (String.append title ".md")) ;;
        match raw with
        | None => return_
        | Some raw => ret (formatPath raw (Some ".md"))
        end
      else ret (default "" filename)) ;;
   call (SaveMD filename (Item.id noteItem) withYAML keepNoteLink)
     (fun x => saveMD x filename (Item.id noteItem) withYAML keepNoteLink))%js.

(** [toDocx] *)
Definition toDocx (noteItem : Item.t) : M (World X) unit :=
  (title <- gets (fun w => getNoteTitle (host w) noteItem) ;;
   raw <- ask (PickSave "MS Word Docx" (String.append title ".docx"))
            (fun x => pickSave x "MS Word Docx" (String.append title ".docx")) ;;
   match raw with
   | None => return_
   | Some raw =>
       let filename := formatPath raw (Some ".docx") in
       call (SaveDocx filename (Item.id noteItem))
         (fun x => saveDocx x filename (Item.id noteItem))
   end)%js.

(** [toFreeMind] *)
Definition toFreeMind (noteItem : Item.t) : M (World X) unit :=
  (title <- gets (fun w => getNoteTitle (host w) noteItem) ;;
   raw <- ask (PickSave "FreeMind XML" (String.append title ".mm"))
            (fun x => pickSave x "FreeMind XML" (String.append title ".mm")) ;;
   match raw with
   | None => return_
   | Some raw =>
       let filename := formatPath raw (Some ".mm") in
       call (SaveFreeMind filename (Item.id noteItem))
         (fun x => saveFreeMind x filename (Item.id noteItem))
   end)%js.

(** The body of the first loop of [exportNotes]: a new note that takes
    the text and the images of [noteItem], and its linked notes embedded
    when [embedLink] is set. *)
Definition copyNote (embed : bool) (inputNoteItems : list Item.t)
    (noteItem : Item.t) : M (World X) (list Item.t) :=
  (noteID <- ask NewNote newNote ;;
   newNote <- read (fun x => Items_get x noteID) ;;
   call (SetNote (Item.id newNote) (Item.getNote noteItem))
     (fun x => setNote x (Item.id newNote) (Item.getNote noteItem)) ;;;
   call (SaveTx (Item.id newNote) true)
     (fun x => saveTx x (Item.id newNote) true) ;;;
   call (CopyEmbeddedImages (Item.id noteItem) (Item.id newNote))
     (fun x => copyEmbeddedImages x (Item.id noteItem) (Item.id newNote)) ;;;
   (if embed
    then
      html <- read (embedLinkedNotes newNote) ;;
      call (SetNote (Item.id newNote) html)
        (fun x => setNote x (Item.id newNote) html)
    else ret tt) ;;;
   call (SaveTx (Item.id newNote) false)
     (fun x => saveTx x (Item.id newNote) false) ;;;
   ret (inputNoteItems ++ [newNote]))%js.

(** The body of the loop that collects the linked ids. *)
Definition collectLinks (linkedNoteIds : list Z) (noteItem : Item.t)
    : M (World X) (list Z) :=
  (linkedIds <-
     read (fun x =>
             getLinkedNotesRecursively x (default "" (getNoteLink x noteItem))
               linkedNoteIds) ;;
   ret (linkedNoteIds ++ linkedIds))%js.

(** The options [exportNotes] passes to the sync hook. *)
Definition exportSyncOptions : SyncOptions :=
  {| quiet := true; skipActive := false; reason := "export" |}.

(** The body of the loop that deletes the temporary notes. *)
Definition eraseNote (noteItem : Item.t) : M (World X) unit :=
  (open <- gets (fun w => findNoteWindow (host w) (Item.id noteItem)) ;;
   (if open
    then call (CloseWindow (Item.id noteItem))
           (fun x => closeWindow x (Item.id noteItem))
    else ret tt) ;;;
   call (Erase (Item.id noteItem)) (fun x => erase x (Item.id noteItem)))%js.

(** [exportNotes] *)
Definition exportNotes (noteItems : list Item.t) (options : Options)
    : M (World X) unit :=
  (inputNoteItems <-
     (if (embedLink options || exportNote options) && negb (setAutoSync options)
      then forOfWith noteItems (copyNote (embedLink options)) []
      else ret noteItems) ;;
   linkedNoteItems <-
     (if standaloneLink options
      then
        linkedNoteIds <- forOfWith inputNoteItems collectLinks [] ;;
        let targetNoteItemIds := List.map Item.id inputNoteItems in
        read (fun x =>
                Items_getAll x
                  (List.filter
                     (fun id => negb (existsb (Z.eqb id) targetNoteItemIds))
                     linkedNoteIds))
      else ret []) ;;
   let allNoteItems := uniqueItems (inputNoteItems ++ linkedNoteItems) in
   (if exportMD options
    then
      if setAutoSync options
      then
        raw <- ask PickFolder pickFolder ;;
        match raw with
        | Some raw =>
            let syncDir := formatPath raw None in
            forOf inputNoteItems
              (fun noteItem => toSync noteItem syncDir true) ;;;
            forOf linkedNoteItems
              (fun noteItem => toSync noteItem syncDir false) ;;;
            (fun w =>
               let w1 := mkWorld (host w) (syncStore w)
                           (calls w
                            ++ [OnSyncing (List.map Item.id allNoteItems)
                                  exportSyncOptions]) in
               let '(r, (x', store')) :=
                 onSyncing (host w1) (syncStore w1) allNoteItems
                   exportSyncOptions in
               let w2 := mkWorld x' store' (calls w1) in
               match r with
               | Some e => (Throw e, w2)
               | None => (Normal tt, w2)
               end)
        | None => ret tt
        end
      else
        forOf allNoteItems
          (fun noteItem =>
             ExportApi.invoke (toMD noteItem None true (withYAMLHeader options)))
    else ret tt) ;;;
   (if exportDocx options
    then forOf allNoteItems (fun noteItem => ExportApi.invoke (toDocx noteItem))
    else ret tt) ;;;
   (if exportFreeMind options
    then forOf allNoteItems (fun noteItem => ExportApi.invoke (toFreeMind noteItem))
    else ret tt) ;;;
   (if exportPDF options
    then forOf allNoteItems
           (fun noteItem =>
              call (SavePDF (Item.id noteItem))
                (fun x => savePDF x (Item.id noteItem)))
    else ret tt) ;;;
   (if embedLink options && negb (exportNote options)
    then forOf allNoteItems eraseNote
    else if exportNote options
    then forOf allNoteItems
           (fun noteItem =>
              call (OpenNoteWindow (Item.id noteItem))
                (fun x => openNoteWindow x (Item.id noteItem)))
    else ret tt))%js.

End Model.

(** The calls that make the copy of a note, the calls that save a file
    the user is asked a name for, and two calls by themselves. *)
Definition isNoteCopy (c : Call) : bool :=
  match c with
  | NewNote | SetNote _ _ | SaveTx _ _ | CopyEmbeddedImages _ _ => true
  | _ => false
  end.

Definition isNamedSave (c : Call) : bool :=
  match c with
  | SaveMD _ _ _ _ | SaveDocx _ _ | SaveFreeMind _ _ => true
  | _ => false
  end.

Definition isErase (c : Call) : bool :=
  match c with
  | Erase _ => true
  | _ => false
  end.

Definition isOnSyncing (c : Call) : bool :=
  match c with
  | OnSyncing _ _ => true
  | _ => false
  end.

(** [since P J w0 w]: the store of [w] is in [J], and since [w0] no call
    in [P] was made. *)
Definition since {X : Type} (P : Call -> bool) (J : gmap Z SyncStatus -> Prop)
    (w0 w : World X) : Prop :=
  J (syncStore w)
  /\ exists seg, calls w = calls w0 ++ seg /\ Forall (fun c => P c = false) seg.

(** [keeps P J w0 m]: however [m] ends, it keeps [since P J w0]. *)
Definition keeps {X A : Type} (P : Call -> bool) (J : gmap Z SyncStatus -> Prop)
    (w0 : World X) (m : M (World X) A) : Prop :=
  triple (since P J w0) m (fun _ => since P J w0) (since P J w0) (since P J w0).

End ExportNotes.

(** ** More of the small host

    A host whose storage is offline: the ids under sync cannot be listed
    and no record can be read, while [isSyncNote] still answers. *)
Definition offlineHost : Host unit := {|
  getSyncNoteIds _ := inl "offline";
  isSyncNote _ _ := inr true;
  getSyncStatus _ _ := inl "offline";
  getMDStatus _ _ := inl "offline";
  Items_getAll _ _ := inr [];
  Items_get _ _ := inl "offline";
  editorInstances _ := inr [];
  Internal_md5 text := String.append "md5:" text;
  OS_Path_join dir name := String.append dir (String.append "/" name);
  syncMDBatch d _ _ := (None, d);
  fromMD d _ _ := (None, d);
  onShowSyncDiff d _ _ := (None, d)
|}.

Definition offline : World unit := mkWorld "production" true false tt [].

(** A library whose notes are all in step with their files. *)
Definition settledLibrary : list Entry :=
  [ entryOf 1 "text" "text" 7 "/notes" false;
    entryOf 6 "text" "text" 7 "/other" false ].

(** The answers of [doCompare] on the notes of [library]. *)
Definition libraryCode (item : Item.t) : SyncCode :=
  if Z.eqb (Item.id item) 1 then UpToDate
  else if Z.eqb (Item.id item) 2 then NoteAhead
  else if Z.eqb (Item.id item) 3 then MDAhead
  else NeedDiff.

(** A scheduler with a run in flight. *)
Definition syncingNow : Scheduler :=
  mkScheduler (busy library) true 10 [0%nat] 1%nat.

(** Notes with links: note 1 links to note 2 and to a web page, note 3
    links to note 9, whose template fails; every other note has one line
    without links. *)
Definition linesOf (item : Item.t) : list string :=
  if Z.eqb (Item.id item) 1 then ["intro"; "see note 2 and the web"; "end"]
  else if Z.eqb (Item.id item) 3 then ["see note 9"]
  else [Item.getNote item].

Definition hrefsOf (line : string) : list string :=
  if String.eqb line "see note 2 and the web"
  then ["zotero://note/u/2"; "https://example.org"]
  else if String.eqb line "see note 9" then ["zotero://note/u/9"]
  else [].

Definition linkParamsFor (href : string) : EmbedLinks.LinkParams :=
  if String.eqb href "zotero://note/u/2"
  then EmbedLinks.mkLinkParams href (Some (Item.mk 2 "two" 1)) false
  else if String.eqb href "zotero://note/u/9"
  then EmbedLinks.mkLinkParams href (Some (Item.mk 9 "nine" 1)) false
  else EmbedLinks.mkLinkParams href None false.

Definition templateOf (name params link : string) (item : Item.t) : Exn + string :=
  if String.eqb link "zotero://note/u/9" then inl "template failed"
  else inr (String.append "embedded " link).

(** [Array.from(new Set(items))]: the first occurrence of every item, in
    order. *)
Definition sameItem (a b : Item.t) : bool :=
  Z.eqb (Item.id a) (Item.id b)
  && String.eqb (Item.getNote a) (Item.getNote b)
  && Z.eqb (Item.version a) (Item.version b).

Fixpoint newSet (items seen : list Item.t) : list Item.t :=
  match items with
  | [] => []
  | item :: items' =>
      if existsb (sameItem item) seen
      then newSet items' seen
      else item :: newSet items' (item :: seen)
  end.

(** A host for [exportNotes] over the id of the next new note, with a
    user who cancels every dialog. *)
#[export] Instance cancellingHost : ExportNotes.Host Z := {|
  ExportNotes.newNote x := (inr x, x + 1);
  ExportNotes.Items_get x id := inr (Item.mk id "" 1);
  ExportNotes.Items_getAll x ids := inr (itemsOf ids);
  ExportNotes.setNote x id text := (None, x);
  ExportNotes.saveTx x id skipping := (None, x);
  ExportNotes.copyEmbeddedImages x fromId toId := (None, x);
  ExportNotes.getLinesInNote x := linesOf;
  ExportNotes.anchorHrefs := hrefsOf;
  ExportNotes.getNoteLinkParams x := linkParamsFor;
  ExportNotes.runTemplate x := templateOf;
  ExportNotes.getNoteLink x item := None;
  ExportNotes.getLinkedNotesRecursively x link ids := inr [];
  ExportNotes.uniqueItems items := newSet items [];
  ExportNotes.pickFolder x := (inr None, x);
  ExportNotes.pickSave x kind name := (inr None, x);
  ExportNotes.formatPath raw suffix := String.append raw (default "" suffix);
  ExportNotes.getNoteTitle x item := "note";
  ExportNotes.getMDFileName x := fileNameOf;
  ExportNotes.Internal_md5 := checksumOf;
  ExportNotes.onSyncing x store items options := (None, (x, store));
  ExportNotes.saveMD x filename id withYAML keepNoteLink := (None, x);
  ExportNotes.saveDocx x filename id := (None, x);
  ExportNotes.saveFreeMind x filename id := (None, x);
  ExportNotes.savePDF x id := (None, x);
  ExportNotes.findNoteWindow x id := Z.eqb id 1;
  ExportNotes.closeWindow x id := (None, x);
  ExportNotes.erase x id := (None, x);
  ExportNotes.openNoteWindow x id := (None, x)
|}.

Definition desk : ExportNotes.World Z := ExportNotes.mkWorld 100 oneRecord [].

(** Every export asked for, with auto-sync; embedding with auto-sync and
    nothing else; and Markdown, Docx and FreeMind export of copies. *)
Definition syncedExport : ExportNotes.Options :=
  ExportNotes.mkOptions false true false true true true true true true.

Definition embedWithSync : ExportNotes.Options :=
  ExportNotes.mkOptions true false false false true false false false false.

Definition copiesToFiles : ExportNotes.Options :=
  ExportNotes.mkOptions false false true true false true true false true.

(** * Properties *)

(** ** The comparison *)

Section CompareFacts.

Context {Data : Type} `{Host Data}.

(** Past its two guards [doCompare] never throws, and its answer is read
    off the two classifications. *)
Lemma doCompare_flags (d : Data) (noteItem : Item.t) (syncStatus : SyncStatus)
    (mdStatus : MDStatus) (m : MDMeta) :
  getSyncStatus d (Item.id noteItem) = inr syncStatus ->
  getMDStatus d (Item.id noteItem) = inr mdStatus ->
  meta mdStatus = Some m ->
  0 <= version m ->
  exists noteAhead' MDAhead' : bool,
    (noteAhead' = true <-> noteChanged syncStatus m noteItem)
    /\ (MDAhead' = true <-> fileChanged syncStatus mdStatus)
    /\ doCompare d noteItem =
         inr (if noteAhead' && MDAhead' then NeedDiff
              else if noteAhead' then NoteAhead
              else if MDAhead' then MDAhead
              else UpToDate).
Proof.
  intros Hst Hmd Hmeta Hver.
  unfold doCompare. rewrite Hst. simpl. rewrite Hmd. simpl. rewrite Hmeta.
  assert (Hlt : Z.ltb (version m) 0 = false) by (apply Z.ltb_ge; exact Hver).
  rewrite Hlt.
  exists (if negb (Z.eqb (version m) (Item.version noteItem)) then true
          else if negb (String.eqb (Internal_md5 (Item.getNote noteItem))
                          (noteMd5 syncStatus)) then true else false).
  exists (if negb (String.eqb (Internal_md5 (content mdStatus)) (md5 syncStatus))
          then true else false).
  unfold noteChanged, fileChanged.
  destruct (Z.eqb_spec (version m) (Item.version noteItem)) as [HZ|HZ];
    destruct (String.eqb_spec (Internal_md5 (Item.getNote noteItem))
                (noteMd5 syncStatus)) as [HN|HN];
    destruct (String.eqb_spec (Internal_md5 (content mdStatus))
                (md5 syncStatus)) as [HF|HF];
    simpl; repeat split; intros; try reflexivity; try discriminate;
    intuition congruence.
Qed.

(** C1. For a note under sync whose file is there with a non-negative
    version in its metadata, [doCompare] answers [NeedDiff] exactly when
    the note side and the file side are both changed, [NoteAhead] exactly
    when only the note side is, [MDAhead] exactly when only the file side
    is, and [UpToDate] exactly when neither is; being equivalences over
    the four disjoint cases, the four answers exclude one another. *)
Theorem doCompare_four_outcomes (d : Data) (noteItem : Item.t)
    (syncStatus : SyncStatus) (mdStatus : MDStatus) (m : MDMeta) :
  getSyncStatus d (Item.id noteItem) = inr syncStatus ->
  getMDStatus d (Item.id noteItem) = inr mdStatus ->
  meta mdStatus = Some m ->
  0 <= version m ->
  exists c : SyncCode,
    doCompare d noteItem = inr c
    /\ (c = NeedDiff <->
        noteChanged syncStatus m noteItem /\ fileChanged syncStatus mdStatus)
    /\ (c = NoteAhead <->
        noteChanged syncStatus m noteItem /\ ~ fileChanged syncStatus mdStatus)
    /\ (c = MDAhead <->
        ~ noteChanged syncStatus m noteItem /\ fileChanged syncStatus mdStatus)
    /\ (c = UpToDate <->
        ~ noteChanged syncStatus m noteItem /\ ~ fileChanged syncStatus mdStatus).
Proof.
  intros Hst Hmd Hmeta Hver.
  destruct (doCompare_flags d noteItem syncStatus mdStatus m Hst Hmd Hmeta Hver)
    as (na & fa & Hna & Hfa & Heq).
  eexists. split; [exact Heq|].
  destruct na, fa; simpl;
    repeat split; intros; try discriminate; intuition congruence.
Qed.

(** C5. With both checksums equal to the recorded ones, a note whose
    version differs from the version the file declares is taken as
    changed: the answer is [NoteAhead]. *)
Theorem doCompare_version_mismatch (d : Data) (noteItem : Item.t)
    (syncStatus : SyncStatus) (mdStatus : MDStatus) (m : MDMeta) :
  getSyncStatus d (Item.id noteItem) = inr syncStatus ->
  getMDStatus d (Item.id noteItem) = inr mdStatus ->
  meta mdStatus = Some m ->
  0 <= version m ->
  Internal_md5 (Item.getNote noteItem) = noteMd5 syncStatus ->
  Internal_md5 (content mdStatus) = md5 syncStatus ->
  version m <> Item.version noteItem ->
  noteChanged syncStatus m noteItem
  /\ doCompare d noteItem = inr NoteAhead.
Proof.
  intros Hst Hmd Hmeta Hver Hn Hf Hv.
  split; [right; exact Hv|].
  destruct (doCompare_flags d noteItem syncStatus mdStatus m Hst Hmd Hmeta Hver)
    as (na & fa & Hna & Hfa & Heq).
  rewrite Heq.
  assert (na = true) as -> by (apply Hna; right; exact Hv).
  assert (fa = false) as ->.
  { destruct fa; [|reflexivity]. exfalso. apply (proj1 Hfa eq_refl). exact Hf. }
  reflexivity.
Qed.

(** C6. When the metadata of the file is present and declares a negative
    version, the answer is [NeedDiff], whatever the checksums and the
    note are. *)
Theorem doCompare_negative_version (d : Data) (noteItem : Item.t)
    (syncStatus : SyncStatus) (mdStatus : MDStatus) (m : MDMeta) :
  getSyncStatus d (Item.id noteItem) = inr syncStatus ->
  getMDStatus d (Item.id noteItem) = inr mdStatus ->
  meta mdStatus = Some m ->
  version m < 0 ->
  doCompare d noteItem = inr NeedDiff.
Proof.
  intros Hst Hmd Hmeta Hver.
  unfold doCompare. rewrite Hst. simpl. rewrite Hmd. simpl. rewrite Hmeta.
  assert (Hlt : Z.ltb (version m) 0 = true) by (apply Z.ltb_lt; exact Hver).
  rewrite Hlt. reflexivity.
Qed.

End CompareFacts.

(** ** Rules for statements *)

Section Rules.

Context {S : Type}.

Lemma triple_weaken {A : Type} (P P' : S -> Prop) (m : M S A)
    (Q Q' : A -> S -> Prop) (QR QR' QT QT' : S -> Prop) :
  triple P m Q QR QT ->
  (forall s, P' s -> P s) ->
  (forall a s, Q a s -> Q' a s) ->
  (forall s, QR s -> QR' s) ->
  (forall s, QT s -> QT' s) ->
  triple P' m Q' QR' QT'.
Proof.
  intros Hm HP HQ HR HT s Hs. specialize (Hm s (HP s Hs)).
  destruct (m s) as [[a| |e] s']; auto.
Qed.

Lemma triple_ret {A : Type} (P : S -> Prop) (a : A) (Q : A -> S -> Prop)
    (QR QT : S -> Prop) :
  (forall s, P s -> Q a s) -> triple P (ret a) Q QR QT.
Proof. intros HQ s Hs. simpl. auto. Qed.

Lemma triple_gets {A : Type} (P : S -> Prop) (g : S -> A) (Q : A -> S -> Prop)
    (QR QT : S -> Prop) :
  (forall s, P s -> Q (g s) s) -> triple P (gets g) Q QR QT.
Proof. intros HQ s Hs. simpl. auto. Qed.

Lemma triple_modify (P : S -> Prop) (g : S -> S) (Q : unit -> S -> Prop)
    (QR QT : S -> Prop) :
  (forall s, P s -> Q tt (g s)) -> triple P (modify g) Q QR QT.
Proof. intros HQ s Hs. simpl. auto. Qed.

Lemma triple_bind {A B : Type} (P : S -> Prop) (m : M S A) (k : A -> M S B)
    (Q1 : A -> S -> Prop) (Q : B -> S -> Prop) (QR QT : S -> Prop) :
  triple P m Q1 QR QT ->
  (forall a, triple (Q1 a) (k a) Q QR QT) ->
  triple P (bind m k) Q QR QT.
Proof.
  intros Hm Hk s Hs. unfold bind. specialize (Hm s Hs).
  destruct (m s) as [[a| |e] s1]; auto.
  apply (Hk a s1 Hm).
Qed.

(** A loop keeps what each of its rounds keeps. *)
Lemma triple_forOfWith {A L : Type} (I : S -> Prop) (QR QT : S -> Prop)
    (xs : list A) (body : L -> A -> M S L) :
  (forall l x, triple I (body l x) (fun _ => I) QR QT) ->
  forall l, triple I (forOfWith xs body l) (fun _ => I) QR QT.
Proof.
  intros Hbody. induction xs as [|x xs IH]; intros l; simpl.
  - apply triple_ret. auto.
  - eapply triple_bind; [apply Hbody|]. intros l'. apply IH.
Qed.

Lemma triple_forOf {A : Type} (I : S -> Prop) (QR QT : S -> Prop)
    (xs : list A) (body : A -> M S unit) :
  (forall x, In x xs -> triple I (body x) (fun _ => I) QR QT) ->
  triple I (forOf xs body) (fun _ => I) QR QT.
Proof.
  induction xs as [|x xs IH]; intros Hbody; simpl.
  - apply triple_ret. auto.
  - eapply triple_bind; [apply Hbody; left; reflexivity|].
    intros []. apply IH. intros y Hy. apply Hbody. right. exact Hy.
Qed.

(** What holds however a statement ends holds of the state it leaves. *)
Lemma triple_snd {A : Type} (I : S -> Prop) (m : M S A) (s : S) :
  triple I m (fun _ => I) I I -> I s -> I (snd (m s)).
Proof.
  intros Hm Hs. specialize (Hm s Hs). destruct (m s) as [[a| |e] s1]; exact Hm.
Qed.

End Rules.

(** ** Rules for the statements of [callSyncing] *)

Section OrchestratorRules.

Context {Data : Type} `{Host Data}.

Lemma triple_emit (T T' : list Event -> Prop) (ev : Event)
    (QR QT : Frame Data -> Prop) :
  (forall t, T t -> T' (t ++ [ev])) ->
  triple (onTrace T) (emit ev) (fun _ => onTrace T') QR QT.
Proof. intros HT. apply triple_modify. intros f Hf. apply HT, Hf. Qed.

Lemma triple_read {A : Type} (T : list Event -> Prop) (q : Data -> Exn + A)
    (QR : Frame Data -> Prop) :
  triple (onTrace T) (read q) (fun _ => onTrace T) QR (onTrace T).
Proof.
  intros f Hf. unfold read. destruct (q (data (world f))); exact Hf.
Qed.

Lemma triple_call (T T' : list Event -> Prop) (ev : Event)
    (a : Data -> option Exn * Data) (QR : Frame Data -> Prop) :
  (forall t, T t -> T' (t ++ [ev])) ->
  triple (onTrace T) (call ev a) (fun _ => onTrace T') QR (onTrace T').
Proof.
  intros HT f Hf. unfold call, bind, emit, modify. simpl.
  destruct (a (data (world f))) as [[e|] d']; simpl; apply HT, Hf.
Qed.

Lemma triple_changeLine (T : list Event -> Prop) (text : ProgressText)
    (QR QT : Frame Data -> Prop) :
  (forall t, T t -> T (t ++ [EvChangeLine text])) ->
  triple (onTrace T) (changeLine text) (fun _ => onTrace T) QR QT.
Proof.
  intros HT f Hf. unfold changeLine, bind, gets.
  destruct (progress f); simpl; [apply HT|]; exact Hf.
Qed.

End OrchestratorRules.

(** ** The phases of a run *)

Lemma accept_app (ph : Phase) (evs1 evs2 : list Event) :
  accept ph (evs1 ++ evs2) =
    match accept ph evs1 with
    | Some ph' => accept ph' evs2
    | None => None
    end.
Proof.
  revert ph. induction evs1 as [|ev evs1 IH]; intros ph; simpl; [reflexivity|].
  destruct (advance ph ev); [apply IH|reflexivity].
Qed.

Lemma reached_mono (j k : nat) (ph : Phase) :
  (j <= k)%nat -> reached j ph -> reached k ph.
Proof. destruct ph; simpl; lia. Qed.

Lemma seen_start (t0 : list Event) : seen t0 (reached 0) t0.
Proof. exists [], Comparing. rewrite app_nil_r. simpl. auto. Qed.

Lemma seen_weaken (t0 : list Event) (P P' : Phase -> Prop) (t : list Event) :
  (forall ph, P ph -> P' ph) -> seen t0 P t -> seen t0 P' t.
Proof. intros HP (seg & ph & -> & Hacc & Hph). exists seg, ph. auto. Qed.

Lemma seen_advance (t0 : list Event) (P P' : Phase -> Prop) (ev : Event)
    (t : list Event) :
  (forall ph, P ph -> exists ph', advance ph ev = Some ph' /\ P' ph') ->
  seen t0 P t -> seen t0 P' (t ++ [ev]).
Proof.
  intros Hadv (seg & ph & -> & Hacc & Hph).
  destruct (Hadv ph Hph) as (ph' & Hev & Hph').
  exists (seg ++ [ev]), ph'. rewrite app_assoc. split; [reflexivity|].
  rewrite accept_app, Hacc. simpl. rewrite Hev. auto.
Qed.

Lemma seen_quiet (t0 : list Event) (P : Phase -> Prop) (ev : Event)
    (t : list Event) :
  isAction ev = false -> seen t0 P t -> seen t0 P (t ++ [ev]).
Proof.
  intros Hev. apply seen_advance. intros ph Hph. exists ph.
  destruct ev; try discriminate Hev; simpl; auto.
Qed.

Section Passes.

Context {Data : Type} `{Host Data}.

Variable t0 : list Event.

Lemma seen_any (P : Phase -> Prop) (f : Frame Data) :
  onTrace (seen t0 P) f -> onTrace (seen t0 (fun _ => True)) f.
Proof. apply seen_weaken. auto. Qed.

Lemma moves_weaken {A : Type} (j j' k k' : nat) (m : M (Frame Data) A) :
  (j' <= j)%nat -> (k <= k')%nat -> moves t0 j k m -> moves t0 j' k' m.
Proof.
  intros Hj Hk Hm. unfold moves.
  eapply triple_weaken; [exact Hm| | |auto|auto].
  - intros f. apply seen_weaken. intros ph. apply reached_mono, Hj.
  - intros a f. apply seen_weaken. intros ph. apply reached_mono, Hk.
Qed.

Lemma moves_bind {A B : Type} (j k l : nat) (m : M (Frame Data) A)
    (g : A -> M (Frame Data) B) :
  moves t0 j k m -> (forall a, moves t0 k l (g a)) -> moves t0 j l (bind m g).
Proof. intros Hm Hg. eapply triple_bind; [exact Hm|exact Hg]. Qed.

Lemma moves_ret {A : Type} (k : nat) (a : A) :
  moves (Data := Data) t0 k k (ret a).
Proof. apply triple_ret. auto. Qed.

Lemma moves_read {A : Type} (k : nat) (q : Data -> Exn + A) :
  moves (Data := Data) t0 k k (read q).
Proof.
  eapply triple_weaken;
    [apply (triple_read (seen t0 (reached k)) q (fun _ => False))| | | |];
    eauto using seen_any.
Qed.

Lemma moves_quiet (k : nat) (ev : Event) :
  isAction ev = false -> moves (Data := Data) t0 k k (emit ev).
Proof. intros Hev. apply triple_emit. intros t. apply seen_quiet, Hev. Qed.

Lemma moves_changeLine (k : nat) (text : ProgressText) :
  moves (Data := Data) t0 k k (changeLine text).
Proof. apply triple_changeLine. intros t. apply seen_quiet. reflexivity. Qed.

Lemma moves_call (k : nat) (ev : Event) (a : Data -> option Exn * Data) :
  (forall ph, reached k ph -> exists ph', advance ph ev = Some ph' /\ reached k ph') ->
  moves (Data := Data) t0 k k (call ev a).
Proof.
  intros Hadv.
  eapply triple_weaken;
    [apply (triple_call (seen t0 (reached k)) (seen t0 (reached k)) ev a (fun _ => False))
    | | | |]; eauto using seen_any.
  intros t. apply seen_advance, Hadv.
Qed.

Lemma moves_forOfWith {A L : Type} (k : nat) (xs : list A)
    (body : L -> A -> M (Frame Data) L) (l : L) :
  (forall l x, moves t0 k k (body l x)) -> moves t0 k k (forOfWith xs body l).
Proof. intros Hbody. apply triple_forOfWith. exact Hbody. Qed.

Lemma moves_compareStep (total : Z) (l : Locals) (item : Item.t) :
  moves (Data := Data) t0 0 0 (compareStep total l item).
Proof.
  unfold compareStep.
  eapply moves_bind; [apply moves_read|]. intros syncStatus.
  eapply moves_bind.
  { apply triple_emit. intros t. apply seen_advance.
    intros ph Hph; destruct ph; simpl in Hph; try contradiction; try lia.
    exists Comparing. simpl. auto. }
  intros _.
  eapply moves_bind; [apply moves_read|]. intros compareResult.
  eapply moves_bind; [apply moves_changeLine|]. intros _.
  apply moves_ret.
Qed.

Lemma moves_exportStep (toExport : list (string * list Z)) (total i : Z)
    (filepath : string) :
  moves (Data := Data) t0 1 1 (exportStep toExport total i filepath).
Proof.
  unfold exportStep.
  eapply moves_bind; [apply moves_changeLine|]. intros _.
  eapply moves_bind; [|intros _; apply moves_ret].
  apply moves_call.
  intros ph Hph; destruct ph; simpl in Hph; try contradiction; try lia;
    exists Exporting; simpl; auto.
Qed.

Lemma moves_importStep (totalCount queuing i : Z) (syncStatus : SyncStatus) :
  moves (Data := Data) t0 2 2 (importStep totalCount queuing i syncStatus).
Proof.
  unfold importStep.
  eapply moves_bind; [apply moves_changeLine|]. intros _.
  eapply moves_bind; [apply moves_read|]. intros item.
  eapply triple_bind.
  { eapply triple_weaken;
      [apply (triple_call (seen t0 (reached 2))
                (seen t0 (fun ph => ph = Refreshing (Item.id item)))
                _ _ (fun _ => False))
      | | | |]; eauto using seen_any.
    intros t. apply seen_advance.
    intros ph Hph; destruct ph; simpl in Hph; try contradiction; try lia;
      eexists; simpl; split; reflexivity. }
  intros [].
  eapply triple_bind.
  { eapply triple_weaken;
      [apply (triple_call (seen t0 (fun ph => ph = Refreshing (Item.id item)))
                (seen t0 (reached 2)) _ _ (fun _ => False))
      | | | |]; eauto using seen_any.
    intros t. apply seen_advance.
    intros ph ->. exists Importing. simpl. rewrite Z.eqb_refl.
    split; [reflexivity|lia]. }
  intros []. apply moves_ret.
Qed.

Lemma moves_diffStep (totalCount i : Z) (syncStatus : SyncStatus) :
  moves (Data := Data) t0 3 3 (diffStep totalCount i syncStatus).
Proof.
  unfold diffStep.
  eapply moves_bind; [apply moves_changeLine|]. intros _.
  eapply moves_bind; [|intros _; apply moves_ret].
  apply moves_call.
  intros ph Hph; destruct ph; simpl in Hph; try contradiction; try lia;
    exists Resolving; simpl; auto.
Qed.

(** The four passes follow one another. *)
Lemma moves_syncPasses (skippedCount : Z) (items : list Item.t) :
  moves (Data := Data) t0 0 3 (syncPasses skippedCount items).
Proof.
  unfold syncPasses.
  eapply moves_bind.
  { apply moves_forOfWith. intros. apply moves_compareStep. }
  intros l.
  eapply moves_bind; [apply moves_quiet; reflexivity|]. intros _.
  eapply moves_bind.
  { apply (moves_weaken 1 0 1 1); [lia|lia|].
    apply moves_forOfWith. intros. apply moves_exportStep. }
  intros _.
  eapply moves_bind.
  { apply (moves_weaken 2 1 2 2); [lia|lia|].
    apply moves_forOfWith. intros. apply moves_importStep. }
  intros _.
  eapply moves_bind.
  { apply (moves_weaken 3 2 3 3); [lia|lia|].
    apply moves_forOfWith. intros. apply moves_diffStep. }
  intros _.
  apply moves_changeLine.
Qed.

Lemma moves_openProgress (reason : string) (total : Z) :
  moves (Data := Data) t0 0 0 (openProgress reason total).
Proof.
  unfold openProgress.
  apply (moves_bind 0 0 0); [apply triple_gets; auto|]. intros env'.
  eapply moves_bind; [apply moves_quiet; reflexivity|]. intros _.
  apply triple_modify. auto.
Qed.

Lemma moves_syncItems (quiet skipActive : bool) (reason : string)
    (items : list Item.t) :
  moves (Data := Data) t0 0 3 (syncItems quiet skipActive reason items).
Proof.
  unfold syncItems.
  eapply moves_bind; [apply moves_read|].
  intros [skippedCount items'].
  eapply moves_bind; [apply moves_quiet; reflexivity|]. intros _.
  eapply moves_bind.
  { instantiate (1 := 0%nat).
    destruct (negb quiet); [apply moves_openProgress|apply moves_ret]. }
  intros _. apply moves_syncPasses.
Qed.

End Passes.

(** ** From events in order to the four segments *)

Lemma sameIds_true (ids : list Z) (id : Z) : sameIds ids id = true -> ids = [id].
Proof.
  destruct ids as [|id' [|? ?]]; simpl; try discriminate.
  intros Heq. apply Z.eqb_eq in Heq. congruence.
Qed.

Lemma accept_Resolving (seg : list Event) (ph : Phase) :
  accept Resolving seg = Some ph ->
  Forall (fun ev => isShowSyncDiff ev = true) (actions seg).
Proof.
  induction seg as [|ev seg IH]; simpl; [constructor|].
  destruct ev; simpl; try discriminate; auto.
Qed.

Lemma accept_Importing (seg : list Event) :
  (forall ph, accept Importing seg = Some ph ->
     exists imp dif, actions seg = imp ++ dif /\ ImportSteps imp
       /\ Forall (fun ev => isShowSyncDiff ev = true) dif)
  /\ (forall id filepath ph, accept (Refreshing id) seg = Some ph ->
        exists imp dif, EvFromMD filepath id :: actions seg = imp ++ dif
          /\ ImportSteps imp
          /\ Forall (fun ev => isShowSyncDiff ev = true) dif).
Proof.
  induction seg as [|ev seg [IH1 IH2]].
  - split.
    + intros ph _. exists [], []. repeat split; constructor.
    + intros id filepath ph _. exists [EvFromMD filepath id], [].
      repeat split; constructor.
  - split.
    + intros ph. destruct ev; simpl; try discriminate; try apply IH1.
      * intros Hacc. apply (IH2 noteId filepath ph Hacc).
      * intros Hacc. exists [], (EvShowSyncDiff itemID0 filepath :: actions seg).
        repeat split; [constructor|].
        constructor; [reflexivity|]. apply (accept_Resolving seg ph Hacc).
    + intros id filepath ph. destruct ev; simpl; try discriminate; try apply IH2.
      destruct (sameIds ids id) eqn:Hids; [|discriminate].
      apply sameIds_true in Hids. subst ids. intros Hacc.
      destruct (IH1 ph Hacc) as (imp & dif & Heq & Himp & Hdif).
      exists (EvFromMD filepath id :: EvSyncMDBatch dir [id] :: imp), dif.
      simpl. rewrite Heq. repeat split; [constructor; exact Himp|exact Hdif].
Qed.

Lemma accept_Exporting (seg : list Event) (ph : Phase) :
  accept Exporting seg = Some ph ->
  exists ex imp dif, actions seg = ex ++ imp ++ dif
    /\ Forall (fun ev => isSyncMDBatch ev = true) ex
    /\ ImportSteps imp
    /\ Forall (fun ev => isShowSyncDiff ev = true) dif.
Proof.
  induction seg as [|ev seg IH].
  - intros _. exists [], [], []. repeat split; constructor.
  - destruct ev; simpl; try discriminate; try apply IH.
    + intros Hacc. destruct (IH Hacc) as (ex & imp & dif & Heq & Hex & Himp & Hdif).
      exists (EvSyncMDBatch dir ids :: ex), imp, dif. simpl. rewrite Heq.
      repeat split; auto.
    + intros Hacc.
      destruct (proj2 (accept_Importing seg) noteId filepath ph Hacc)
        as (imp & dif & Heq & Himp & Hdif).
      exists [], imp, dif. repeat split; auto.
    + intros Hacc. exists [], [], (EvShowSyncDiff itemID0 filepath :: actions seg).
      repeat split; try constructor; [reflexivity|].
      apply (accept_Resolving seg ph Hacc).
Qed.

Lemma accept_Comparing (seg : list Event) (ph : Phase) :
  accept Comparing seg = Some ph ->
  exists cmp ex imp dif, actions seg = cmp ++ ex ++ imp ++ dif
    /\ Forall (fun ev => isDoCompare ev = true) cmp
    /\ Forall (fun ev => isSyncMDBatch ev = true) ex
    /\ ImportSteps imp
    /\ Forall (fun ev => isShowSyncDiff ev = true) dif.
Proof.
  induction seg as [|ev seg IH].
  - intros _. exists [], [], [], []. repeat split; constructor.
  - destruct ev; simpl; try discriminate; try apply IH.
    + intros Hacc.
      destruct (IH Hacc) as (cmp & ex & imp & dif & Heq & Hcmp & Hex & Himp & Hdif).
      exists (EvDoCompare id :: cmp), ex, imp, dif. simpl. rewrite Heq.
      repeat split; auto.
    + intros Hacc.
      destruct (accept_Exporting seg ph Hacc)
        as (ex & imp & dif & Heq & Hex & Himp & Hdif).
      exists [], (EvSyncMDBatch dir ids :: ex), imp, dif. simpl. rewrite Heq.
      repeat split; auto.
    + intros Hacc.
      destruct (proj2 (accept_Importing seg) noteId filepath ph Hacc)
        as (imp & dif & Heq & Himp & Hdif).
      exists [], [], imp, dif. repeat split; auto.
    + intros Hacc.
      exists [], [], [], (EvShowSyncDiff itemID0 filepath :: actions seg).
      repeat split; try constructor; [reflexivity|].
      apply (accept_Resolving seg ph Hacc).
Qed.

(** ** The orchestrator *)

Section OrchestratorFacts.

Context {Data : Type} `{Host Data}.

(** The [try] block either goes through, or returns with the lock given
    back, or throws; its events are in order in every case. *)
Lemma tryBlock_spec (t0 : list Event) (quiet skipActive : bool)
    (reason : string) (items : list Item.t) :
  triple (onTrace (seen t0 (reached 0)))
    (tryBlock quiet skipActive reason items)
    (fun _ => onTrace (seen t0 (fun _ => True)))
    (fun f => lock (world f) = false /\ onTrace (seen t0 (fun _ => True)) f)
    (onTrace (seen t0 (fun _ => True))).
Proof.
  unfold tryBlock.
  eapply triple_bind.
  { apply (triple_modify _ _ (fun _ => onTrace (seen t0 (reached 0)))).
    intros f Hf. exact Hf. }
  intros [].
  eapply triple_bind.
  { eapply triple_weaken;
      [apply (triple_read (seen t0 (reached 0)) _ (fun _ => False))| | | |];
      eauto using seen_any. contradiction. }
  intros items1. destruct (len items1 =? 0)%Z.
  - eapply triple_bind.
    + apply (triple_modify _ _
               (fun _ f => lock (world f) = false
                           /\ onTrace (seen t0 (fun _ => True)) f)).
      intros f Hf. split; [reflexivity|]. revert Hf.
      unfold onTrace. simpl. apply seen_weaken. auto.
    + intros [] f Hf. exact Hf.
  - eapply triple_weaken; [apply (moves_syncItems t0)| | | |]; eauto.
    + intros a f. apply seen_any.
    + contradiction.
Qed.

(** With the lock held the function is left at its first test. *)
Lemma callSyncing_while_locked (items : option (list Item.t))
    (options : option SyncOptions) (w : World Data) :
  lock w = true -> callSyncing items options w = (None, w).
Proof.
  intros Hlock. unfold callSyncing, callSyncing_body, bind, gets.
  cbn [world lock]. rewrite Hlock. reflexivity.
Qed.

(** What the statements around the [try] block add to it: the handler
    logs, the finaliser closes the progress window, and the lock is given
    back unless the block returned. *)
Lemma callSyncing_body_unlocked (items : option (list Item.t))
    (options : option SyncOptions) (w : World Data) :
  lock w = false ->
  exists quiet' f1 c1 evs,
    tryBlock quiet' (skipActive (default defaultOptions options))
      (reason (default defaultOptions options)) (default [] items)
      (mkFrame w false) = (c1, f1)
    /\ quiet' = (if String.eqb (env w) "development" then false
                 else quiet (default defaultOptions options))
    /\ Forall (fun ev => isAction ev = false) evs
    /\ callSyncing items options w =
         (None,
          mkWorld (env (world f1)) (alive (world f1))
            (match c1 with Return => lock (world f1) | _ => false end)
            (data (world f1)) (trace (world f1) ++ evs)).
Proof.
  intros Hlock.
  unfold callSyncing, callSyncing_body.
  unfold bind at 1. unfold gets at 1. cbn [world env].
  unfold bind at 1. unfold gets at 1. cbn [world lock]. rewrite Hlock.
  unfold bind at 1. unfold tryCatchFinally.
  destruct (tryBlock _ _ _ _ (mkFrame w false)) as [c1 f1] eqn:Hbody.
  exists (if String.eqb (env w) "development" then false
          else quiet (default defaultOptions options)), f1, c1.
  destruct f1 as [[e1 a1 l1 d1 t1] p1].
  destruct c1 as [[]| |e]; destruct p1; simpl;
    eexists; (split; [exact Hbody|split; [reflexivity|split]]);
    match goal with
    | |- Forall _ _ => idtac
    | |- _ = (_, mkWorld _ _ _ _ (?t ++ ?evs)) => idtac
    end.
  all: try (rewrite <- ?app_assoc; simpl; reflexivity).
  all: try (rewrite app_nil_r; reflexivity).
  all: repeat constructor.
Qed.

Lemma actions_app (t1 t2 : list Event) : actions (t1 ++ t2) = actions t1 ++ actions t2.
Proof. unfold actions. apply List.filter_app. Qed.

Lemma actions_quiet (evs : list Event) :
  Forall (fun ev => isAction ev = false) evs -> actions evs = [].
Proof.
  induction 1 as [|ev evs Hev _ IH]; [reflexivity|].
  unfold actions in *. simpl. rewrite Hev. exact IH.
Qed.

Lemma len_cons_nonzero {A : Type} (x : A) (xs : list A) : (len (x :: xs) =? 0)%Z = false.
Proof. reflexivity. Qed.

(** C2. Called while the lock is held, [callSyncing] returns at once
    without an exception and leaves the addon's state as it found it: the
    lock, the state behind the collaborators (the sync-status store with
    it) and the trace, to which no comparison and no export, import or
    conflict call is added. *)
Theorem callSyncing_locked_noop (items : option (list Item.t))
    (options : option SyncOptions) (w : World Data) :
  lock w = true ->
  callSyncing items options w = (None, w).
Proof. apply callSyncing_while_locked. Qed.

(** C3. [callSyncing] never throws to its caller; and a call that found
    the lock free, whether it runs to its end, returns on the empty set
    of items or meets an exception in a collaborator, leaves the lock
    free. *)
Theorem callSyncing_catches_and_releases (items : option (list Item.t))
    (options : option SyncOptions) (w : World Data) :
  fst (callSyncing items options w) = None
  /\ (lock w = false -> lock (snd (callSyncing items options w)) = false).
Proof.
  destruct (lock w) eqn:Hlock.
  - rewrite (callSyncing_while_locked items options w Hlock).
    split; [reflexivity|discriminate].
  - destruct (callSyncing_body_unlocked items options w Hlock)
      as (quiet' & f1 & c1 & evs & Hbody & _ & _ & Hcall).
    rewrite Hcall. split; [reflexivity|]. intros _. simpl.
    pose proof (tryBlock_spec (trace w) quiet'
                  (skipActive (default defaultOptions options))
                  (reason (default defaultOptions options)) (default [] items)
                  (mkFrame w false) (seen_start (trace w))) as Hspec.
    rewrite Hbody in Hspec. destruct c1 as [[]| |e]; try reflexivity.
    apply Hspec.
Qed.

(** C4. The comparison and dispatch calls of one run, in the order they
    are made, fall into four consecutive segments: first every
    [doCompare], then every [syncMDBatch] of the export pass, then the
    import pass, then every [onShowSyncDiff]. Within the import pass each
    [fromMD] is followed by the [syncMDBatch] that rewrites the file of
    that one note, which is the second half of the import of that
    record. The calls are awaited one by one, so a call has completed
    when the next one starts. *)
Theorem callSyncing_passes_in_order (items : option (list Item.t))
    (options : option SyncOptions) (w : World Data) :
  exists seg cmp ex imp dif,
    trace (snd (callSyncing items options w)) = trace w ++ seg
    /\ actions seg = cmp ++ ex ++ imp ++ dif
    /\ Forall (fun ev => isDoCompare ev = true) cmp
    /\ Forall (fun ev => isSyncMDBatch ev = true) ex
    /\ ImportSteps imp
    /\ Forall (fun ev => isShowSyncDiff ev = true) dif.
Proof.
  destruct (lock w) eqn:Hlock.
  - rewrite (callSyncing_while_locked items options w Hlock).
    exists [], [], [], [], []. simpl. rewrite app_nil_r.
    repeat split; constructor.
  - destruct (callSyncing_body_unlocked items options w Hlock)
      as (quiet' & f1 & c1 & evs & Hbody & _ & Hevs & Hcall).
    rewrite Hcall. simpl.
    pose proof (tryBlock_spec (trace w) quiet'
                  (skipActive (default defaultOptions options))
                  (reason (default defaultOptions options)) (default [] items)
                  (mkFrame w false) (seen_start (trace w))) as Hspec.
    rewrite Hbody in Hspec.
    assert (Hseen : seen (trace w) (fun _ => True) (trace (world f1))).
    { destruct c1 as [[]| |e]; [exact Hspec|apply Hspec|exact Hspec]. }
    destruct Hseen as (seg & ph & Htrace & Hacc & _).
    destruct (accept_Comparing seg ph Hacc)
      as (cmp & ex & imp & dif & Hact & Hcmp & Hex & Himp & Hdif).
    exists (seg ++ evs), cmp, ex, imp, dif.
    rewrite Htrace, app_assoc, actions_app, (actions_quiet evs Hevs), app_nil_r.
    auto 10.
Qed.

(** The [try] block when no item is left: nothing is compared or
    dispatched. *)
Lemma tryBlock_empty (quiet skipActive : bool) (reason : string)
    (items items1 : list Item.t) (w : World Data) :
  resolveItems (data w) items = inr items1 ->
  (items1 = []
   \/ exists skippedCount,
        skipActiveItems (data w) skipActive items1 = inr (skippedCount, [])) ->
  exists c1 f1,
    tryBlock quiet skipActive reason items (mkFrame w false) = (c1, f1)
    /\ data (world f1) = data w
    /\ actions (trace (world f1)) = actions (trace w).
Proof.
  intros Hres Hempty.
  unfold tryBlock, bind, setLock, modify, read. cbn [world data onWorld setLockW].
  rewrite Hres.
  destruct items1 as [|item items1].
  - simpl. eexists _, _. split; [reflexivity|]. split; reflexivity.
  - destruct Hempty as [Hnil|[skippedCount Hskip]]; [discriminate|].
    rewrite len_cons_nonzero.
    unfold syncItems, bind, read. cbn [world data onWorld setLockW]. rewrite Hskip.
    unfold syncPasses, openProgress, log, emit, changeLine, modify, bind, gets, ret.
    destruct quiet; simpl; eexists _, _; (split; [reflexivity|]);
      (split; [reflexivity|]); simpl;
      rewrite ?actions_app; simpl; rewrite ?app_nil_r; reflexivity.
Qed.

(** C8. When no candidate note is left, because none of the given notes
    is under sync (or none is, for a call without notes) or because the
    focused editors hold all of them and [skipActive] is set, the run
    returns without an exception, with the lock free, the state behind
    the collaborators untouched and no comparison, export, import or
    conflict call made. *)
Theorem callSyncing_empty_set (items : option (list Item.t))
    (options : option SyncOptions) (w : World Data) (items1 : list Item.t) :
  lock w = false ->
  resolveItems (data w) (default [] items) = inr items1 ->
  (items1 = []
   \/ exists skippedCount,
        skipActiveItems (data w) (skipActive (default defaultOptions options))
          items1 = inr (skippedCount, [])) ->
  fst (callSyncing items options w) = None
  /\ lock (snd (callSyncing items options w)) = false
  /\ data (snd (callSyncing items options w)) = data w
  /\ actions (trace (snd (callSyncing items options w))) = actions (trace w).
Proof.
  intros Hlock Hres Hempty.
  destruct (callSyncing_body_unlocked items options w Hlock)
    as (quiet' & f1 & c1 & evs & Hbody & _ & Hevs & Hcall).
  destruct (tryBlock_empty quiet'
              (skipActive (default defaultOptions options))
              (reason (default defaultOptions options))
              (default [] items) items1 w Hres Hempty)
    as (c1' & f1' & Hbody' & Hdata & Hact).
  rewrite Hbody in Hbody'. injection Hbody' as <- <-.
  pose proof (tryBlock_spec (trace w) quiet'
                (skipActive (default defaultOptions options))
                (reason (default defaultOptions options)) (default [] items)
                (mkFrame w false) (seen_start (trace w))) as Hspec.
  rewrite Hbody in Hspec.
  rewrite Hcall. simpl.
  rewrite actions_app, (actions_quiet evs Hevs), app_nil_r.
  repeat split; auto.
  destruct c1 as [[]| |e]; try reflexivity. apply Hspec.
Qed.

(** The [try] block of a verbose run that has items left: it opens the
    progress window and goes on to the passes. *)
Lemma tryBlock_verbose (skipActive : bool) (reason : string)
    (items items1 items2 : list Item.t) (skippedCount : Z) (w : World Data) :
  resolveItems (data w) items = inr items1 ->
  items1 <> [] ->
  skipActiveItems (data w) skipActive items1 = inr (skippedCount, items2) ->
  tryBlock false skipActive reason items (mkFrame w false) =
    syncPasses skippedCount items2
      (mkFrame
         (mkWorld (env w) (alive w) true (data w)
            ((trace w ++ [EvLog (LogSyncStart reason (List.map Item.id items2)
                                   skippedCount)])
             ++ [EvProgressWindow
                   (if String.eqb (env w) "development" then reason
                    else "Better Notes")
                   (TxtCheck 0 (len items2))]))
         true).
Proof.
  intros Hres Hne Hskip.
  unfold tryBlock, bind, setLock, modify, read. cbn [world data onWorld setLockW].
  rewrite Hres.
  destruct items1 as [|item items1]; [congruence|].
  rewrite len_cons_nonzero.
  unfold syncItems, bind, read. cbn [world data onWorld setLockW]. rewrite Hskip.
  unfold openProgress, log, emit, modify, bind, gets. simpl. reflexivity.
Qed.

(** C9. In the development environment the [quiet] option of the caller
    has no effect: the call does what it does with [quiet] false,
    whatever was passed (the timer passes [true]). So a run that has
    items left opens the progress window, and its title carries the
    reason of the call. *)
Theorem callSyncing_development_verbose (items : option (list Item.t))
    (options : SyncOptions) (w : World Data) :
  env w = "development" ->
  callSyncing items (Some options) w =
    callSyncing items
      (Some (mkSyncOptions false (skipActive options) (reason options))) w
  /\ forall (items1 items2 : list Item.t) (skippedCount : Z),
       lock w = false ->
       resolveItems (data w) (default [] items) = inr items1 ->
       items1 <> [] ->
       skipActiveItems (data w) (skipActive options) items1 =
         inr (skippedCount, items2) ->
       In (EvProgressWindow (reason options) (TxtCheck 0 (len items2)))
         (trace (snd (callSyncing items (Some options) w))).
Proof.
  intros Henv. split.
  - unfold callSyncing, callSyncing_body, bind, gets. cbn [world env].
    rewrite Henv. reflexivity.
  - intros items1 items2 skippedCount Hlock Hres Hne Hskip.
    destruct (callSyncing_body_unlocked items (Some options) w Hlock)
      as (quiet' & f1 & c1 & evs & Hbody & Hquiet & _ & Hcall).
    rewrite Henv in Hquiet. simpl in Hquiet. subst quiet'. simpl in Hbody.
    rewrite (tryBlock_verbose _ _ _ items1 items2 skippedCount w Hres Hne Hskip)
      in Hbody.
    rewrite Henv in Hbody. simpl in Hbody.
    match type of Hbody with
    | syncPasses _ _ ?f2 = _ =>
        pose proof (moves_syncPasses (trace (world f2)) skippedCount items2 f2
                      (seen_start _)) as Hspec
    end.
    rewrite Hbody in Hspec.
    assert (Hseen : exists seg, trace (world f1) =
              ((trace w ++ [EvLog (LogSyncStart (reason options)
                                     (List.map Item.id items2) skippedCount)])
               ++ [EvProgressWindow (reason options) (TxtCheck 0 (len items2))])
              ++ seg).
    { destruct c1 as [[]| |e]; try contradiction;
        destruct Hspec as (seg & ph & Htrace & _); exists seg; exact Htrace. }
    destruct Hseen as [seg Htrace].
    rewrite Hcall. simpl. rewrite Htrace.
    rewrite !in_app_iff. left. left. right. simpl. auto.
Qed.

End OrchestratorFacts.

(** ** The scheduler *)

Section SchedulerFacts.

Context {Data : Type} `{Host Data}.

(** A timer that is no longer registered does not fire: the tick leaves
    everything as it is. *)
Lemma tick_cleared (timer : nat) (s : Scheduler) :
  existsb (Nat.eqb timer) (timers s) = false -> tick timer s = s.
Proof. intros Hreg. unfold tick. rewrite Hreg. reflexivity. Qed.

(** The tick after shutdown takes the interval off the list. *)
Lemma onInterval_torn_down_clears (timer : nat) (s : Scheduler) :
  alive (addon s) = false ->
  existsb (Nat.eqb timer) (timers (onInterval timer s)) = false.
Proof.
  intros Halive. unfold onInterval. rewrite Halive. simpl.
  assert (Hgone : existsb (Nat.eqb timer)
                    (List.filter (fun t => negb (Nat.eqb t timer)) (timers s))
                  = false).
  { induction (timers s) as [|t ts IH]; simpl; [reflexivity|].
    destruct (Nat.eqb_spec t timer) as [->|Hne]; simpl; [exact IH|].
    rewrite IH. destruct (Nat.eqb_spec timer t); [congruence|reflexivity]. }
  destruct (document_hasFocus s && (syncPeriodSeconds s >? 0)%Z); exact Hgone.
Qed.

(** The same tick goes on to the focus test: with focus and a positive
    period it calls [callSyncing] with the options of the timer. *)
Lemma onInterval_torn_down_syncs (timer : nat) (s : Scheduler) :
  alive (addon s) = false ->
  document_hasFocus s = true ->
  (0 < syncPeriodSeconds s)%Z ->
  addon (onInterval timer s) =
    snd (callSyncing None (Some autoOptions)
           (setTrace (trace (addon s) ++ [EvShowHint "sync.stop.hint"]) (addon s))).
Proof.
  intros Halive Hfocus Hperiod. unfold onInterval. rewrite Halive. simpl.
  rewrite Hfocus. simpl.
  assert (Hpos : (syncPeriodSeconds s >? 0)%Z = true) by (apply Z.gtb_lt; lia).
  rewrite Hpos. reflexivity.
Qed.

End SchedulerFacts.

(** C7, on the code. After shutdown the tick shows the stop hint and
    clears the interval, and then, the window having focus and the period
    being positive, starts a run on the same tick: the four notes are
    compared and three of them dispatched. *)
Theorem tick_after_shutdown_runs_sync :
  timers (tick 0%nat tornDown) = []
  /\ trace (addon (tick 0%nat tornDown)) =
       [ EvShowHint "sync.stop.hint";
         EvLog (LogSyncStart "auto" [1; 2; 3; 4] 0);
         EvDoCompare 1; EvDoCompare 2; EvDoCompare 3; EvDoCompare 4;
         EvLog (LogWillBeSynced [("/notes", [2])]
                  [mkSyncStatus "/notes" "note.md" "md5:text" "md5:text" 1 3]
                  [mkSyncStatus "/notes" "note.md" "md5:text" "md5:text" 1 4]);
         EvSyncMDBatch "/notes" [2];
         EvFromMD "/notes/note.md" 3; EvSyncMDBatch "/notes" [3];
         EvShowSyncDiff 4 "/notes/note.md" ]
  /\ tick 0%nat (tick 0%nat tornDown) = tick 0%nat tornDown.
Proof. vm_compute. repeat split. Qed.

(** ** Enrolment into sync *)

Section ExportFacts.

Variable getMDFileName : gmap Z SyncStatus -> Z -> string -> Exn + string.
Variable Internal_md5 : string -> string.
Variable Items_getAll : list Z -> list Item.t.

Lemma isSyncNote_Some (store : gmap Z SyncStatus) (id : Z) (r : SyncStatus) :
  store !! id = Some r -> ExportApi.isSyncNote store id = true.
Proof.
  intros Hr. unfold ExportApi.isSyncNote. apply bool_decide_eq_true.
  rewrite Hr. eauto.
Qed.

Lemma toSync_synced (noteItem : Item.t) (syncDir : string)
    (store : gmap Z SyncStatus) :
  ExportApi.isSyncNote store (Item.id noteItem) = true ->
  ExportApi.toSync getMDFileName Internal_md5 noteItem syncDir false store
  = (Return, store).
Proof.
  intros Hsynced. unfold ExportApi.toSync, bind, gets. rewrite Hsynced.
  reflexivity.
Qed.

Lemma toSync_writes (noteItem : Item.t) (syncDir : string) (overwrite : bool)
    (store : gmap Z SyncStatus) (name : string) :
  overwrite = true \/ ExportApi.isSyncNote store (Item.id noteItem) = false ->
  getMDFileName store (Item.id noteItem) syncDir = inr name ->
  ExportApi.toSync getMDFileName Internal_md5 noteItem syncDir overwrite store =
    (Normal tt,
     <[Item.id noteItem :=
         {| path := syncDir;
            filename := name;
            md5 := "";
            noteMd5 := Internal_md5 (Item.getNote noteItem);
            lastsync := 0;
            itemID := Item.id noteItem |}]> store).
Proof.
  intros Hcase Hname. unfold ExportApi.toSync, bind, gets, modify.
  assert (Hgo : negb overwrite
                && ExportApi.isSyncNote store (Item.id noteItem) = false).
  { destruct Hcase as [->| ->]; [reflexivity|apply andb_false_r]. }
  rewrite Hgo, Hname. reflexivity.
Qed.

(** What [toSync] can do to the store: nothing, or write the record of
    its note. *)
Lemma toSync_cases (noteItem : Item.t) (syncDir : string) (overwrite : bool)
    (store : gmap Z SyncStatus) :
  snd (ExportApi.toSync getMDFileName Internal_md5 noteItem syncDir overwrite store)
  = store
  \/ (exists name,
        ExportApi.toSync getMDFileName Internal_md5 noteItem syncDir overwrite store =
          (Normal tt,
           <[Item.id noteItem :=
               ExportApi.freshStatus Internal_md5 noteItem syncDir name]> store)
        /\ (overwrite = true
            \/ ExportApi.isSyncNote store (Item.id noteItem) = false)).
Proof.
  unfold ExportApi.toSync, bind, gets, modify.
  destruct (negb overwrite && ExportApi.isSyncNote store (Item.id noteItem))
    eqn:Hgo; [left; reflexivity|].
  destruct (getMDFileName store (Item.id noteItem) syncDir) as [e|name];
    [left; reflexivity|].
  right. exists name. split; [reflexivity|].
  destruct overwrite; [left; reflexivity|right; exact Hgo].
Qed.

Lemma snd_invoke {S : Type} (m : M S unit) (s : S) :
  snd (ExportApi.invoke m s) = snd (m s).
Proof. unfold ExportApi.invoke. destruct (m s) as [[[]| |e] s1]; reflexivity. Qed.

(** A record stays through [toSync] on another note, and through
    [toSync] without overwrite on any note. *)
Lemma toSync_keeps (noteItem : Item.t) (syncDir : string) (overwrite : bool)
    (id : Z) (r : SyncStatus) :
  overwrite = false \/ id <> Item.id noteItem ->
  triple (fun store : gmap Z SyncStatus => store !! id = Some r)
    (ExportApi.invoke
       (ExportApi.toSync getMDFileName Internal_md5 noteItem syncDir overwrite))
    (fun _ store => store !! id = Some r)
    (fun store => store !! id = Some r)
    (fun store => store !! id = Some r).
Proof.
  intros Hcase store Hr.
  assert (Hkeep :
            snd (ExportApi.invoke
                   (ExportApi.toSync getMDFileName Internal_md5 noteItem syncDir overwrite)
                   store) !! id = Some r).
  { rewrite snd_invoke.
    destruct (toSync_cases noteItem syncDir overwrite store)
      as [->|(name & -> & Hwhy)]; [exact Hr|].
    simpl. destruct (decide (id = Item.id noteItem)) as [->|Hne].
    - exfalso. destruct Hcase as [->|Hne]; [|congruence].
      destruct Hwhy as [Htrue|Hnot]; [discriminate|].
      rewrite (isSyncNote_Some store (Item.id noteItem) r Hr) in Hnot.
      discriminate.
    - rewrite lookup_insert_ne; [exact Hr|congruence]. }
  destruct (ExportApi.invoke _ store) as [[[]| |e] s1]; exact Hkeep.
Qed.

(** A reset record stays reset through [toSync] towards the same
    directory. *)
Lemma toSync_keeps_reset (noteItem : Item.t) (syncDir : string)
    (overwrite : bool) (id : Z) :
  triple (ExportApi.resetAt syncDir id)
    (ExportApi.invoke
       (ExportApi.toSync getMDFileName Internal_md5 noteItem syncDir overwrite))
    (fun _ => ExportApi.resetAt syncDir id)
    (ExportApi.resetAt syncDir id)
    (ExportApi.resetAt syncDir id).
Proof.
  intros store Hreset.
  assert (Hkeep :
            ExportApi.resetAt syncDir id
              (snd (ExportApi.invoke
                      (ExportApi.toSync getMDFileName Internal_md5 noteItem syncDir overwrite)
                      store))).
  { rewrite snd_invoke.
    destruct (toSync_cases noteItem syncDir overwrite store)
      as [->|(name & -> & _)]; [exact Hreset|].
    simpl. destruct (decide (id = Item.id noteItem)) as [->|Hne].
    - eexists. rewrite lookup_insert_eq. split; [reflexivity|]. simpl. auto.
    - destruct Hreset as (r & Hr & Hrest). exists r.
      rewrite lookup_insert_ne; [auto|congruence]. }
  destruct (ExportApi.invoke _ store) as [[[]| |e] s1]; exact Hkeep.
Qed.

(** The first loop, run to its end, has reset every input note. *)
Lemma hard_reset_loop (syncDir : string) (inputNoteItems : list Item.t) :
  forall store store',
    forOf inputNoteItems
      (fun noteItem =>
         ExportApi.invoke (ExportApi.toSync getMDFileName Internal_md5 noteItem syncDir true))
      store
    = (Normal tt, store') ->
    forall noteItem, In noteItem inputNoteItems ->
      ExportApi.resetAt syncDir (Item.id noteItem) store'.
Proof.
  induction inputNoteItems as [|x xs IH]; intros store store' Hrun noteItem Hin;
    [contradiction|].
  simpl in Hrun. unfold bind in Hrun.
  destruct (ExportApi.invoke
              (ExportApi.toSync getMDFileName Internal_md5 x syncDir true) store)
    as [[[]| |e] s1] eqn:Hx;
    try discriminate.
  destruct Hin as [->|Hin]; [|exact (IH s1 store' Hrun noteItem Hin)].
  assert (Hreset : ExportApi.resetAt syncDir (Item.id noteItem) s1).
  { revert Hx. unfold ExportApi.invoke, ExportApi.toSync, bind, gets, modify.
    simpl.
    destruct (getMDFileName store (Item.id noteItem) syncDir) as [e|name];
      [discriminate|].
    intros Hx. injection Hx as <-.
    unfold ExportApi.resetAt, ExportApi.updateSyncStatus.
    eexists. rewrite lookup_insert_eq. split; [reflexivity|]. simpl. auto. }
  pose proof (triple_forOf (ExportApi.resetAt syncDir (Item.id noteItem))
                (ExportApi.resetAt syncDir (Item.id noteItem))
                (ExportApi.resetAt syncDir (Item.id noteItem)) xs
                (fun n => ExportApi.invoke
                            (ExportApi.toSync getMDFileName Internal_md5 n syncDir true))
                (fun n _ => toSync_keeps_reset n syncDir true (Item.id noteItem))
                s1 Hreset) as Hloop.
  rewrite Hrun in Hloop. exact Hloop.
Qed.

(** C10. [toSync] without overwrite on a note under sync returns and
    leaves the store as it is; when overwrite is set or the note is not
    under sync it writes the record of the note, with an empty file
    checksum, the checksum of the note and last sync 0; and it changes
    the store in no other case. So the two loops of [exportNotes] keep
    the record of every note under sync that is not an input note (the
    linked notes are not: their ids are filtered against the input ids),
    and, run to their end, leave every input note reset. *)
Theorem toSync_enrols_without_reset :
  (forall noteItem syncDir store,
     ExportApi.isSyncNote store (Item.id noteItem) = true ->
     ExportApi.toSync getMDFileName Internal_md5 noteItem syncDir false store
     = (Return, store))
  /\ (forall noteItem syncDir overwrite store name,
        overwrite = true
        \/ ExportApi.isSyncNote store (Item.id noteItem) = false ->
        getMDFileName store (Item.id noteItem) syncDir = inr name ->
        ExportApi.toSync getMDFileName Internal_md5 noteItem syncDir overwrite
          store
        = (Normal tt,
           <[Item.id noteItem :=
               {| path := syncDir;
                  filename := name;
                  md5 := "";
                  noteMd5 := Internal_md5 (Item.getNote noteItem);
                  lastsync := 0;
                  itemID := Item.id noteItem |}]> store))
  /\ (forall noteItem syncDir overwrite store,
        snd (ExportApi.toSync getMDFileName Internal_md5 noteItem syncDir
               overwrite store) <> store ->
        overwrite = true
        \/ ExportApi.isSyncNote store (Item.id noteItem) = false)
  /\ (forall standaloneLink inputNoteItems linkedNoteIds syncDir store id r,
        store !! id = Some r ->
        ~ In id (List.map Item.id inputNoteItems) ->
        snd (ExportApi.exportNotes_enrol getMDFileName Internal_md5 Items_getAll
               standaloneLink inputNoteItems linkedNoteIds syncDir store)
          !! id = Some r)
  /\ (forall inputNoteItems linkedNoteIds noteItem,
        (forall ids item, In item (Items_getAll ids) -> In (Item.id item) ids) ->
        In noteItem
          (ExportApi.linkedNoteItems Items_getAll true inputNoteItems
             linkedNoteIds) ->
        ~ In (Item.id noteItem) (List.map Item.id inputNoteItems))
  /\ (forall standaloneLink inputNoteItems linkedNoteIds syncDir store store',
        ExportApi.exportNotes_enrol getMDFileName Internal_md5 Items_getAll
          standaloneLink inputNoteItems linkedNoteIds syncDir store
        = (Normal tt, store') ->
        forall noteItem, In noteItem inputNoteItems ->
          ExportApi.resetAt syncDir (Item.id noteItem) store').
Proof.
  split; [exact toSync_synced|].
  split; [exact toSync_writes|].
  split.
  { intros noteItem syncDir overwrite store Hchanged.
    destruct (toSync_cases noteItem syncDir overwrite store)
      as [Hsame|(name & _ & Hwhy)]; [contradiction|exact Hwhy]. }
  split.
  { intros standaloneLink inputNoteItems linkedNoteIds syncDir store id r Hr Hnot.
    apply (triple_snd (fun st : gmap Z SyncStatus => st !! id = Some r));
      [|exact Hr].
    unfold ExportApi.exportNotes_enrol.
    eapply triple_bind.
    - apply triple_forOf. intros x Hx. apply toSync_keeps. right.
      intros ->. apply Hnot. apply in_map. exact Hx.
    - intros []. apply triple_forOf. intros x _. apply toSync_keeps. left.
      reflexivity. }
  split.
  { intros inputNoteItems linkedNoteIds noteItem Hget Hin Hinput.
    unfold ExportApi.linkedNoteItems in Hin. apply Hget in Hin.
    apply List.filter_In in Hin. destruct Hin as [_ Hfresh].
    apply negb_true_iff in Hfresh.
    assert (Hex : existsb (Z.eqb (Item.id noteItem))
                    (List.map Item.id inputNoteItems) = true).
    { apply existsb_exists. exists (Item.id noteItem).
      split; [exact Hinput|apply Z.eqb_refl]. }
    congruence. }
  intros standaloneLink inputNoteItems linkedNoteIds syncDir store store' Hrun
    noteItem Hin.
  unfold ExportApi.exportNotes_enrol, bind in Hrun.
  destruct (forOf inputNoteItems _ store) as [[[]| |e] s1] eqn:Hfirst;
    try discriminate.
  pose proof (hard_reset_loop syncDir inputNoteItems store s1 Hfirst noteItem Hin)
    as Hreset.
  pose proof (triple_forOf (ExportApi.resetAt syncDir (Item.id noteItem))
                (ExportApi.resetAt syncDir (Item.id noteItem))
                (ExportApi.resetAt syncDir (Item.id noteItem))
                (ExportApi.linkedNoteItems Items_getAll standaloneLink
                   inputNoteItems linkedNoteIds)
                (fun n => ExportApi.invoke
                            (ExportApi.toSync getMDFileName Internal_md5 n
                               syncDir false))
                (fun n _ => toSync_keeps_reset n syncDir false (Item.id noteItem))
                s1 Hreset) as Hloop.
  rewrite Hrun in Hloop. exact Hloop.
Qed.

End ExportFacts.

(** * The theorems at work on the small host *)

(** The edited note of the library: its answer is [NoteAhead]. *)
Lemma doCompare_four_outcomes_witness :
  getSyncStatus library 2 = inr (statusOf 2 "/notes")
  /\ getMDStatus library 2 = inr (fileOf 7 "text")
  /\ 0 <= 7
  /\ exists c : SyncCode,
       doCompare library (itemOf 2 "edited") = inr c
       /\ (c = NeedDiff <->
           noteChanged (statusOf 2 "/notes") (mkMDMeta 7) (itemOf 2 "edited")
           /\ fileChanged (statusOf 2 "/notes") (fileOf 7 "text"))
       /\ (c = NoteAhead <->
           noteChanged (statusOf 2 "/notes") (mkMDMeta 7) (itemOf 2 "edited")
           /\ ~ fileChanged (statusOf 2 "/notes") (fileOf 7 "text"))
       /\ (c = MDAhead <->
           ~ noteChanged (statusOf 2 "/notes") (mkMDMeta 7) (itemOf 2 "edited")
           /\ fileChanged (statusOf 2 "/notes") (fileOf 7 "text"))
       /\ (c = UpToDate <->
           ~ noteChanged (statusOf 2 "/notes") (mkMDMeta 7) (itemOf 2 "edited")
           /\ ~ fileChanged (statusOf 2 "/notes") (fileOf 7 "text")).
Proof.
  split; [reflexivity|]. split; [reflexivity|]. split; [lia|].
  apply (doCompare_four_outcomes library (itemOf 2 "edited") (statusOf 2 "/notes")
           (fileOf 7 "text") (mkMDMeta 7));
    [reflexivity|reflexivity|reflexivity|simpl; lia].
Defined.

(** A note at version 7 against a file that declares version 6, the
    checksums being the recorded ones. *)
Lemma doCompare_version_mismatch_witness :
  version (mkMDMeta 6) <> Item.version (itemOf 5 "text")
  /\ noteChanged (statusOf 5 "/notes") (mkMDMeta 6) (itemOf 5 "text")
  /\ doCompare staleLibrary (itemOf 5 "text") = inr NoteAhead.
Proof.
  split; [simpl; lia|].
  apply (doCompare_version_mismatch staleLibrary (itemOf 5 "text")
           (statusOf 5 "/notes") (fileOf 6 "text") (mkMDMeta 6));
    [reflexivity|reflexivity|reflexivity|simpl; lia|reflexivity|reflexivity
    |simpl; lia].
Defined.

(** The note of the library whose file declares version -1. *)
Lemma doCompare_negative_version_witness :
  version (mkMDMeta (-1)) < 0
  /\ doCompare library (itemOf 4 "text") = inr NeedDiff.
Proof.
  split; [simpl; lia|].
  apply (doCompare_negative_version library (itemOf 4 "text")
           (statusOf 4 "/notes") (fileOf (-1) "text") (mkMDMeta (-1)));
    [reflexivity|reflexivity|reflexivity|simpl; lia].
Defined.

(** A tick of the timer while a run is in flight. *)
Lemma callSyncing_locked_noop_witness :
  lock (busy library) = true
  /\ callSyncing None (Some autoOptions) (busy library) = (None, busy library).
Proof.
  split; [reflexivity|].
  apply (callSyncing_locked_noop None (Some autoOptions) (busy library)).
  reflexivity.
Defined.

(** A run whose export fails. *)
Lemma callSyncing_catches_and_releases_witness :
  lock (idle readonlyLibrary) = false
  /\ fst (callSyncing None None (idle readonlyLibrary)) = None
  /\ lock (snd (callSyncing None None (idle readonlyLibrary))) = false.
Proof.
  split; [reflexivity|].
  destruct (callSyncing_catches_and_releases None None (idle readonlyLibrary))
    as [Hcaught Hfree].
  split; [exact Hcaught|]. apply Hfree. reflexivity.
Defined.

(** A run whose only note is open in a focused editor. *)
Lemma callSyncing_empty_set_witness :
  lock (idle focusedLibrary) = false
  /\ resolveItems focusedLibrary [] = inr [itemOf 2 "edited"]
  /\ skipActiveItems focusedLibrary true [itemOf 2 "edited"] = inr (1, [])
  /\ fst (callSyncing None None (idle focusedLibrary)) = None
  /\ lock (snd (callSyncing None None (idle focusedLibrary))) = false
  /\ data (snd (callSyncing None None (idle focusedLibrary))) = focusedLibrary
  /\ actions (trace (snd (callSyncing None None (idle focusedLibrary)))) = [].
Proof.
  split; [reflexivity|]. split; [reflexivity|]. split; [reflexivity|].
  apply (callSyncing_empty_set None None (idle focusedLibrary)
           [itemOf 2 "edited"]);
    [reflexivity|reflexivity|right; exists 1; reflexivity].
Defined.

(** A run started by the timer in the development environment. *)
Lemma callSyncing_development_verbose_witness :
  env (developing library) = "development"
  /\ callSyncing None (Some autoOptions) (developing library) =
       callSyncing None (Some (mkSyncOptions false true "auto")) (developing library)
  /\ In (EvProgressWindow "auto" (TxtCheck 0 4))
       (trace (snd (callSyncing None (Some autoOptions) (developing library)))).
Proof.
  split; [reflexivity|].
  destruct (callSyncing_development_verbose None autoOptions (developing library)
              eq_refl) as [Hsame Hopen].
  split; [exact Hsame|].
  apply (Hopen (List.map entryItem library) (List.map entryItem library) 0);
    [reflexivity|reflexivity|discriminate|reflexivity].
Defined.

(** Export with sync of note 1, which links to notes 2 (under sync) and
    3 (not yet): note 2 keeps its record, notes 1 and 3 get a fresh one. *)
Lemma toSync_enrols_without_reset_witness :
  ExportApi.isSyncNote oneRecord 2 = true
  /\ ExportApi.toSync fileNameOf checksumOf (Item.mk 2 "new text" 8) "/sync" false
       oneRecord = (Return, oneRecord)
  /\ ExportApi.toSync fileNameOf checksumOf (Item.mk 3 "linked" 1) "/sync" false
       oneRecord
     = (Normal tt, <[3 := mkSyncStatus "/sync" "note.md" "" "md5:linked" 0 3]> oneRecord)
  /\ snd (ExportApi.exportNotes_enrol fileNameOf checksumOf itemsOf true
            [Item.mk 1 "input" 1] [1; 2; 3] "/sync" oneRecord) !! 2
     = Some (mkSyncStatus "/old" "two.md" "md5:text" "md5:text" 99 2)
  /\ ~ In 2 (List.map Item.id [Item.mk 1 "input" 1])
  /\ ExportApi.resetAt "/sync" 1
       (snd (ExportApi.exportNotes_enrol fileNameOf checksumOf itemsOf true
               [Item.mk 1 "input" 1] [1; 2; 3] "/sync" oneRecord)).
Proof.
  destruct (toSync_enrols_without_reset fileNameOf checksumOf itemsOf)
    as (Hnoop & Hwrite & _ & Hkeep & Hlinked & Hreset).
  split; [reflexivity|].
  split; [apply Hnoop; reflexivity|].
  split; [apply (Hwrite (Item.mk 3 "linked" 1) "/sync" false oneRecord "note.md");
          [right; reflexivity|reflexivity]|].
  split; [apply Hkeep; [reflexivity|simpl; intros [Heq|[]]; discriminate]|].
  split.
  - apply (Hlinked [Item.mk 1 "input" 1] [1; 2; 3] (Item.mk 2 "linked" 1)).
    + intros ids item Hitem. unfold itemsOf in Hitem.
      apply List.in_map_iff in Hitem. destruct Hitem as (id & <- & Hid). exact Hid.
    + simpl. left. reflexivity.
  - apply (Hreset true [Item.mk 1 "input" 1] [1; 2; 3] "/sync" oneRecord
             (snd (ExportApi.exportNotes_enrol fileNameOf checksumOf itemsOf true
                     [Item.mk 1 "input" 1] [1; 2; 3] "/sync" oneRecord))
             eq_refl (Item.mk 1 "input" 1)).
    left. reflexivity.
Defined.

(** ** Runs of the model *)

(** A run over the four notes of the library: the note in step is left
    alone, the edited note is exported, the note whose file was edited is
    imported and its file rewritten, the note with the unreadable file
    goes to the conflict hook. *)
Example callSyncing_library :
  callSyncing None None (idle library) =
    (None,
     mkWorld "production" true false library
       [ EvLog (LogSyncStart "unknown" [1; 2; 3; 4] 0);
         EvDoCompare 1; EvDoCompare 2; EvDoCompare 3; EvDoCompare 4;
         EvLog (LogWillBeSynced [("/notes", [2])] [statusOf 3 "/notes"]
                  [statusOf 4 "/notes"]);
         EvSyncMDBatch "/notes" [2];
         EvFromMD "/notes/note.md" 3; EvSyncMDBatch "/notes" [3];
         EvShowSyncDiff 4 "/notes/note.md" ]).
Proof. reflexivity. Qed.

(** A failed export ends the run: the import that was due is not made,
    the exception is logged and the lock is given back. *)
Example callSyncing_failed_export :
  callSyncing None None (idle readonlyLibrary) =
    (None,
     mkWorld "production" true false readonlyLibrary
       [ EvLog (LogSyncStart "unknown" [2; 3] 0);
         EvDoCompare 2; EvDoCompare 3;
         EvLog (LogWillBeSynced [("/readonly", [2])] [statusOf 3 "/notes"] []);
         EvSyncMDBatch "/readonly" [2];
         EvLog (LogError "EACCES") ]).
Proof. reflexivity. Qed.

(** With its only note in a focused editor the run compares nothing and
    reports one skipped note. *)
Example callSyncing_focused :
  callSyncing None (Some (mkSyncOptions false true "manual")) (idle focusedLibrary) =
    (None,
     mkWorld "production" true false focusedLibrary
       [ EvLog (LogSyncStart "manual" [] 1);
         EvProgressWindow "Better Notes" (TxtCheck 0 0);
         EvLog (LogWillBeSynced [] [] []);
         EvChangeLine (TxtFinish 0 1);
         EvStartCloseTimer 5000 ]).
Proof. reflexivity. Qed.

(** The four segments are a constraint: a comparison made after an
    export has no place in them. *)
Example comparison_after_export_is_out_of_order :
  ~ exists cmp ex imp dif,
      [EvSyncMDBatch "/notes" [2]; EvDoCompare 1] = cmp ++ ex ++ imp ++ dif
      /\ Forall (fun ev => isDoCompare ev = true) cmp
      /\ Forall (fun ev => isSyncMDBatch ev = true) ex
      /\ ImportSteps imp
      /\ Forall (fun ev => isShowSyncDiff ev = true) dif.
Proof.
  intros (cmp & ex & imp & dif & Heq & Hcmp & Hex & Himp & Hdif).
  destruct cmp as [|c cmp].
  2: { injection Heq as <- _. inversion Hcmp; discriminate. }
  simpl in Heq.
  assert (Hrest : forall l, EvDoCompare 1 :: l = imp ++ dif -> False).
  { intros l Hl. destruct Himp; simpl in Hl; try discriminate.
    destruct Hdif; [discriminate|]. injection Hl as <- _. discriminate. }
  destruct ex as [|e1 ex]; simpl in Heq.
  - destruct Himp; simpl in Heq; try discriminate.
    destruct Hdif; [discriminate|]. injection Heq as <- _. discriminate.
  - injection Heq as <- Heq.
    destruct ex as [|e2 ex]; simpl in Heq; [exact (Hrest _ Heq)|].
    injection Heq as <- _. inversion Hex as [|? ? _ Htail]. inversion Htail.
    discriminate.
Qed.

(** * Further properties of the sync module *)

Section CompareReads.

Context {Data : Type} `{Host Data}.

(** X1. [doCompare] throws exactly when one of its two reads throws, the
    sync status being read first, and it hands on that exception; when
    both reads succeed and the file has no metadata (no file found) the
    answer is [NoteAhead], whatever the note and the record hold. *)
Theorem doCompare_reads (d : Data) (noteItem : Item.t) :
  (forall e,
     doCompare d noteItem = inl e <->
     getSyncStatus d (Item.id noteItem) = inl e
     \/ (exists syncStatus,
           getSyncStatus d (Item.id noteItem) = inr syncStatus
           /\ getMDStatus d (Item.id noteItem) = inl e))
  /\ (forall syncStatus mdStatus,
        getSyncStatus d (Item.id noteItem) = inr syncStatus ->
        getMDStatus d (Item.id noteItem) = inr mdStatus ->
        meta mdStatus = None ->
        doCompare d noteItem = inr NoteAhead).
Proof.
  split.
  - intros e. unfold doCompare.
    destruct (getSyncStatus d (Item.id noteItem)) as [e1|syncStatus]; simpl.
    + split; [intros [= ->]; left; reflexivity|].
      intros [[= ->]|(st & Hst & _)]; [reflexivity|discriminate].
    + destruct (getMDStatus d (Item.id noteItem)) as [e2|mdStatus]; simpl.
      * split; [intros [= ->]; right; eauto|].
        intros [Hst|(st & _ & [= ->])]; [discriminate|reflexivity].
      * split.
        -- destruct (meta mdStatus) as [m|]; [|discriminate].
           destruct (Z.ltb (version m) 0); [discriminate|].
           destruct (negb (String.eqb _ _)), (negb (String.eqb _ _)),
             (negb (Z.eqb _ _)); discriminate.
        -- intros [Hst|(st & _ & Hmd)]; discriminate.
  - intros syncStatus mdStatus Hst Hmd Hmeta.
    unfold doCompare. rewrite Hst. simpl. rewrite Hmd. simpl. rewrite Hmeta.
    reflexivity.
Qed.

End CompareReads.

Section ItemSelection.

Context {Data : Type} `{Host Data}.

Lemma filterE_total {A : Type} (p : A -> Exn + bool) (q : A -> bool) (xs : list A) :
  (forall x, In x xs -> p x = inr (q x)) ->
  filterE p xs = inr (List.filter q xs).
Proof.
  induction xs as [|x xs IH]; intros Hp; simpl; [reflexivity|].
  rewrite (Hp x (or_introl eq_refl)). simpl.
  rewrite IH by (intros y Hy; apply Hp; right; exact Hy). reflexivity.
Qed.

Lemma filterE_throws {A : Type} (p : A -> Exn + bool) (xs : list A) (e : Exn) :
  filterE p xs = inl e -> exists x, In x xs /\ p x = inl e.
Proof.
  induction xs as [|x xs IH]; simpl; [discriminate|].
  destruct (p x) as [e1|b] eqn:Hpx; simpl.
  - intros [= ->]. exists x. auto.
  - destruct (filterE p xs) as [e2|ys]; simpl; [|discriminate].
    intros [= ->]. destruct (IH eq_refl) as (y & Hy & Hpy). exists y. auto.
Qed.

(** X2. Given a list of notes, [callSyncing] keeps those under sync, in
    the order given; and the selection throws only with the exception of
    [isSyncNote] on one of the notes given. *)
Theorem resolveItems_explicit (d : Data) (items : list Item.t) :
  items <> [] ->
  (forall synced : Z -> bool,
     (forall item, In item items ->
        isSyncNote d (Item.id item) = inr (synced (Item.id item))) ->
     resolveItems d items =
       inr (List.filter (fun item => synced (Item.id item)) items))
  /\ (forall e,
        resolveItems d items = inl e ->
        exists item, In item items /\ isSyncNote d (Item.id item) = inl e).
Proof.
  intros Hne. unfold resolveItems.
  destruct items as [|item items]; [congruence|].
  rewrite len_cons_nonzero. split.
  - intros synced Hsynced.
    apply (filterE_total (fun it => isSyncNote d (Item.id it))
             (fun it => synced (Item.id it))). exact Hsynced.
  - intros e. apply filterE_throws.
Qed.

(** X3. What [skipActive] does: the skipped count and the items kept add
    up to the items given, the items kept are among those given, nothing
    is skipped when the option is off, and when it is on an item is kept
    exactly when no editor that is alive and has focus is on it. *)
Theorem skipActiveItems_counts (d : Data) (skip : bool)
    (items kept : list Item.t) (skippedCount : Z) :
  skipActiveItems d skip items = inr (skippedCount, kept) ->
  skippedCount + len kept = len items
  /\ 0 <= skippedCount
  /\ (forall item, In item kept -> In item items)
  /\ (skip = false -> kept = items)
  /\ (skip = true ->
      exists editors,
        editorInstances d = inr editors
        /\ forall item, In item items ->
             (In item kept <->
              ~ exists editor,
                  In editor editors
                  /\ isDeadWrapper editor = false
                  /\ hasFocus editor = true
                  /\ editorItemId editor = Item.id item)).
Proof.
  unfold skipActiveItems, activeNoteIds. destruct skip.
  - destruct (editorInstances d) as [e|editors]; simpl; [discriminate|].
    intros [= <- <-]. unfold filteredItems, len.
    pose proof (List.filter_length_le
                  (fun item =>
                     negb (existsb (Z.eqb (Item.id item))
                             (List.map editorItemId
                                (List.filter
                                   (fun editor =>
                                      negb (isDeadWrapper editor) && hasFocus editor)
                                   editors)))) items) as Hle.
    split; [lia|]. split; [lia|].
    split; [intros item Hin; apply List.filter_In in Hin; tauto|].
    split; [discriminate|]. intros _. exists editors. split; [reflexivity|].
    intros item Hitem. rewrite List.filter_In, negb_true_iff.
    split.
    + intros [_ Hnone] (editor & Hed & Hdead & Hfocus & Hid).
      assert (Hsome : existsb (Z.eqb (Item.id item))
                        (List.map editorItemId
                           (List.filter
                              (fun editor =>
                                 negb (isDeadWrapper editor) && hasFocus editor)
                              editors)) = true).
      { apply existsb_exists. exists (Item.id item). split; [|apply Z.eqb_refl].
        apply List.in_map_iff. exists editor. split; [exact Hid|].
        apply List.filter_In. split; [exact Hed|]. rewrite Hdead, Hfocus.
        reflexivity. }
      congruence.
    + intros Hnone. split; [exact Hitem|].
      destruct (existsb _ _) eqn:Hex; [|reflexivity]. exfalso. apply Hnone.
      apply existsb_exists in Hex. destruct Hex as (id & Hid & Heq).
      apply Z.eqb_eq in Heq. subst id.
      apply List.in_map_iff in Hid. destruct Hid as (editor & Hid & Hed).
      apply List.filter_In in Hed. destruct Hed as [Hed Hlive].
      apply andb_true_iff in Hlive. destruct Hlive as [Hdead Hfocus].
      apply negb_true_iff in Hdead. exists editor. auto.
  - intros [= <- <-]. repeat split; auto; try lia; try discriminate.
Qed.

End ItemSelection.

(** ** Grouping the exports by directory *)

Lemma toExport_get_absent (toExport : list (string * list Z)) (filepath : string) :
  existsb (String.eqb filepath) (Object_keys toExport) = false ->
  toExport_get toExport filepath = [].
Proof.
  unfold toExport_get, Object_keys.
  induction toExport as [|[k v] te IH]; simpl; [reflexivity|].
  rewrite (String.eqb_sym filepath k).
  destruct (String.eqb k filepath); simpl; [discriminate|exact IH].
Qed.

Lemma existsb_eqb_In (filepath : string) (keys : list string) :
  existsb (String.eqb filepath) keys = true <-> In filepath keys.
Proof.
  rewrite existsb_exists. split.
  - intros (k & Hk & Heq). apply String.eqb_eq in Heq. subst. exact Hk.
  - intros Hin. exists filepath. split; [exact Hin|apply String.eqb_refl].
Qed.

Lemma toExport_add_facts (toExport : list (string * list Z))
    (filepath : string) (id : Z) :
  toExport_get (toExport_add toExport filepath id) filepath
  = toExport_get toExport filepath ++ [id]
  /\ (forall other, other <> filepath ->
        toExport_get (toExport_add toExport filepath id) other
        = toExport_get toExport other)
  /\ Object_keys (toExport_add toExport filepath id)
     = (if existsb (String.eqb filepath) (Object_keys toExport)
        then Object_keys toExport
        else Object_keys toExport ++ [filepath])
  /\ (NoDup (Object_keys toExport) ->
      NoDup (Object_keys (toExport_add toExport filepath id))).
Proof.
  assert (Hkeys : Object_keys (toExport_add toExport filepath id)
                  = (if existsb (String.eqb filepath) (Object_keys toExport)
                     then Object_keys toExport
                     else Object_keys toExport ++ [filepath])).
  { unfold toExport_add.
    destruct (existsb (String.eqb filepath) (Object_keys toExport)).
    - unfold Object_keys. rewrite List.map_map. apply List.map_ext.
      intros [k v]. simpl. destruct (String.eqb k filepath); reflexivity.
    - unfold Object_keys. rewrite List.map_app. reflexivity. }
  split; [|split; [|split; [exact Hkeys|]]].
  - clear Hkeys. unfold toExport_add.
    destruct (existsb (String.eqb filepath) (Object_keys toExport)) eqn:Hin.
    + unfold toExport_get, Object_keys in *.
      induction toExport as [|[k v] te IH]; simpl in *; [discriminate|].
      destruct (String.eqb k filepath) eqn:Hk; simpl; rewrite Hk; [reflexivity|].
      apply IH. rewrite (String.eqb_sym filepath k), Hk in Hin. exact Hin.
    + rewrite (toExport_get_absent toExport filepath Hin).
      unfold toExport_get, Object_keys in *.
      induction toExport as [|[k v] te IH]; simpl in *.
      * rewrite String.eqb_refl. reflexivity.
      * rewrite (String.eqb_sym filepath k) in Hin.
        destruct (String.eqb k filepath); simpl in *; [discriminate|].
        apply IH. exact Hin.
  - clear Hkeys. intros other Hother. unfold toExport_add.
    destruct (existsb (String.eqb filepath) (Object_keys toExport)).
    + unfold toExport_get.
      induction toExport as [|[k v] te IH]; simpl; [reflexivity|].
      destruct (String.eqb_spec k filepath) as [->|Hk]; simpl.
      * destruct (String.eqb_spec filepath other) as [->|_]; [congruence|exact IH].
      * destruct (String.eqb k other); [reflexivity|exact IH].
    + unfold toExport_get.
      induction toExport as [|[k v] te IH]; simpl.
      * destruct (String.eqb_spec filepath other) as [->|_]; [congruence|reflexivity].
      * destruct (String.eqb k other); [reflexivity|exact IH].
  - intros Hnodup. rewrite Hkeys.
    destruct (existsb (String.eqb filepath) (Object_keys toExport)) eqn:Hin;
      [exact Hnodup|].
    apply NoDup_app; split; [exact Hnodup|]. split.
    + intros k Hk Hk'. apply list_elem_of_In in Hk. apply list_elem_of_In in Hk'.
      destruct Hk' as [<-|[]]. apply existsb_eqb_In in Hk. congruence.
    + apply NoDup_singleton.
Qed.

(** Adding a note to the exports of a directory: the ids recorded for
    that directory are the ones it had followed by the new id, the ids of
    every other directory are as before, a directory that is new comes
    last among the keys and the others keep their place, and the keys
    stay pairwise distinct. *)
Theorem toExport_add_get (toExport : list (string * list Z))
    (filepath : string) (id : Z) :
  toExport_get (toExport_add toExport filepath id) filepath
  = toExport_get toExport filepath ++ [id]
  /\ (forall other, other <> filepath ->
        toExport_get (toExport_add toExport filepath id) other
        = toExport_get toExport other)
  /\ Object_keys (toExport_add toExport filepath id)
     = (if existsb (String.eqb filepath) (Object_keys toExport)
        then Object_keys toExport
        else Object_keys toExport ++ [filepath])
  /\ (NoDup (Object_keys toExport) ->
      NoDup (Object_keys (toExport_add toExport filepath id))).
Proof. exact (toExport_add_facts toExport filepath id). Qed.

(** ** What the comparison pass sorts where *)

Section ComparePassFacts.

Context {Data : Type} `{Host Data}.

Variable d : Data.
Variable statusOf' : Z -> SyncStatus.
Variable codeOf : Item.t -> SyncCode.

Lemma isCode_eq (c c' : SyncCode) : isCode c c' = true <-> c = c'.
Proof. destruct c, c'; unfold isCode; simpl; split; congruence. Qed.

Lemma comparePassFrom_sorted (items : list Item.t) :
  (forall item, In item items ->
     getSyncStatus d (Item.id item) = inr (statusOf' (Item.id item))
     /\ doCompare d item = inr (codeOf item)) ->
  forall l0, NoDup (Object_keys (toExport l0)) ->
  exists l,
    comparePassFrom d l0 items = inr l
    /\ toImport l =
         toImport l0
         ++ List.map (fun item => statusOf' (Item.id item))
              (List.filter (fun item => isCode (codeOf item) MDAhead) items)
    /\ toDiff l =
         toDiff l0
         ++ List.map (fun item => statusOf' (Item.id item))
              (List.filter (fun item => isCode (codeOf item) NeedDiff) items)
    /\ (forall filepath,
          toExport_get (toExport l) filepath =
            toExport_get (toExport l0) filepath
            ++ List.map Item.id
                 (List.filter
                    (fun item =>
                       isCode (codeOf item) NoteAhead
                       && String.eqb (path (statusOf' (Item.id item))) filepath)
                    items))
    /\ NoDup (Object_keys (toExport l))
    /\ i l = i l0 + len items.
Proof.
  induction items as [|item items IH]; intros Hreads l0 Hnodup.
  - exists l0. unfold len. simpl.
    rewrite !app_nil_r. repeat split; auto; try lia.
    intros; symmetry; apply app_nil_r.
  - destruct (Hreads item (or_introl eq_refl)) as [Hst Hcode].
    simpl. rewrite Hst. simpl. rewrite Hcode. simpl.
    destruct (toExport_add_facts (toExport l0)
                (path (statusOf' (Item.id item))) (Item.id item))
      as (Hsame & Hother & _ & Hkeep).
    assert (Hnodup1 : NoDup (Object_keys
                               (toExport (sortItem l0 item (statusOf' (Item.id item))
                                            (codeOf item))))).
    { unfold sortItem. destruct (codeOf item); simpl; auto. }
    destruct (IH (fun it Hit => Hreads it (or_intror Hit)) _ Hnodup1)
      as (l & Hrun & Himp & Hdif & Hexp & Hnd & Hi).
    exists l. split; [exact Hrun|].
    assert (Hlen : len (item :: items) = 1 + len items)
      by (unfold len; simpl length; lia).
    simpl List.filter.
    unfold sortItem in Himp, Hdif, Hexp, Hi.
    destruct (codeOf item) eqn:Hc; simpl in Himp, Hdif, Hexp, Hi |- *;
      repeat split; auto; try lia;
      try (rewrite Himp, <- ?app_assoc; reflexivity);
      try (rewrite Hdif, <- ?app_assoc; reflexivity).
    intros filepath. rewrite Hexp.
    destruct (String.eqb_spec (path (statusOf' (Item.id item))) filepath)
      as [<-|Hne]; simpl.
    + rewrite Hsame, <- app_assoc. reflexivity.
    + rewrite Hother by congruence. reflexivity.
Qed.

(** X4. When the reads succeed for every item, the comparison pass sorts
    the items by the answer of [doCompare]: the records of the items
    answered [MDAhead] go to [toImport] and those answered [NeedDiff] to
    [toDiff], each in the order of the items; the ids of the items
    answered [NoteAhead] are grouped by the directory of their record,
    each group in the order of the items, under pairwise distinct keys;
    an item answered [UpToDate] goes nowhere. *)
Theorem comparePass_sorted (items : list Item.t) :
  (forall item, In item items ->
     getSyncStatus d (Item.id item) = inr (statusOf' (Item.id item))
     /\ doCompare d item = inr (codeOf item)) ->
  exists l,
    comparePass d items = inr l
    /\ toImport l =
         List.map (fun item => statusOf' (Item.id item))
           (List.filter (fun item => isCode (codeOf item) MDAhead) items)
    /\ toDiff l =
         List.map (fun item => statusOf' (Item.id item))
           (List.filter (fun item => isCode (codeOf item) NeedDiff) items)
    /\ (forall filepath,
          toExport_get (toExport l) filepath =
            List.map Item.id
              (List.filter
                 (fun item =>
                    isCode (codeOf item) NoteAhead
                    && String.eqb (path (statusOf' (Item.id item))) filepath)
                 items))
    /\ NoDup (Object_keys (toExport l)).
Proof.
  intros Hreads.
  destruct (comparePassFrom_sorted items Hreads (mkLocals [] [] [] 1))
    as (l & Hrun & Himp & Hdif & Hexp & Hnd & _); [constructor|].
  exists l. repeat split; auto.
Qed.

End ComparePassFacts.

(** ** Whole runs *)

Section RunFacts.

Context {Data : Type} `{Host Data}.

Lemma follows_refl (f : Frame Data) : follows f f [].
Proof. unfold follows. rewrite app_nil_r. auto. Qed.

Lemma follows_trans (f f1 f2 : Frame Data) (seg1 seg2 : list Event) :
  follows f f1 seg1 -> follows f1 f2 seg2 -> follows f f2 (seg1 ++ seg2).
Proof.
  intros (He & Ha & Hl & Hp & Ht) (He' & Ha' & Hl' & Hp' & Ht').
  unfold follows. rewrite He', Ha', Hl', Hp', Ht', Ht, app_assoc. auto.
Qed.

Ltac follows_by_computation :=
  unfold follows; simpl; rewrite ?actions_app; simpl; rewrite ?app_nil_r; auto.

Lemma changeLine_follows (text : ProgressText) (f : Frame Data) :
  exists f',
    changeLine text f = (Normal tt, f')
    /\ follows f f' [] /\ data (world f') = data (world f).
Proof.
  unfold changeLine, bind, gets, emit, modify, ret.
  destruct (progress f) eqn:Hp; eexists; (split; [reflexivity|]); split; auto;
    follows_by_computation.
Qed.

Lemma log_follows (entry : LogEntry) (f : Frame Data) :
  exists f',
    log entry f = (Normal tt, f')
    /\ follows f f' [] /\ data (world f') = data (world f).
Proof.
  unfold log, emit, modify. eexists. split; [reflexivity|]. split; auto.
  follows_by_computation.
Qed.

Lemma call_follows (ev : Event) (a : Data -> option Exn * Data) (f : Frame Data)
    (d' : Data) :
  isAction ev = true ->
  a (data (world f)) = (None, d') ->
  exists f',
    call ev a f = (Normal tt, f')
    /\ follows f f' [ev] /\ data (world f') = d'.
Proof.
  intros Hev Ha. unfold call, bind, emit, modify. simpl. rewrite Ha.
  eexists. split; [reflexivity|]. split; [|reflexivity].
  unfold follows. simpl. rewrite actions_app. unfold actions at 2. simpl.
  rewrite Hev. auto.
Qed.

(** One round of the comparison loop whose reads succeed. *)
Lemma compareStep_reads (total : Z) (l : Locals) (item : Item.t)
    (f : Frame Data) (syncStatus : SyncStatus) (compareResult : SyncCode) :
  getSyncStatus (data (world f)) (Item.id item) = inr syncStatus ->
  doCompare (data (world f)) item = inr compareResult ->
  exists f',
    compareStep total l item f
    = (Normal (sortItem l item syncStatus compareResult), f')
    /\ follows f f' [EvDoCompare (Item.id item)]
    /\ data (world f') = data (world f).
Proof.
  intros Hst Hcode.
  unfold compareStep, changeLine, bind, read, emit, modify, gets, ret.
  rewrite Hst. simpl. rewrite Hcode. unfold sortItem.
  destruct compareResult; simpl; destruct (progress f) eqn:Hp;
    eexists; (split; [reflexivity|]); split; auto; follows_by_computation.
Qed.

Lemma compareLoop_reads (total : Z) (items : list Item.t) :
  forall (l0 l : Locals) (f : Frame Data),
    comparePassFrom (data (world f)) l0 items = inr l ->
    exists f',
      forOfWith items (compareStep total) l0 f = (Normal l, f')
      /\ follows f f' (List.map EvDoCompare (List.map Item.id items))
      /\ data (world f') = data (world f).
Proof.
  induction items as [|item items IH]; intros l0 l f Hpass; simpl in Hpass.
  - injection Hpass as <-. exists f. simpl. auto using follows_refl.
  - destruct (getSyncStatus (data (world f)) (Item.id item)) as [e|st] eqn:Hst;
      [discriminate|].
    simpl in Hpass.
    destruct (doCompare (data (world f)) item) as [e|c] eqn:Hcode; [discriminate|].
    simpl in Hpass.
    destruct (compareStep_reads total l0 item f st c Hst Hcode)
      as (f1 & Hstep & Hfol & Hdata).
    rewrite <- Hdata in Hpass.
    destruct (IH _ l f1 Hpass) as (f' & Hloop & Hfol' & Hdata').
    exists f'. simpl. unfold bind. rewrite Hstep. split; [exact Hloop|].
    split; [|congruence].
    apply (follows_trans f f1 f' [EvDoCompare (Item.id item)] _ Hfol Hfol').
Qed.

(** The comparison loop when a read throws: the loop throws the same
    exception, having made comparisons only. *)
Lemma compareLoop_throws (total : Z) (items : list Item.t) :
  forall (l0 : Locals) (f : Frame Data) (e : Exn),
    comparePassFrom (data (world f)) l0 items = inl e ->
    exists f' seg,
      forOfWith items (compareStep total) l0 f = (Throw e, f')
      /\ follows f f' seg
      /\ Forall (fun ev => isDoCompare ev = true) seg
      /\ data (world f') = data (world f).
Proof.
  induction items as [|item items IH]; intros l0 f e Hpass; simpl in Hpass;
    [discriminate|].
  destruct (getSyncStatus (data (world f)) (Item.id item)) as [e1|st] eqn:Hst.
  - injection Hpass as ->. exists f, []. simpl.
    unfold bind, compareStep, bind, read. rewrite Hst.
    split; [reflexivity|]. split; [apply follows_refl|].
    split; [constructor|reflexivity].
  - simpl in Hpass.
    destruct (doCompare (data (world f)) item) as [e1|c] eqn:Hcode.
    + injection Hpass as ->.
      eexists _, [EvDoCompare (Item.id item)]. simpl.
      unfold bind, compareStep, bind, read, emit, modify. rewrite Hst. simpl.
      rewrite Hcode. split; [reflexivity|]. split; [follows_by_computation|].
      split; [repeat constructor|reflexivity].
    + simpl in Hpass.
      destruct (compareStep_reads total l0 item f st c Hst Hcode)
        as (f1 & Hstep & Hfol & Hdata).
      rewrite <- Hdata in Hpass.
      destruct (IH _ f1 e Hpass) as (f' & seg & Hloop & Hfol' & Hseg & Hdata').
      exists f', (EvDoCompare (Item.id item) :: seg). simpl. unfold bind.
      rewrite Hstep. split; [exact Hloop|].
      split; [apply (follows_trans f f1 f' [_] seg Hfol Hfol')|].
      split; [constructor; [reflexivity|exact Hseg]|congruence].
Qed.

(** The beginning of the [try] block when items are left: the lock is
    taken, the start is logged, the progress window is opened unless the
    run is quiet, and the passes begin. *)
Lemma tryBlock_passes (quiet' skip : bool) (reason' : string)
    (items items1 items2 : list Item.t) (skippedCount : Z) (w : World Data) :
  resolveItems (data w) items = inr items1 ->
  items1 <> [] ->
  skipActiveItems (data w) skip items1 = inr (skippedCount, items2) ->
  exists f2,
    tryBlock quiet' skip reason' items (mkFrame w false)
    = syncPasses skippedCount items2 f2
    /\ env (world f2) = env w
    /\ alive (world f2) = alive w
    /\ lock (world f2) = true
    /\ data (world f2) = data w
    /\ progress f2 = negb quiet'
    /\ actions (trace (world f2)) = actions (trace w)
    /\ trace (world f2) =
         trace w
         ++ [EvLog (LogSyncStart reason' (List.map Item.id items2) skippedCount)]
         ++ (if quiet' then []
             else [EvProgressWindow
                     (if String.eqb (env w) "development" then reason'
                      else "Better Notes")
                     (TxtCheck 0 (len items2))]).
Proof.
  intros Hres Hne Hskip.
  unfold tryBlock, bind, setLock, modify, read. cbn [world data onWorld setLockW].
  rewrite Hres.
  destruct items1 as [|item items1]; [congruence|].
  rewrite len_cons_nonzero.
  unfold syncItems, bind, read. cbn [world data onWorld setLockW]. rewrite Hskip.
  unfold openProgress, log, emit, modify, bind, gets, ret.
  destruct quiet'; simpl; eexists; (split; [reflexivity|]); simpl;
    rewrite ?actions_app; simpl; rewrite ?app_nil_r, <- ?app_assoc;
    repeat split; reflexivity.
Qed.

(** What follows the [try] block: an exception is logged, the close
    timer of an open progress window is started, and the lock is given
    back (it was, before a [return]). *)
Lemma callSyncing_epilogue (items : option (list Item.t))
    (options : option SyncOptions) (w : World Data)
    (c1 : Completion unit) (f1 : Frame Data) :
  lock w = false ->
  tryBlock
    (if String.eqb (env w) "development" then false
     else quiet (default defaultOptions options))
    (skipActive (default defaultOptions options))
    (reason (default defaultOptions options)) (default [] items)
    (mkFrame w false) = (c1, f1) ->
  callSyncing items options w =
    (None,
     mkWorld (env (world f1)) (alive (world f1))
       (match c1 with Return => lock (world f1) | _ => false end)
       (data (world f1))
       (trace (world f1)
        ++ (match c1 with Throw e => [EvLog (LogError e)] | _ => [] end)
        ++ (if progress f1 then [EvStartCloseTimer 5000] else []))).
Proof.
  intros Hlock Hbody.
  unfold callSyncing, callSyncing_body.
  unfold bind at 1. unfold gets at 1. cbn [world env].
  unfold bind at 1. unfold gets at 1. cbn [world lock]. rewrite Hlock.
  unfold bind at 1. unfold tryCatchFinally. rewrite Hbody.
  destruct f1 as [[e1 a1 l1 d1 t1] p1].
  destruct c1 as [[]| |e]; destruct p1; simpl;
    rewrite <- ?app_assoc, ?app_nil_r; reflexivity.
Qed.

Section Dispatch.

(** A property of the state of the collaborators that the dispatch calls
    keep, and under which they succeed. *)
Variable Inv : Data -> Prop.

Lemma exportLoop_succeeds (te : list (string * list Z)) (total : Z)
    (keys : list string) :
  (forall d filepath ids, Inv d -> In filepath keys ->
     exists d', syncMDBatch d filepath ids = (None, d') /\ Inv d') ->
  forall (i0 : Z) (f : Frame Data),
    Inv (data (world f)) ->
    exists i1 f',
      forOfWith keys (exportStep te total) i0 f = (Normal i1, f')
      /\ follows f f'
           (List.map (fun filepath =>
                        EvSyncMDBatch filepath (toExport_get te filepath)) keys)
      /\ Inv (data (world f')).
Proof.
  induction keys as [|filepath keys IH]; intros Hok i0 f Hinv.
  - exists i0, f. simpl. auto using follows_refl.
  - destruct (changeLine_follows (TxtUpdateMD i0 total) f)
      as (f1 & Hline & Hfol1 & Hdata1).
    destruct (Hok (data (world f1)) filepath (toExport_get te filepath))
      as (d' & Hcall & Hinv'); [rewrite Hdata1; exact Hinv|left; reflexivity|].
    destruct (call_follows (EvSyncMDBatch filepath (toExport_get te filepath))
                (fun d => syncMDBatch d filepath (toExport_get te filepath))
                f1 d' eq_refl Hcall) as (f2 & Hstep & Hfol2 & Hdata2).
    destruct (IH (fun d p ids Hd Hp => Hok d p ids Hd (or_intror Hp)) (i0 + 1) f2)
      as (i1 & f' & Hloop & Hfol' & Hinv''); [rewrite Hdata2; exact Hinv'|].
    exists i1, f'. simpl. unfold bind at 1. unfold exportStep, bind.
    rewrite Hline, Hstep. unfold ret. split; [exact Hloop|]. split; [|exact Hinv''].
    apply (follows_trans f f2 f' [_] _); [|exact Hfol'].
    apply (follows_trans f f1 f2 [] [_] Hfol1 Hfol2).
Qed.

Lemma importLoop_succeeds (totalCount queuing : Z) (records : list SyncStatus) :
  (forall d syncStatus, Inv d -> In syncStatus records ->
     exists item d1 d2,
       Items_get d (itemID syncStatus) = inr item
       /\ Item.id item = itemID syncStatus
       /\ fromMD d (OS_Path_join (path syncStatus) (filename syncStatus))
            (itemID syncStatus) = (None, d1)
       /\ Inv d1
       /\ syncMDBatch d1 (path syncStatus) [itemID syncStatus] = (None, d2)
       /\ Inv d2) ->
  forall (i0 : Z) (f : Frame Data),
    Inv (data (world f)) ->
    exists i1 f',
      forOfWith records (importStep totalCount queuing) i0 f = (Normal i1, f')
      /\ follows f f' (importCalls records)
      /\ Inv (data (world f')).
Proof.
  induction records as [|syncStatus records IH]; intros Hok i0 f Hinv.
  - exists i0, f. simpl. auto using follows_refl.
  - destruct (changeLine_follows (TxtUpdateNote i0 totalCount queuing) f)
      as (f1 & Hline & Hfol1 & Hdata1).
    destruct (Hok (data (world f1)) syncStatus)
      as (item & d1 & d2 & Hget & Hid & Hfrom & Hinv1 & Hbatch & Hinv2);
      [rewrite Hdata1; exact Hinv|left; reflexivity|].
    destruct (call_follows
                (EvFromMD (OS_Path_join (path syncStatus) (filename syncStatus))
                   (itemID syncStatus))
                (fun d => fromMD d
                            (OS_Path_join (path syncStatus) (filename syncStatus))
                            (itemID syncStatus))
                f1 d1 eq_refl Hfrom) as (f2 & Hstep2 & Hfol2 & Hdata2).
    assert (Hbatch' : syncMDBatch (data (world f2)) (path syncStatus)
                        [itemID syncStatus] = (None, d2))
      by (rewrite Hdata2; exact Hbatch).
    destruct (call_follows (EvSyncMDBatch (path syncStatus) [itemID syncStatus])
                (fun d => syncMDBatch d (path syncStatus) [itemID syncStatus])
                f2 d2 eq_refl Hbatch') as (f3 & Hstep3 & Hfol3 & Hdata3).
    destruct (IH (fun d s Hd Hs => Hok d s Hd (or_intror Hs)) (i0 + 1) f3)
      as (i1 & f' & Hloop & Hfol' & Hinv'); [rewrite Hdata3; exact Hinv2|].
    exists i1, f'. simpl forOfWith. unfold bind at 1. unfold importStep, bind.
    rewrite Hline. unfold read at 1. rewrite Hget, Hid, Hstep2, Hstep3.
    unfold ret. split; [exact Hloop|]. split; [|exact Hinv'].
    unfold importCalls. simpl List.flat_map.
    apply (follows_trans f f3 f' [_; _] _); [|exact Hfol'].
    apply (follows_trans f f2 f3 [_] [_]); [|exact Hfol3].
    apply (follows_trans f f1 f2 [] [_] Hfol1 Hfol2).
Qed.

Lemma diffLoop_succeeds (totalCount : Z) (records : list SyncStatus) :
  (forall d syncStatus, Inv d -> In syncStatus records ->
     exists d',
       onShowSyncDiff d (itemID syncStatus)
         (OS_Path_join (path syncStatus) (filename syncStatus)) = (None, d')
       /\ Inv d') ->
  forall (i0 : Z) (f : Frame Data),
    Inv (data (world f)) ->
    exists i1 f',
      forOfWith records (diffStep totalCount) i0 f = (Normal i1, f')
      /\ follows f f' (diffCalls records)
      /\ Inv (data (world f')).
Proof.
  induction records as [|syncStatus records IH]; intros Hok i0 f Hinv.
  - exists i0, f. simpl. auto using follows_refl.
  - destruct (changeLine_follows (TxtDiff i0 totalCount) f)
      as (f1 & Hline & Hfol1 & Hdata1).
    destruct (Hok (data (world f1)) syncStatus) as (d' & Hcall & Hinv');
      [rewrite Hdata1; exact Hinv|left; reflexivity|].
    destruct (call_follows
                (EvShowSyncDiff (itemID syncStatus)
                   (OS_Path_join (path syncStatus) (filename syncStatus)))
                (fun d => onShowSyncDiff d (itemID syncStatus)
                            (OS_Path_join (path syncStatus) (filename syncStatus)))
                f1 d' eq_refl Hcall) as (f2 & Hstep & Hfol2 & Hdata2).
    destruct (IH (fun d s Hd Hs => Hok d s Hd (or_intror Hs)) (i0 + 1) f2)
      as (i1 & f' & Hloop & Hfol' & Hinv''); [rewrite Hdata2; exact Hinv'|].
    exists i1, f'. simpl forOfWith. unfold bind at 1. unfold diffStep, bind.
    rewrite Hline, Hstep. unfold ret. split; [exact Hloop|]. split; [|exact Hinv''].
    unfold diffCalls. simpl List.map.
    apply (follows_trans f f2 f' [_] _); [|exact Hfol'].
    apply (follows_trans f f1 f2 [] [_] Hfol1 Hfol2).
Qed.

(** The four passes when every call succeeds. *)
Lemma syncPasses_succeed (skippedCount : Z) (items : list Item.t) (l : Locals)
    (f : Frame Data) :
  comparePass (data (world f)) items = inr l ->
  Inv (data (world f)) ->
  (forall d filepath ids, Inv d -> In filepath (Object_keys (toExport l)) ->
     exists d', syncMDBatch d filepath ids = (None, d') /\ Inv d') ->
  (forall d syncStatus, Inv d -> In syncStatus (toImport l) ->
     exists item d1 d2,
       Items_get d (itemID syncStatus) = inr item
       /\ Item.id item = itemID syncStatus
       /\ fromMD d (OS_Path_join (path syncStatus) (filename syncStatus))
            (itemID syncStatus) = (None, d1)
       /\ Inv d1
       /\ syncMDBatch d1 (path syncStatus) [itemID syncStatus] = (None, d2)
       /\ Inv d2) ->
  (forall d syncStatus, Inv d -> In syncStatus (toDiff l) ->
     exists d',
       onShowSyncDiff d (itemID syncStatus)
         (OS_Path_join (path syncStatus) (filename syncStatus)) = (None, d')
       /\ Inv d') ->
  exists f',
    syncPasses skippedCount items f = (Normal tt, f')
    /\ follows f f'
         (List.map EvDoCompare (List.map Item.id items)
          ++ exportCalls (toExport l) ++ importCalls (toImport l)
          ++ diffCalls (toDiff l))
    /\ Inv (data (world f')).
Proof.
  intros Hpass Hinv Hexp Himp Hdif.
  destruct (compareLoop_reads (len items) items _ l f Hpass)
    as (f1 & Hloop1 & Hfol1 & Hdata1).
  destruct (log_follows (LogWillBeSynced (toExport l) (toImport l) (toDiff l)) f1)
    as (f2 & Hlog & Hfol2 & Hdata2).
  destruct (exportLoop_succeeds (toExport l) (len items)
              (Object_keys (toExport l)) Hexp 1 f2)
    as (i3 & f3 & Hloop3 & Hfol3 & Hinv3); [congruence|].
  destruct (importLoop_succeeds (len (toImport l)) (len (toDiff l))
              (toImport l) Himp 1 f3 Hinv3)
    as (i4 & f4 & Hloop4 & Hfol4 & Hinv4).
  destruct (diffLoop_succeeds (len (toDiff l)) (toDiff l) Hdif 1 f4 Hinv4)
    as (i5 & f5 & Hloop5 & Hfol5 & Hinv5).
  destruct (changeLine_follows
              (TxtFinish (len (Object_keys (toExport l)) + len (toImport l)
                          + len (toDiff l)) skippedCount) f5)
    as (f6 & Hline & Hfol6 & Hdata6).
  exists f6. unfold syncPasses, bind.
  rewrite Hloop1, Hlog, Hloop3, Hloop4, Hloop5, Hline.
  split; [reflexivity|]. split; [|rewrite Hdata6; exact Hinv5].
  pose proof (follows_trans _ _ _ _ _ Hfol1 Hfol2) as H12.
  pose proof (follows_trans _ _ _ _ _ H12 Hfol3) as H13.
  pose proof (follows_trans _ _ _ _ _ H13 Hfol4) as H14.
  pose proof (follows_trans _ _ _ _ _ H14 Hfol5) as H15.
  pose proof (follows_trans _ _ _ _ _ H15 Hfol6) as H16.
  rewrite !app_nil_r, <- !app_assoc in H16. exact H16.
Qed.

End Dispatch.

(** The passes when the comparison pass throws. *)
Lemma syncPasses_comparison_throws (skippedCount : Z) (items : list Item.t)
    (e : Exn) (f : Frame Data) :
  comparePass (data (world f)) items = inl e ->
  exists f' seg,
    syncPasses skippedCount items f = (Throw e, f')
    /\ follows f f' seg
    /\ Forall (fun ev => isDoCompare ev = true) seg
    /\ data (world f') = data (world f).
Proof.
  intros Hpass.
  destruct (compareLoop_throws (len items) items _ f e Hpass)
    as (f' & seg & Hloop & Hfol & Hseg & Hdata).
  exists f', seg. unfold syncPasses, bind. rewrite Hloop. auto.
Qed.

End RunFacts.

Section RunTheorems.

Context {Data : Type} `{Host Data}.


(** X6. A run in which the comparison pass throws: no export, import or
    conflict call is made, whatever the earlier items were answered; the
    state of the collaborators is as it was; the exception is logged and
    the run returns with the lock free. *)
Theorem callSyncing_comparison_failure (items : option (list Item.t))
    (options : option SyncOptions) (w : World Data)
    (items1 items2 : list Item.t) (skippedCount : Z) (e : Exn) :
  lock w = false ->
  resolveItems (data w) (default [] items) = inr items1 ->
  items1 <> [] ->
  skipActiveItems (data w) (skipActive (default defaultOptions options)) items1
  = inr (skippedCount, items2) ->
  comparePass (data w) items2 = inl e ->
  fst (callSyncing items options w) = None
  /\ lock (snd (callSyncing items options w)) = false
  /\ data (snd (callSyncing items options w)) = data w
  /\ In (EvLog (LogError e)) (trace (snd (callSyncing items options w)))
  /\ exists seg,
       actions (trace (snd (callSyncing items options w))) = actions (trace w) ++ seg
       /\ Forall (fun ev => isDoCompare ev = true) seg.
Proof.
  intros Hlock Hres Hne Hskip Hpass.
  destruct (tryBlock_passes
              (if String.eqb (env w) "development" then false
               else quiet (default defaultOptions options))
              _ (reason (default defaultOptions options)) _ _ _ _ w
              Hres Hne Hskip)
    as (f2 & Hbody & _ & _ & _ & Hdata2 & _ & Hact2 & _).
  rewrite <- Hdata2 in Hpass.
  destruct (syncPasses_comparison_throws skippedCount items2 e f2 Hpass)
    as (f' & seg & Hrun & Hfol & Hseg & Hdata').
  rewrite Hrun in Hbody.
  rewrite (callSyncing_epilogue items options w _ _ Hlock Hbody). simpl.
  destruct Hfol as (_ & _ & _ & _ & Hact).
  split; [reflexivity|]. split; [reflexivity|]. split; [congruence|].
  split.
  - apply in_or_app. right. left. reflexivity.
  - exists seg. rewrite actions_app, Hact, Hact2.
    assert (Hquiet : actions (EvLog (LogError e)
                              :: (if progress f' then [EvStartCloseTimer 5000]
                                  else [])) = [])
      by (destruct (progress f'); reflexivity).
    rewrite Hquiet, app_nil_r. auto.
Qed.

Lemma comparePassFrom_up_to_date (d : Data) (items : list Item.t) :
  (forall item, In item items ->
     exists syncStatus,
       getSyncStatus d (Item.id item) = inr syncStatus
       /\ doCompare d item = inr UpToDate) ->
  forall l0,
    comparePassFrom d l0 items =
      inr (mkLocals (toExport l0) (toImport l0) (toDiff l0) (i l0 + len items)).
Proof.
  induction items as [|item items IH]; intros Hreads l0; simpl.
  - unfold len. simpl. rewrite Z.add_0_r. destruct l0; reflexivity.
  - destruct (Hreads item (or_introl eq_refl)) as (st & Hst & Hcode).
    rewrite Hst. simpl. rewrite Hcode. simpl.
    rewrite IH by (intros it Hit; apply Hreads; right; exact Hit).
    unfold sortItem, len. simpl. f_equal. f_equal. lia.
Qed.

(** X7. A run over notes that are all up to date only compares: one
    [doCompare] per item and no other call, the state of the
    collaborators as it was, the lock free at the end. *)
Theorem callSyncing_up_to_date (items : option (list Item.t))
    (options : option SyncOptions) (w : World Data)
    (items1 items2 : list Item.t) (skippedCount : Z) :
  lock w = false ->
  resolveItems (data w) (default [] items) = inr items1 ->
  items1 <> [] ->
  skipActiveItems (data w) (skipActive (default defaultOptions options)) items1
  = inr (skippedCount, items2) ->
  (forall item, In item items2 ->
     exists syncStatus,
       getSyncStatus (data w) (Item.id item) = inr syncStatus
       /\ doCompare (data w) item = inr UpToDate) ->
  fst (callSyncing items options w) = None
  /\ lock (snd (callSyncing items options w)) = false
  /\ data (snd (callSyncing items options w)) = data w
  /\ actions (trace (snd (callSyncing items options w))) =
       actions (trace w) ++ List.map EvDoCompare (List.map Item.id items2).
Proof.
  intros Hlock Hres Hne Hskip Hreads.
  pose proof (comparePassFrom_up_to_date (data w) items2 Hreads
                (mkLocals [] [] [] 1)) as Hpass.
  destruct (tryBlock_passes
              (if String.eqb (env w) "development" then false
               else quiet (default defaultOptions options))
              _ (reason (default defaultOptions options)) _ _ _ _ w
              Hres Hne Hskip)
    as (f2 & Hbody & _ & _ & _ & Hdata2 & _ & Hact2 & _).
  rewrite <- Hdata2 in Hpass.
  destruct (syncPasses_succeed (fun d => d = data w) skippedCount items2 _ f2
              Hpass Hdata2) as (f' & Hrun & Hfol & Hinv');
    try (simpl; intros; contradiction).
  rewrite Hrun in Hbody.
  rewrite (callSyncing_epilogue items options w _ _ Hlock Hbody). simpl.
  destruct Hfol as (_ & _ & _ & _ & Hact). simpl in Hact.
  unfold exportCalls, importCalls, diffCalls in Hact. simpl in Hact.
  rewrite !app_nil_r in Hact.
  rewrite !actions_app, Hact, Hact2.
  destruct (progress f'); simpl; rewrite !app_nil_r; auto.
Qed.

(** X8. When the selection of the items throws (the list of sync notes
    cannot be read, or [isSyncNote] fails), nothing else is done: the
    exception is logged and the lock, taken before the selection, is
    given back. *)
Theorem callSyncing_resolution_failure (items : option (list Item.t))
    (options : option SyncOptions) (w : World Data) (e : Exn) :
  lock w = false ->
  resolveItems (data w) (default [] items) = inl e ->
  callSyncing items options w =
    (None,
     mkWorld (env w) (alive w) false (data w) (trace w ++ [EvLog (LogError e)])).
Proof.
  intros Hlock Hres.
  assert (Hbody : tryBlock
                    (if String.eqb (env w) "development" then false
                     else quiet (default defaultOptions options))
                    (skipActive (default defaultOptions options))
                    (reason (default defaultOptions options)) (default [] items)
                    (mkFrame w false)
                  = (Throw e, mkFrame (setLockW true w) false)).
  { unfold tryBlock, bind, setLock, modify, read.
    cbn [world data onWorld setLockW]. rewrite Hres. reflexivity. }
  rewrite (callSyncing_epilogue items options w _ _ Hlock Hbody). simpl.
  reflexivity.
Qed.

End RunTheorems.

(** ** The progress window *)

Section ProgressGhost.

Context {Data : Type} `{Host Data}.

Variable G : list Event -> bool -> Prop.
Variable t0 : list Event.

(** [G] stays under every event that is no call on the progress window,
    and under a new line while the window is open. *)
Hypothesis G_plain :
  forall seg p ev, isProgress ev = false -> G seg p -> G (seg ++ [ev]) p.
Hypothesis G_line :
  forall seg text, G seg true -> G (seg ++ [EvChangeLine text]) true.

Lemma keeps_ret {A : Type} (a : A) : keeps (Data := Data) G t0 (ret a).
Proof. apply triple_ret. auto. Qed.

Lemma keeps_bind {A B : Type} (m : M (Frame Data) A) (k : A -> M (Frame Data) B) :
  keeps G t0 m -> (forall a, keeps G t0 (k a)) -> keeps G t0 (bind m k).
Proof. intros Hm Hk. eapply triple_bind; [exact Hm|exact Hk]. Qed.

Lemma keeps_read {A : Type} (q : Data -> Exn + A) : keeps G t0 (read q).
Proof. intros f Hf. unfold read. destruct (q (data (world f))); exact Hf. Qed.

Lemma keeps_emit (ev : Event) :
  isProgress ev = false -> keeps (Data := Data) G t0 (emit ev).
Proof.
  intros Hev f (seg & Ht & HG). unfold emit, modify. simpl.
  exists (seg ++ [ev]). simpl. rewrite Ht, app_assoc. auto.
Qed.

Lemma keeps_call (ev : Event) (a : Data -> option Exn * Data) :
  isProgress ev = false -> keeps G t0 (call ev a).
Proof.
  intros Hev f (seg & Ht & HG). unfold call, bind, emit, modify. simpl.
  destruct (a (data (world f))) as [[e|] d']; simpl;
    exists (seg ++ [ev]); simpl; rewrite Ht, app_assoc; auto.
Qed.

Lemma keeps_changeLine (text : ProgressText) :
  keeps (Data := Data) G t0 (changeLine text).
Proof.
  intros f (seg & Ht & HG). unfold changeLine, bind, gets, emit, modify, ret.
  destruct (progress f) eqn:Hp; simpl.
  - exists (seg ++ [EvChangeLine text]). simpl. rewrite Ht, app_assoc, Hp. auto.
  - exists seg. rewrite Hp. auto.
Qed.

Lemma keeps_setLock (b : bool) : keeps (Data := Data) G t0 (setLock b).
Proof. intros f Hf. exact Hf. Qed.

Lemma keeps_forOfWith {A L : Type} (xs : list A)
    (body : L -> A -> M (Frame Data) L) (l : L) :
  (forall l x, keeps G t0 (body l x)) -> keeps G t0 (forOfWith xs body l).
Proof. intros Hbody. apply triple_forOfWith. exact Hbody. Qed.

Lemma keeps_syncPasses (skippedCount : Z) (items : list Item.t) :
  keeps G t0 (syncPasses skippedCount items).
Proof.
  unfold syncPasses.
  apply keeps_bind.
  { apply keeps_forOfWith. intros l item. unfold compareStep.
    apply keeps_bind; [apply keeps_read|]. intros st.
    apply keeps_bind; [apply keeps_emit; reflexivity|]. intros _.
    apply keeps_bind; [apply keeps_read|]. intros c.
    apply keeps_bind; [apply keeps_changeLine|]. intros _. apply keeps_ret. }
  intros l.
  apply keeps_bind; [apply keeps_emit; reflexivity|]. intros _.
  apply keeps_bind.
  { apply keeps_forOfWith. intros i0 filepath. unfold exportStep.
    apply keeps_bind; [apply keeps_changeLine|]. intros _.
    apply keeps_bind; [apply keeps_call; reflexivity|]. intros _.
    apply keeps_ret. }
  intros _.
  apply keeps_bind.
  { apply keeps_forOfWith. intros i0 st. unfold importStep.
    apply keeps_bind; [apply keeps_changeLine|]. intros _.
    apply keeps_bind; [apply keeps_read|]. intros item.
    apply keeps_bind; [apply keeps_call; reflexivity|]. intros _.
    apply keeps_bind; [apply keeps_call; reflexivity|]. intros _.
    apply keeps_ret. }
  intros _.
  apply keeps_bind.
  { apply keeps_forOfWith. intros i0 st. unfold diffStep.
    apply keeps_bind; [apply keeps_changeLine|]. intros _.
    apply keeps_bind; [apply keeps_call; reflexivity|]. intros _.
    apply keeps_ret. }
  intros _. apply keeps_changeLine.
Qed.

(** The [try] block keeps [G], provided a run that is not quiet may open
    the window. *)
Lemma keeps_tryBlock (quiet' skip : bool) (reason' : string)
    (items : list Item.t) :
  (quiet' = false ->
   forall seg p title line, G seg p -> G (seg ++ [EvProgressWindow title line]) true) ->
  keeps G t0 (tryBlock quiet' skip reason' items).
Proof.
  intros Hopen. unfold tryBlock.
  apply keeps_bind; [apply keeps_setLock|]. intros _.
  apply keeps_bind; [apply keeps_read|]. intros items1.
  destruct (len items1 =? 0)%Z.
  { apply keeps_bind; [apply keeps_setLock|]. intros _ f Hf. exact Hf. }
  unfold syncItems.
  apply keeps_bind; [apply keeps_read|]. intros [skippedCount items2].
  apply keeps_bind; [apply keeps_emit; reflexivity|]. intros _.
  apply keeps_bind; [|intros _; apply keeps_syncPasses].
  destruct quiet'; simpl; [apply keeps_ret|].
  unfold openProgress.
  apply keeps_bind; [apply triple_gets; auto|]. intros env'.
  intros f (seg & Ht & HG). unfold bind, emit, modify. simpl.
  eexists. simpl. rewrite Ht, <- app_assoc. split; [reflexivity|].
  apply (Hopen eq_refl _ (progress f)). exact HG.
Qed.

End ProgressGhost.

Section ProgressTheorems.

Context {Data : Type} `{Host Data}.

(** X9. Outside the development environment a quiet run never touches
    the progress window: among the events it adds there is no window, no
    progress line and no close timer, however the run ends. *)
Theorem callSyncing_quiet_run (items : option (list Item.t))
    (options : option SyncOptions) (w : World Data) :
  env w <> "development" ->
  quiet (default defaultOptions options) = true ->
  exists seg,
    trace (snd (callSyncing items options w)) = trace w ++ seg
    /\ Forall (fun ev => isProgress ev = false) seg.
Proof.
  intros Henv Hquiet.
  destruct (lock w) eqn:Hlock.
  { rewrite (callSyncing_while_locked items options w Hlock).
    exists []. rewrite app_nil_r. auto. }
  assert (Hq : (if String.eqb (env w) "development" then false
                else quiet (default defaultOptions options)) = true).
  { destruct (String.eqb_spec (env w) "development"); [contradiction|exact Hquiet]. }
  pose proof (keeps_tryBlock
                (fun seg p => p = false /\ Forall (fun ev => isProgress ev = false) seg)
                (trace w)) as Hkeeps.
  specialize (Hkeeps
    ltac:(intros seg p ev Hev [Hp Hseg]; split; [exact Hp|];
          apply Forall_app; split; [exact Hseg|repeat constructor; exact Hev])
    ltac:(intros seg text [Hp _]; discriminate)
    true (skipActive (default defaultOptions options))
    (reason (default defaultOptions options)) (default [] items)
    ltac:(discriminate) (mkFrame w false)).
  rewrite <- Hq in Hkeeps at 1.
  destruct (tryBlock _ _ _ _ (mkFrame w false)) as [c1 f1] eqn:Hbody.
  rewrite (callSyncing_epilogue items options w c1 f1 Hlock Hbody). simpl.
  assert (Hghost : exists seg, trace (world f1) = trace w ++ seg
                     /\ progress f1 = false
                     /\ Forall (fun ev => isProgress ev = false) seg).
  { assert (Hstart : ghost
                       (fun seg p => p = false
                                     /\ Forall (fun ev => isProgress ev = false) seg)
                       (trace w) (mkFrame w false)).
    { exists []. simpl. rewrite app_nil_r. auto. }
    specialize (Hkeeps Hstart).
    destruct c1 as [[]| |e]; destruct Hkeeps as (seg & Ht & Hp & Hseg);
      exists seg; auto. }
  destruct Hghost as (seg & Ht & Hp & Hseg). rewrite Ht, Hp.
  exists (seg ++ match c1 with Throw e => [EvLog (LogError e)] | _ => [] end).
  split.
  - destruct c1 as [[]| |e]; simpl; rewrite <- ?app_assoc, ?app_nil_r; reflexivity.
  - apply Forall_app. split; [exact Hseg|].
    destruct c1 as [[]| |e]; repeat constructor.
Qed.

(** X10. A progress window that a run opens is never left open: when a
    window is among the events the run adds, the last of them is the
    start of its close timer, also when the run ends on an exception. *)
Theorem callSyncing_closes_progress (items : option (list Item.t))
    (options : option SyncOptions) (w : World Data) :
  exists seg,
    trace (snd (callSyncing items options w)) = trace w ++ seg
    /\ (existsb isProgressWindow seg = false
        \/ exists pre, seg = pre ++ [EvStartCloseTimer 5000]).
Proof.
  destruct (lock w) eqn:Hlock.
  { rewrite (callSyncing_while_locked items options w Hlock).
    exists []. rewrite app_nil_r. auto. }
  pose proof (keeps_tryBlock
                (fun seg p => existsb isProgressWindow seg = p) (trace w)) as Hkeeps.
  specialize (Hkeeps
    ltac:(intros seg p ev Hev Hseg; cbv beta in *; rewrite existsb_app, Hseg;
          destruct ev; try discriminate Hev; simpl; rewrite !orb_false_r;
          reflexivity)
    ltac:(intros seg text Hseg; cbv beta in *; rewrite existsb_app, Hseg;
          reflexivity)
    (if String.eqb (env w) "development" then false
     else quiet (default defaultOptions options))
    (skipActive (default defaultOptions options))
    (reason (default defaultOptions options)) (default [] items)
    ltac:(intros _ seg p title line Hseg; cbv beta; rewrite existsb_app; simpl;
          apply orb_true_r)
    (mkFrame w false)
    ltac:(exists []; simpl; rewrite app_nil_r; auto)).
  cbv beta in Hkeeps.
  destruct (tryBlock _ _ _ _ (mkFrame w false)) as [c1 f1] eqn:Hbody.
  rewrite (callSyncing_epilogue items options w c1 f1 Hlock Hbody). simpl.
  assert (Hghost : exists seg, trace (world f1) = trace w ++ seg
                     /\ existsb isProgressWindow seg = progress f1).
  { destruct c1 as [[]| |e]; exact Hkeeps. }
  destruct Hghost as (seg & Ht & Hseg). rewrite Ht.
  destruct (progress f1).
  - exists (seg ++ match c1 with Throw e => [EvLog (LogError e)] | _ => [] end
            ++ [EvStartCloseTimer 5000]).
    split; [rewrite <- app_assoc; reflexivity|]. right.
    exists (seg ++ match c1 with Throw e => [EvLog (LogError e)] | _ => [] end).
    rewrite <- app_assoc. reflexivity.
  - exists (seg ++ match c1 with Throw e => [EvLog (LogError e)] | _ => [] end).
    split; [rewrite <- app_assoc, app_nil_r; reflexivity|]. left.
    rewrite existsb_app, Hseg. destruct c1 as [[]| |e]; reflexivity.
Qed.

End ProgressTheorems.

(** ** The scheduler, further *)

Section SchedulerMore.

Context {Data : Type} `{Host Data}.

(** X11. While the addon is alive a tick changes nothing at all when a
    run is in flight, or the window has no focus, or the period has been
    set to zero or less since the timer was started; the interval stays
    registered, so later ticks sync again once the condition is gone. *)
Theorem tick_without_effect (timer : nat) (s : Scheduler) :
  alive (addon s) = true ->
  lock (addon s) = true
  \/ document_hasFocus s = false
  \/ (syncPeriodSeconds s <= 0)%Z ->
  tick timer s = s.
Proof.
  intros Halive Hwhy. unfold tick, onInterval. rewrite Halive. simpl.
  destruct (existsb (Nat.eqb timer) (timers s)); [|reflexivity].
  destruct Hwhy as [Hlock|[Hfocus|Hperiod]].
  - destruct (document_hasFocus s && (syncPeriodSeconds s >? 0)%Z); [|reflexivity].
    rewrite (callSyncing_while_locked None (Some autoOptions) (addon s) Hlock).
    destruct s; reflexivity.
  - rewrite Hfocus. reflexivity.
  - assert (Hoff : (syncPeriodSeconds s >? 0)%Z = false).
    { destruct (Z.gtb_spec (syncPeriodSeconds s) 0); [lia|reflexivity]. }
    rewrite Hoff, andb_false_r. reflexivity.
Qed.

(** X12. After shutdown one tick of a timer is its last: the interval is
    no longer registered after it, and a further tick of that timer
    leaves everything as it is. *)
Theorem tick_shutdown_terminal (timer : nat) (s : Scheduler) :
  alive (addon s) = false ->
  existsb (Nat.eqb timer) (timers (tick timer s)) = false
  /\ tick timer (tick timer s) = tick timer s.
Proof.
  intros Halive.
  assert (Hgone : existsb (Nat.eqb timer) (timers (tick timer s)) = false).
  { unfold tick. destruct (existsb (Nat.eqb timer) (timers s)) eqn:Hreg;
      [|exact Hreg].
    apply onInterval_torn_down_clears. exact Halive. }
  split; [exact Hgone|]. apply tick_cleared. exact Hgone.
Qed.

End SchedulerMore.

(** * Further properties of the export module *)

Section ExportMore.

Variable getMDFileName : gmap Z SyncStatus -> Z -> string -> Exn + string.
Variable Internal_md5 : string -> string.
Variable Items_getAll : list Z -> list Item.t.

(** X13. Enrolment happens once: after a [toSync] that went through,
    with or without overwrite, the note is under sync, and [toSync]
    without overwrite on that note, towards whatever directory, returns
    without touching the store. *)
Theorem toSync_then_noop (noteItem noteItem' : Item.t) (syncDir syncDir' : string)
    (overwrite : bool) (store : gmap Z SyncStatus) :
  fst (ExportApi.toSync getMDFileName Internal_md5 noteItem syncDir overwrite store)
  = Normal tt ->
  Item.id noteItem' = Item.id noteItem ->
  ExportApi.isSyncNote
    (snd (ExportApi.toSync getMDFileName Internal_md5 noteItem syncDir overwrite
            store))
    (Item.id noteItem) = true
  /\ ExportApi.toSync getMDFileName Internal_md5 noteItem' syncDir' false
       (snd (ExportApi.toSync getMDFileName Internal_md5 noteItem syncDir
               overwrite store))
     = (Return,
        snd (ExportApi.toSync getMDFileName Internal_md5 noteItem syncDir
               overwrite store)).
Proof.
  intros Hdone Hid.
  assert (Hsynced : ExportApi.isSyncNote
                      (snd (ExportApi.toSync getMDFileName Internal_md5 noteItem
                              syncDir overwrite store))
                      (Item.id noteItem) = true).
  { revert Hdone. unfold ExportApi.toSync, bind, gets, modify.
    destruct (negb overwrite && ExportApi.isSyncNote store (Item.id noteItem));
      [discriminate|].
    destruct (getMDFileName store (Item.id noteItem) syncDir) as [e|name];
      [discriminate|].
    intros _. simpl. unfold ExportApi.updateSyncStatus.
    apply (isSyncNote_Some _ _ (ExportApi.freshStatus Internal_md5 noteItem
                                  syncDir name)).
    apply lookup_insert_eq. }
  split; [exact Hsynced|].
  apply toSync_synced. rewrite Hid. exact Hsynced.
Qed.

(** X14. [toSync] throws exactly when it has to write (overwrite set, or
    the note not under sync) and the file name cannot be had; it hands
    on that exception and leaves the store as it is. *)
Theorem toSync_throws (noteItem : Item.t) (syncDir : string) (overwrite : bool)
    (store : gmap Z SyncStatus) (e : Exn) :
  fst (ExportApi.toSync getMDFileName Internal_md5 noteItem syncDir overwrite store)
  = Throw e <->
  (overwrite = true \/ ExportApi.isSyncNote store (Item.id noteItem) = false)
  /\ getMDFileName store (Item.id noteItem) syncDir = inl e
  /\ snd (ExportApi.toSync getMDFileName Internal_md5 noteItem syncDir overwrite
            store) = store.
Proof.
  unfold ExportApi.toSync, bind, gets, modify.
  destruct overwrite; simpl.
  - destruct (getMDFileName store (Item.id noteItem) syncDir) as [e1|name]; simpl.
    + split; [intros [= ->]; auto|]. intros (_ & [= ->] & _). reflexivity.
    + split; [discriminate|]. intros (_ & Hno & _). discriminate.
  - destruct (ExportApi.isSyncNote store (Item.id noteItem)); simpl.
    + split; [discriminate|]. intros ([Hno|Hno] & _); discriminate.
    + destruct (getMDFileName store (Item.id noteItem) syncDir) as [e1|name]; simpl.
      * split; [intros [= ->]; auto|]. intros (_ & [= ->] & _). reflexivity.
      * split; [discriminate|]. intros (_ & Hno & _). discriminate.
Qed.

Lemma toSync_keeps_synced (noteItem : Item.t) (syncDir : string)
    (overwrite : bool) (id : Z) :
  triple (fun store : gmap Z SyncStatus => ExportApi.isSyncNote store id = true)
    (ExportApi.invoke
       (ExportApi.toSync getMDFileName Internal_md5 noteItem syncDir overwrite))
    (fun _ store => ExportApi.isSyncNote store id = true)
    (fun store => ExportApi.isSyncNote store id = true)
    (fun store => ExportApi.isSyncNote store id = true).
Proof.
  intros store Hsynced.
  assert (Hkeep : ExportApi.isSyncNote
                    (snd (ExportApi.invoke
                            (ExportApi.toSync getMDFileName Internal_md5 noteItem
                               syncDir overwrite) store)) id = true).
  { rewrite snd_invoke.
    destruct (toSync_cases getMDFileName Internal_md5 noteItem syncDir overwrite
                store) as [->|(name & -> & _)]; [exact Hsynced|].
    simpl. unfold ExportApi.isSyncNote in *.
    apply bool_decide_eq_true. apply bool_decide_eq_true in Hsynced.
    destruct (decide (id = Item.id noteItem)) as [->|Hne].
    - rewrite lookup_insert_eq. eauto.
    - rewrite lookup_insert_ne by congruence. exact Hsynced. }
  destruct (ExportApi.invoke _ store) as [[[]| |e] s1]; exact Hkeep.
Qed.

Lemma toSync_keeps_fresh_or_reset (noteItem : Item.t) (syncDir : string) (id : Z)
    (store store' : gmap Z SyncStatus) :
  store !! id = None \/ ExportApi.resetAt syncDir id store ->
  ExportApi.invoke
    (ExportApi.toSync getMDFileName Internal_md5 noteItem syncDir false) store
  = (Normal tt, store') ->
  (Item.id noteItem = id -> ExportApi.resetAt syncDir id store')
  /\ (store' !! id = None \/ ExportApi.resetAt syncDir id store').
Proof.
  intros Hstate Hrun.
  pose proof (snd_invoke
                (ExportApi.toSync getMDFileName Internal_md5 noteItem syncDir false)
                store) as Hsnd.
  rewrite Hrun in Hsnd. simpl in Hsnd.
  destruct (toSync_cases getMDFileName Internal_md5 noteItem syncDir false store)
    as [Hsame|(name & Heq & Hwhy)].
  - rewrite Hsame in Hsnd. subst store'. split; [|exact Hstate].
    intros Hid. destruct Hstate as [Hnone|Hreset]; [|exact Hreset]. exfalso.
    revert Hrun. unfold ExportApi.invoke, ExportApi.toSync, bind, gets, modify.
    unfold ExportApi.isSyncNote. rewrite Hid.
    rewrite bool_decide_eq_false_2 by (rewrite Hnone; intros [? ?]; discriminate).
    simpl. revert Hsame. unfold ExportApi.toSync, bind, gets, modify.
    unfold ExportApi.isSyncNote. rewrite Hid.
    rewrite bool_decide_eq_false_2 by (rewrite Hnone; intros [? ?]; discriminate).
    simpl.
    destruct (getMDFileName store id syncDir) as [e|name]; [discriminate|].
    simpl. unfold ExportApi.updateSyncStatus. intros Hsame _.
    assert (Hl : (<[id:=ExportApi.freshStatus Internal_md5 noteItem syncDir name]>
                    store) !! id = None) by (rewrite Hsame; exact Hnone).
    rewrite lookup_insert_eq in Hl. discriminate.
  - rewrite Heq in Hsnd. simpl in Hsnd. subst store'.
    destruct (decide (Item.id noteItem = id)) as [Hid|Hne].
    + assert (Hreset : ExportApi.resetAt syncDir id
                         (<[Item.id noteItem :=
                              ExportApi.freshStatus Internal_md5 noteItem syncDir
                                name]> store)).
      { rewrite Hid. eexists. rewrite lookup_insert_eq. split; [reflexivity|].
        simpl. auto. }
      auto.
    + split; [congruence|].
      destruct Hstate as [Hnone|(r & Hr & Hrest)].
      * left. rewrite lookup_insert_ne by exact Hne. exact Hnone.
      * right. exists r. rewrite lookup_insert_ne by exact Hne. auto.
Qed.

Lemma enrol_linked_loop (syncDir : string) (id : Z) (linked : list Item.t) :
  forall store store',
    store !! id = None \/ ExportApi.resetAt syncDir id store ->
    forOf linked
      (fun noteItem =>
         ExportApi.invoke
           (ExportApi.toSync getMDFileName Internal_md5 noteItem syncDir false))
      store = (Normal tt, store') ->
    (exists noteItem, In noteItem linked /\ Item.id noteItem = id) ->
    ExportApi.resetAt syncDir id store'.
Proof.
  induction linked as [|x xs IH]; intros store store' Hstate Hrun (n & Hin & Hid);
    [contradiction|].
  simpl in Hrun. unfold bind in Hrun.
  destruct (ExportApi.invoke
              (ExportApi.toSync getMDFileName Internal_md5 x syncDir false) store)
    as [[[]| |e] s1] eqn:Hx; try discriminate.
  destruct (toSync_keeps_fresh_or_reset x syncDir id store s1 Hstate Hx)
    as [Hhit Hstate1].
  destruct (decide (Item.id x = id)) as [Hxid|Hne].
  - pose proof (triple_forOf (ExportApi.resetAt syncDir id)
                  (ExportApi.resetAt syncDir id) (ExportApi.resetAt syncDir id) xs
                  (fun n0 => ExportApi.invoke
                               (ExportApi.toSync getMDFileName Internal_md5 n0
                                  syncDir false))
                  (fun n0 _ =>
                     toSync_keeps_reset getMDFileName Internal_md5 n0 syncDir
                       false id)
                  s1 (Hhit Hxid)) as Hloop.
    rewrite Hrun in Hloop. exact Hloop.
  - apply (IH s1 store' Hstate1 Hrun). exists n. split; [|exact Hid].
    destruct Hin as [->|Hin]; [congruence|exact Hin].
Qed.

Lemma enrol_synced_loop (syncDir : string) (overwrite : bool) (notes : list Item.t) :
  forall store store',
    forOf notes
      (fun noteItem =>
         ExportApi.invoke
           (ExportApi.toSync getMDFileName Internal_md5 noteItem syncDir overwrite))
      store = (Normal tt, store') ->
    forall noteItem, In noteItem notes ->
      ExportApi.isSyncNote store' (Item.id noteItem) = true.
Proof.
  induction notes as [|x xs IH]; intros store store' Hrun n Hin; [contradiction|].
  simpl in Hrun. unfold bind in Hrun.
  destruct (ExportApi.invoke
              (ExportApi.toSync getMDFileName Internal_md5 x syncDir overwrite)
              store) as [[[]| |e] s1] eqn:Hx; try discriminate.
  destruct Hin as [->|Hin]; [|exact (IH s1 store' Hrun n Hin)].
  assert (Hsynced : ExportApi.isSyncNote s1 (Item.id n) = true).
  { revert Hx. unfold ExportApi.invoke, ExportApi.toSync, bind, gets, modify.
    destruct (negb overwrite && ExportApi.isSyncNote store (Item.id n)) eqn:Hgo.
    - intros [= <-]. apply andb_true_iff in Hgo. tauto.
    - destruct (getMDFileName store (Item.id n) syncDir) as [e|name];
        [discriminate|].
      intros [= <-]. unfold ExportApi.updateSyncStatus.
      apply (isSyncNote_Some _ _ (ExportApi.freshStatus Internal_md5 n syncDir name)).
      apply lookup_insert_eq. }
  pose proof (triple_forOf
                (fun st => ExportApi.isSyncNote st (Item.id n) = true)
                (fun st => ExportApi.isSyncNote st (Item.id n) = true)
                (fun st => ExportApi.isSyncNote st (Item.id n) = true) xs
                (fun n0 => ExportApi.invoke
                             (ExportApi.toSync getMDFileName Internal_md5 n0
                                syncDir overwrite))
                (fun n0 _ => toSync_keeps_synced n0 syncDir overwrite (Item.id n))
                s1 Hsynced) as Hloop.
  rewrite Hrun in Hloop. exact Hloop.
Qed.

(** X15. Export with sync enrols the linked notes: when the two loops run
    to their end, every linked note is under sync, and a linked note that
    was not under sync before (and is no input note) has the fresh record
    of [toSync] towards the chosen directory. *)
Theorem exportNotes_enrol_links (standaloneLink : bool)
    (inputNoteItems : list Item.t) (linkedNoteIds : list Z) (syncDir : string)
    (store store' : gmap Z SyncStatus) :
  ExportApi.exportNotes_enrol getMDFileName Internal_md5 Items_getAll
    standaloneLink inputNoteItems linkedNoteIds syncDir store
  = (Normal tt, store') ->
  forall noteItem,
    In noteItem
      (ExportApi.linkedNoteItems Items_getAll standaloneLink inputNoteItems
         linkedNoteIds) ->
    ExportApi.isSyncNote store' (Item.id noteItem) = true
    /\ (store !! Item.id noteItem = None ->
        ~ In (Item.id noteItem) (List.map Item.id inputNoteItems) ->
        ExportApi.resetAt syncDir (Item.id noteItem) store').
Proof.
  intros Hrun noteItem Hin.
  unfold ExportApi.exportNotes_enrol, bind in Hrun.
  destruct (forOf inputNoteItems _ store) as [[[]| |e] s1] eqn:Hfirst;
    try discriminate.
  split.
  - exact (enrol_synced_loop syncDir false _ s1 store' Hrun noteItem Hin).
  - intros Hnone Hnot.
    apply (enrol_linked_loop syncDir (Item.id noteItem)
             (ExportApi.linkedNoteItems Items_getAll standaloneLink inputNoteItems
                linkedNoteIds) s1 store');
      [left|exact Hrun|eauto].
    pose proof (triple_forOf
                  (fun st : gmap Z SyncStatus => st !! Item.id noteItem = None)
                  (fun st => st !! Item.id noteItem = None)
                  (fun st => st !! Item.id noteItem = None) inputNoteItems
                  (fun n0 => ExportApi.invoke
                               (ExportApi.toSync getMDFileName Internal_md5 n0
                                  syncDir true))) as Hloop.
    assert (Hbody : forall x, In x inputNoteItems ->
              triple (fun st : gmap Z SyncStatus => st !! Item.id noteItem = None)
                (ExportApi.invoke
                   (ExportApi.toSync getMDFileName Internal_md5 x syncDir true))
                (fun _ st => st !! Item.id noteItem = None)
                (fun st => st !! Item.id noteItem = None)
                (fun st => st !! Item.id noteItem = None)).
    { intros x Hx st Hst.
      assert (Hkeep : snd (ExportApi.invoke
                             (ExportApi.toSync getMDFileName Internal_md5 x
                                syncDir true) st) !! Item.id noteItem = None).
      { rewrite snd_invoke.
        destruct (toSync_cases getMDFileName Internal_md5 x syncDir true st)
          as [->|(name & -> & _)]; [exact Hst|].
        simpl. rewrite lookup_insert_ne; [exact Hst|].
        intros Heq. apply Hnot. rewrite <- Heq. apply in_map. exact Hx. }
      destruct (ExportApi.invoke _ st) as [[[]| |e] s2]; exact Hkeep. }
    specialize (Hloop Hbody store Hnone). rewrite Hfirst in Hloop. exact Hloop.
Qed.

End ExportMore.

(** ** Embedding linked notes *)

Section EmbedFacts.

Variable getLinesInNote : Item.t -> list string.
Variable anchorHrefs : string -> list string.
Variable getNoteLinkParams : string -> EmbedLinks.LinkParams.
Variable runTemplate : string -> string -> string -> Item.t -> Exn + string.

Lemma pushTemplates_renders (item : Item.t) (render : string -> string)
    (linkParams : list EmbedLinks.LinkParams) :
  (forall p, In p linkParams ->
     runTemplate "[QuickImportV2]" "link, noteItem" (EmbedLinks.link p) item
     = inr (render (EmbedLinks.link p))) ->
  forall newLines,
    EmbedLinks.pushTemplates runTemplate item linkParams newLines
    = inr (newLines ++ List.map (fun p => render (EmbedLinks.link p)) linkParams).
Proof.
  induction linkParams as [|p ps IH]; intros Hok newLines; simpl.
  - rewrite app_nil_r. reflexivity.
  - rewrite (Hok p (or_introl eq_refl)). simpl.
    rewrite IH by (intros q Hq; apply Hok; right; exact Hq).
    rewrite <- app_assoc. reflexivity.
Qed.

Lemma pushLines_renders (item : Item.t) (render : string -> string)
    (noteLines : list string) :
  (forall line p, In line noteLines ->
     In p (EmbedLinks.linkParamsOf anchorHrefs getNoteLinkParams line) ->
     runTemplate "[QuickImportV2]" "link, noteItem" (EmbedLinks.link p) item
     = inr (render (EmbedLinks.link p))) ->
  forall newLines,
    EmbedLinks.pushLines anchorHrefs getNoteLinkParams runTemplate item noteLines
      newLines
    = inr (newLines
           ++ List.flat_map
                (fun line =>
                   line :: List.map (fun p => render (EmbedLinks.link p))
                             (EmbedLinks.linkParamsOf anchorHrefs getNoteLinkParams
                                line))
                noteLines).
Proof.
  induction noteLines as [|line lines IH]; intros Hok newLines; simpl.
  - rewrite app_nil_r. reflexivity.
  - rewrite (pushTemplates_renders item render)
      by (intros p Hp; apply (Hok line p); [left; reflexivity|exact Hp]).
    simpl.
    rewrite IH by (intros l p Hl Hp; apply (Hok l p); [right; exact Hl|exact Hp]).
    rewrite <- !app_assoc. reflexivity.
Qed.

Lemma pushTemplates_throws (item : Item.t) (linkParams : list EmbedLinks.LinkParams) :
  forall newLines e,
    EmbedLinks.pushTemplates runTemplate item linkParams newLines = inl e ->
    exists p, In p linkParams
      /\ runTemplate "[QuickImportV2]" "link, noteItem" (EmbedLinks.link p) item
         = inl e.
Proof.
  induction linkParams as [|p ps IH]; intros newLines e; simpl; [discriminate|].
  destruct (runTemplate "[QuickImportV2]" "link, noteItem" (EmbedLinks.link p) item)
    as [e1|html] eqn:Hrun; simpl.
  - intros [= ->]. exists p. auto.
  - intros Hrest. destruct (IH _ e Hrest) as (q & Hq & Hfail). exists q. auto.
Qed.

(** X16. [embedLinkedNotes] keeps every line of the note, in order, and
    puts after each line the rendered template of every link of that
    line, in the order of the links: when the templates render, the
    result is these lines joined by line feeds. A note none of whose
    lines has such a link comes back as it is. *)
Theorem embedLinkedNotes_renders (item : Item.t) (render : string -> string) :
  (forall line p, In line (getLinesInNote item) ->
     In p (EmbedLinks.linkParamsOf anchorHrefs getNoteLinkParams line) ->
     runTemplate "[QuickImportV2]" "link, noteItem" (EmbedLinks.link p) item
     = inr (render (EmbedLinks.link p))) ->
  EmbedLinks.embedLinkedNotes getLinesInNote anchorHrefs getNoteLinkParams
    runTemplate item
  = inr (String.concat (String (Ascii.ascii_of_nat 10) EmptyString)
           (List.flat_map
              (fun line =>
                 line :: List.map (fun p => render (EmbedLinks.link p))
                           (EmbedLinks.linkParamsOf anchorHrefs getNoteLinkParams
                              line))
              (getLinesInNote item)))
  /\ ((forall line, In line (getLinesInNote item) ->
         EmbedLinks.linkParamsOf anchorHrefs getNoteLinkParams line = []) ->
      EmbedLinks.embedLinkedNotes getLinesInNote anchorHrefs getNoteLinkParams
        runTemplate item
      = inr (String.concat (String (Ascii.ascii_of_nat 10) EmptyString)
               (getLinesInNote item))).
Proof.
  intros Hok.
  assert (Hrun : EmbedLinks.embedLinkedNotes getLinesInNote anchorHrefs
                   getNoteLinkParams runTemplate item
                 = inr (String.concat (String (Ascii.ascii_of_nat 10) EmptyString)
                          (List.flat_map
                             (fun line =>
                                line :: List.map
                                          (fun p => render (EmbedLinks.link p))
                                          (EmbedLinks.linkParamsOf anchorHrefs
                                             getNoteLinkParams line))
                             (getLinesInNote item)))).
  { unfold EmbedLinks.embedLinkedNotes.
    rewrite (pushLines_renders item render _ Hok []). reflexivity. }
  split; [exact Hrun|]. intros Hnone. rewrite Hrun. do 2 f_equal.
  clear Hok Hrun. revert Hnone.
  generalize (getLinesInNote item) as lines.
  induction lines as [|line lines IH]; intros Hnone; simpl; [reflexivity|].
  rewrite (Hnone line (or_introl eq_refl)). simpl. f_equal.
  apply IH. intros l Hl. apply Hnone. right. exact Hl.
Qed.

(** X17. [embedLinkedNotes] throws only with the exception of a template
    of one of the links of one of the lines. *)
Theorem embedLinkedNotes_throws (item : Item.t) (e : Exn) :
  EmbedLinks.embedLinkedNotes getLinesInNote anchorHrefs getNoteLinkParams
    runTemplate item = inl e ->
  exists line p,
    In line (getLinesInNote item)
    /\ In p (EmbedLinks.linkParamsOf anchorHrefs getNoteLinkParams line)
    /\ runTemplate "[QuickImportV2]" "link, noteItem" (EmbedLinks.link p) item
       = inl e.
Proof.
  unfold EmbedLinks.embedLinkedNotes.
  destruct (EmbedLinks.pushLines anchorHrefs getNoteLinkParams runTemplate item
              (getLinesInNote item) []) as [e1|newLines] eqn:Hlines; simpl;
    [|discriminate].
  intros [= ->]. revert Hlines. generalize (@nil string).
  induction (getLinesInNote item) as [|line lines IH]; intros acc; simpl;
    [discriminate|].
  destruct (EmbedLinks.pushTemplates runTemplate item
              (EmbedLinks.linkParamsOf anchorHrefs getNoteLinkParams line)
              (acc ++ [line])) as [e1|acc1] eqn:Hpush; simpl.
  - intros [= ->].
    destruct (pushTemplates_throws item _ _ e Hpush) as (p & Hp & Hfail).
    exists line, p. auto.
  - intros Hrest. destruct (IH _ Hrest) as (l & p & Hl & Hp & Hfail).
    exists l, p. auto.
Qed.

End EmbedFacts.

(** ** [exportNotes] *)

Section ExportNotesRules.

Context {X : Type} `{ExportNotes.Host X}.

Variable P : ExportNotes.Call -> bool.
Variable J : gmap Z SyncStatus -> Prop.
Variable w0 : ExportNotes.World X.

Lemma since_call (w : ExportNotes.World X) (c : ExportNotes.Call) (x' : X) :
  P c = false ->
  ExportNotes.since P J w0 w ->
  ExportNotes.since P J w0
    (ExportNotes.mkWorld x' (ExportNotes.syncStore w) (ExportNotes.calls w ++ [c])).
Proof.
  intros Hc (HJ & seg & Hcalls & Hseg). split; [exact HJ|].
  exists (seg ++ [c]). simpl. rewrite Hcalls, app_assoc. split; [reflexivity|].
  apply Forall_app. split; [exact Hseg|]. repeat constructor. exact Hc.
Qed.

Lemma kx_ret {A : Type} (a : A) : ExportNotes.keeps P J w0 (ret a).
Proof. apply triple_ret. auto. Qed.

Lemma kx_bind {A B : Type} (m : M (ExportNotes.World X) A)
    (k : A -> M (ExportNotes.World X) B) :
  ExportNotes.keeps P J w0 m -> (forall a, ExportNotes.keeps P J w0 (k a)) ->
  ExportNotes.keeps P J w0 (bind m k).
Proof. intros Hm Hk. eapply triple_bind; [exact Hm|exact Hk]. Qed.

Lemma kx_gets {A : Type} (g : ExportNotes.World X -> A) :
  ExportNotes.keeps P J w0 (gets g).
Proof. apply triple_gets. auto. Qed.

Lemma kx_read {A : Type} (q : X -> Exn + A) :
  ExportNotes.keeps P J w0 (ExportNotes.read q).
Proof.
  intros w Hw. unfold ExportNotes.read.
  destruct (q (ExportNotes.host w)); exact Hw.
Qed.

Lemma kx_ask {A : Type} (c : ExportNotes.Call) (a : X -> (Exn + A) * X) :
  P c = false -> ExportNotes.keeps P J w0 (ExportNotes.ask c a).
Proof.
  intros Hc w Hw. unfold ExportNotes.ask. simpl.
  destruct (a (ExportNotes.host w)) as [[e|v] x']; apply since_call; auto.
Qed.

(** A dialog that is always cancelled yields nothing. *)
Lemma kx_ask_none {A : Type} (c : ExportNotes.Call)
    (a : X -> (Exn + option A) * X) :
  P c = false ->
  (forall x, exists x', a x = (inr None, x')) ->
  triple (ExportNotes.since P J w0) (ExportNotes.ask c a)
    (fun r w => r = None /\ ExportNotes.since P J w0 w)
    (ExportNotes.since P J w0) (ExportNotes.since P J w0).
Proof.
  intros Hc Hnone w Hw. unfold ExportNotes.ask. simpl.
  destruct (Hnone (ExportNotes.host w)) as [x' ->].
  split; [reflexivity|]. apply since_call; auto.
Qed.

Lemma kx_call (c : ExportNotes.Call) (a : X -> option Exn * X) :
  P c = false -> ExportNotes.keeps P J w0 (ExportNotes.call c a).
Proof.
  intros Hc w Hw. unfold ExportNotes.call, ExportNotes.ask. simpl.
  destruct (a (ExportNotes.host w)) as [[e|] x']; apply since_call; auto.
Qed.

Lemma kx_invoke (m : M (ExportNotes.World X) unit) :
  ExportNotes.keeps P J w0 m -> ExportNotes.keeps P J w0 (ExportApi.invoke m).
Proof.
  intros Hm w Hw. specialize (Hm w Hw). unfold ExportApi.invoke.
  destruct (m w) as [[[]| |e] w1]; exact Hm.
Qed.

Lemma kx_forOf {A : Type} (xs : list A) (body : A -> M (ExportNotes.World X) unit) :
  (forall x, ExportNotes.keeps P J w0 (body x)) ->
  ExportNotes.keeps P J w0 (forOf xs body).
Proof. intros Hbody. apply triple_forOf. intros x _. apply Hbody. Qed.

Lemma kx_forOfWith {A L : Type} (xs : list A)
    (body : L -> A -> M (ExportNotes.World X) L) (l : L) :
  (forall l x, ExportNotes.keeps P J w0 (body l x)) ->
  ExportNotes.keeps P J w0 (forOfWith xs body l).
Proof. intros Hbody. apply triple_forOfWith. exact Hbody. Qed.

Lemma kx_toSync (noteItem : Item.t) (syncDir : string) (overwrite : bool) :
  (forall store, J store) ->
  ExportNotes.keeps P J w0 (ExportNotes.toSync noteItem syncDir overwrite).
Proof.
  intros HJ w (_ & Hseg). unfold ExportNotes.toSync.
  destruct (ExportApi.invoke _ (ExportNotes.syncStore w)) as [[[]| |e] store'];
    (split; [apply HJ|exact Hseg]).
Qed.

Lemma kx_copyNote (embed : bool) (inputNoteItems : list Item.t)
    (noteItem : Item.t) :
  (forall c, ExportNotes.isNoteCopy c = true -> P c = false) ->
  ExportNotes.keeps P J w0 (ExportNotes.copyNote embed inputNoteItems noteItem).
Proof.
  intros Hcopy. unfold ExportNotes.copyNote.
  apply kx_bind; [apply kx_ask; apply Hcopy; reflexivity|]. intros noteID.
  apply kx_bind; [apply kx_read|]. intros newNote.
  apply kx_bind; [apply kx_call; apply Hcopy; reflexivity|]. intros _.
  apply kx_bind; [apply kx_call; apply Hcopy; reflexivity|]. intros _.
  apply kx_bind; [apply kx_call; apply Hcopy; reflexivity|]. intros _.
  apply kx_bind.
  { destruct embed; [|apply kx_ret].
    apply kx_bind; [apply kx_read|]. intros html.
    apply kx_call. apply Hcopy. reflexivity. }
  intros _.
  apply kx_bind; [apply kx_call; apply Hcopy; reflexivity|]. intros _.
  apply kx_ret.
Qed.

Lemma kx_collectLinks (linkedNoteIds : list Z) (noteItem : Item.t) :
  ExportNotes.keeps P J w0 (ExportNotes.collectLinks linkedNoteIds noteItem).
Proof.
  unfold ExportNotes.collectLinks.
  apply kx_bind; [apply kx_read|]. intros linkedIds. apply kx_ret.
Qed.

(** The three exporters that ask for a file name, when the user cancels
    every dialog or when their saves are allowed. *)
Hypothesis P_pick : forall kind name, P (ExportNotes.PickSave kind name) = false.
Hypothesis cancelled_or_allowed :
  (forall x kind name, exists x', ExportNotes.pickSave x kind name = (inr None, x'))
  \/ (forall c, ExportNotes.isNamedSave c = true -> P c = false).

Lemma kx_toMD (noteItem : Item.t) (keepNoteLink withYAML : bool) :
  ExportNotes.keeps P J w0 (ExportNotes.toMD noteItem None keepNoteLink withYAML).
Proof.
  unfold ExportNotes.toMD. cbv zeta. cbv iota.
  destruct cancelled_or_allowed as [Hcancel|Hallowed].
  - apply (triple_bind _ _ _ (fun _ _ => False)); [|intros filename w []].
    apply (triple_bind _ _ _ (fun _ => ExportNotes.since P J w0)).
    + apply triple_gets. auto.
    + intros title. eapply triple_bind.
      * apply (kx_ask_none _ _ (P_pick _ _)). intros x. apply Hcancel.
      * intros raw w [-> Hw]. exact Hw.
  - apply kx_bind.
    + apply kx_bind; [apply kx_gets|]. intros title.
      apply kx_bind; [apply kx_ask; apply P_pick|]. intros [raw|].
      * apply kx_ret.
      * intros w Hw. exact Hw.
    + intros filename. apply kx_call. apply Hallowed. reflexivity.
Qed.

Lemma kx_toDocx (noteItem : Item.t) :
  ExportNotes.keeps P J w0 (ExportNotes.toDocx noteItem).
Proof.
  unfold ExportNotes.toDocx.
  apply kx_bind; [apply kx_gets|]. intros title.
  destruct cancelled_or_allowed as [Hcancel|Hallowed].
  - eapply triple_bind.
    + apply (kx_ask_none _ _ (P_pick _ _)). intros x. apply Hcancel.
    + intros raw w [-> Hw]. exact Hw.
  - apply kx_bind; [apply kx_ask; apply P_pick|]. intros [raw|].
    + apply kx_call. apply Hallowed. reflexivity.
    + intros w Hw. exact Hw.
Qed.

Lemma kx_toFreeMind (noteItem : Item.t) :
  ExportNotes.keeps P J w0 (ExportNotes.toFreeMind noteItem).
Proof.
  unfold ExportNotes.toFreeMind.
  apply kx_bind; [apply kx_gets|]. intros title.
  destruct cancelled_or_allowed as [Hcancel|Hallowed].
  - eapply triple_bind.
    + apply (kx_ask_none _ _ (P_pick _ _)). intros x. apply Hcancel.
    + intros raw w [-> Hw]. exact Hw.
  - apply kx_bind; [apply kx_ask; apply P_pick|]. intros [raw|].
    + apply kx_call. apply Hallowed. reflexivity.
    + intros w Hw. exact Hw.
Qed.

(** [exportNotes] keeps [since P J w0] when every call it can reach
    under its options is outside [P], the store staying in [J]. *)
Lemma exportNotes_keeps (noteItems : list Item.t) (options : ExportNotes.Options) :
  ((ExportNotes.embedLink options || ExportNotes.exportNote options)
   && negb (ExportNotes.setAutoSync options) = true ->
   forall c, ExportNotes.isNoteCopy c = true -> P c = false) ->
  (ExportNotes.exportMD options && ExportNotes.setAutoSync options = true ->
   P ExportNotes.PickFolder = false
   /\ ((forall x, exists x', ExportNotes.pickFolder x = (inr None, x'))
       \/ ((forall store, J store)
           /\ forall ids o, P (ExportNotes.OnSyncing ids o) = false))) ->
  (ExportNotes.exportPDF options = true ->
   forall id, P (ExportNotes.SavePDF id) = false) ->
  (ExportNotes.embedLink options && negb (ExportNotes.exportNote options) = true ->
   forall id, P (ExportNotes.CloseWindow id) = false
              /\ P (ExportNotes.Erase id) = false) ->
  (ExportNotes.exportNote options = true ->
   forall id, P (ExportNotes.OpenNoteWindow id) = false) ->
  ExportNotes.keeps P J w0 (ExportNotes.exportNotes noteItems options).
Proof.
  intros Hcopy Hsync Hpdf Herase Hopen. unfold ExportNotes.exportNotes.
  apply kx_bind.
  { destruct ((ExportNotes.embedLink options || ExportNotes.exportNote options)
              && negb (ExportNotes.setAutoSync options)); [|apply kx_ret].
    apply kx_forOfWith. intros acc n. apply kx_copyNote. apply Hcopy. reflexivity. }
  intros inputNoteItems.
  apply kx_bind.
  { destruct (ExportNotes.standaloneLink options); [|apply kx_ret].
    apply kx_bind; [|intros ids; apply kx_read].
    apply kx_forOfWith. intros acc n. apply kx_collectLinks. }
  intros linkedNoteItems.
  apply kx_bind.
  { destruct (ExportNotes.exportMD options); [|apply kx_ret].
    destruct (ExportNotes.setAutoSync options).
    - destruct (Hsync eq_refl) as [Hfolder [Hcancel|[HJ Hhook]]].
      + eapply triple_bind; [apply (kx_ask_none _ _ Hfolder Hcancel)|].
        intros raw w [-> Hw]. exact Hw.
      + apply kx_bind; [apply kx_ask; exact Hfolder|]. intros [raw|];
          [|apply kx_ret].
        apply kx_bind; [apply kx_forOf; intros n; apply kx_toSync; exact HJ|].
        intros _.
        apply kx_bind; [apply kx_forOf; intros n; apply kx_toSync; exact HJ|].
        intros _ w (_ & seg & Hcalls & Hseg). simpl.
        destruct (ExportNotes.onSyncing _ _ _ _) as [[e|] [x' store']];
          (split; [apply HJ|]); exists (seg ++ [ExportNotes.OnSyncing
                                                  (List.map Item.id
                                                     (ExportNotes.uniqueItems
                                                        (inputNoteItems
                                                         ++ linkedNoteItems)))
                                                  ExportNotes.exportSyncOptions]);
          simpl; rewrite Hcalls, app_assoc; (split; [reflexivity|]);
          apply Forall_app; (split; [exact Hseg|]); repeat constructor;
          apply Hhook.
    - apply kx_forOf. intros n. apply kx_invoke. apply kx_toMD. }
  intros _.
  apply kx_bind.
  { destruct (ExportNotes.exportDocx options); [|apply kx_ret].
    apply kx_forOf. intros n. apply kx_invoke. apply kx_toDocx. }
  intros _.
  apply kx_bind.
  { destruct (ExportNotes.exportFreeMind options); [|apply kx_ret].
    apply kx_forOf. intros n. apply kx_invoke. apply kx_toFreeMind. }
  intros _.
  apply kx_bind.
  { destruct (ExportNotes.exportPDF options); [|apply kx_ret].
    apply kx_forOf. intros n. apply kx_call. apply Hpdf. reflexivity. }
  intros _.
  destruct (ExportNotes.embedLink options && negb (ExportNotes.exportNote options)).
  - apply kx_forOf. intros n. unfold ExportNotes.eraseNote.
    apply kx_bind; [apply kx_gets|]. intros open.
    apply kx_bind; [|intros _; apply kx_call; apply (Herase eq_refl)].
    destruct open; [apply kx_call; apply (Herase eq_refl)|apply kx_ret].
  - destruct (ExportNotes.exportNote options); [|apply kx_ret].
    apply kx_forOf. intros n. apply kx_call. apply Hopen. reflexivity.
Qed.

End ExportNotesRules.

Section ExportNotesFacts.

Context {X : Type} `{ExportNotes.Host X}.

Lemma since_start (P : ExportNotes.Call -> bool) (w : ExportNotes.World X) :
  ExportNotes.since P (fun store => store = ExportNotes.syncStore w) w w.
Proof. split; [reflexivity|]. exists []. rewrite app_nil_r. auto. Qed.

Lemma since_start_any (P : ExportNotes.Call -> bool) (w : ExportNotes.World X) :
  ExportNotes.since P (fun _ => True) w w.
Proof. split; [exact I|]. exists []. rewrite app_nil_r. auto. Qed.

Lemma bind_normal {S A B : Type} (m : M S A) (k : A -> M S B) (s s' : S) (b : B) :
  bind m k s = (Normal b, s') ->
  exists a s1, m s = (Normal a, s1) /\ k a s1 = (Normal b, s').
Proof.
  unfold bind. destruct (m s) as [[a| |e] s1]; try discriminate.
  intros Hk. exists a, s1. auto.
Qed.

Lemma call_normal (c : ExportNotes.Call) (a : X -> option Exn * X)
    (w w' : ExportNotes.World X) :
  ExportNotes.call c a w = (Normal tt, w') ->
  ExportNotes.calls w' = ExportNotes.calls w ++ [c].
Proof.
  unfold ExportNotes.call, ExportNotes.ask. simpl.
  destruct (a (ExportNotes.host w)) as [[e|] x']; try discriminate.
  intros Hw. injection Hw as <-. reflexivity.
Qed.

Lemma eraseNote_erases (noteItem : Item.t) (w w' : ExportNotes.World X) :
  ExportNotes.eraseNote noteItem w = (Normal tt, w') ->
  exists seg, ExportNotes.calls w' = ExportNotes.calls w ++ seg
              /\ In (ExportNotes.Erase (Item.id noteItem)) seg.
Proof.
  unfold ExportNotes.eraseNote. intros Hrun.
  apply bind_normal in Hrun as (open & w1 & Hopen & Hrun).
  injection Hopen as _ <-.
  apply bind_normal in Hrun as ([] & w2 & Hclose & Hrun).
  apply call_normal in Hrun.
  destruct open.
  - apply call_normal in Hclose. rewrite Hrun, Hclose, <- app_assoc.
    eexists. split; [reflexivity|]. simpl. auto.
  - injection Hclose as <-. rewrite Hrun.
    eexists. split; [reflexivity|]. simpl. auto.
Qed.

Lemma eraseLoop_erases (xs : list Item.t) :
  forall w w' : ExportNotes.World X,
  forOf xs ExportNotes.eraseNote w = (Normal tt, w') ->
  (exists seg, ExportNotes.calls w' = ExportNotes.calls w ++ seg)
  /\ forall n, In n xs -> In (ExportNotes.Erase (Item.id n)) (ExportNotes.calls w').
Proof.
  induction xs as [|x xs IH]; intros w w' Hrun.
  - injection Hrun as <-. split; [exists []; rewrite app_nil_r; reflexivity|].
    intros n [].
  - simpl in Hrun. apply bind_normal in Hrun as ([] & w1 & Hx & Hrun).
    apply eraseNote_erases in Hx as (seg & Hseg & Hin).
    destruct (IH w1 w' Hrun) as [[seg' Hseg'] Hrest]. split.
    + exists (seg ++ seg'). rewrite Hseg', Hseg, app_assoc. reflexivity.
    + intros n [<-|Hn]; [|apply Hrest; exact Hn].
      rewrite Hseg', Hseg. apply in_or_app. left. apply in_or_app. right.
      exact Hin.
Qed.

(** X18. Unless Markdown export with auto-sync is asked for and the user
    picks a folder, [exportNotes] leaves every sync record as it was and
    never calls the sync hook. *)
Theorem exportNotes_sync_untouched (noteItems : list Item.t)
    (options : ExportNotes.Options) (w : ExportNotes.World X) :
  ExportNotes.exportMD options && ExportNotes.setAutoSync options = false
  \/ (forall x, exists x', ExportNotes.pickFolder x = (inr None, x')) ->
  ExportNotes.syncStore (snd (ExportNotes.exportNotes noteItems options w))
  = ExportNotes.syncStore w
  /\ exists seg,
       ExportNotes.calls (snd (ExportNotes.exportNotes noteItems options w))
       = ExportNotes.calls w ++ seg
       /\ Forall (fun c => ExportNotes.isOnSyncing c = false) seg.
Proof.
  intros Hguard.
  apply (triple_snd
           (ExportNotes.since ExportNotes.isOnSyncing
              (fun store => store = ExportNotes.syncStore w) w));
    [|apply since_start].
  apply exportNotes_keeps; try (intros; reflexivity).
  - right. intros c Hc. destruct c; try discriminate; reflexivity.
  - intros _ c Hc. destruct c; try discriminate; reflexivity.
  - intros Hon. split; [reflexivity|]. left.
    destruct Hguard as [Hoff|Hcancel]; [congruence|exact Hcancel].
  - intros _ id. split; reflexivity.
Qed.

(** X19. Unless [embedLink] or [exportNote] is set without
    [setAutoSync], [exportNotes] creates no note and rewrites none: it
    makes no [newNote], [setNote], [saveTx] or [copyEmbeddedImages] call. *)
Theorem exportNotes_no_copy (noteItems : list Item.t)
    (options : ExportNotes.Options) (w : ExportNotes.World X) :
  (ExportNotes.embedLink options || ExportNotes.exportNote options)
  && negb (ExportNotes.setAutoSync options) = false ->
  exists seg,
    ExportNotes.calls (snd (ExportNotes.exportNotes noteItems options w))
    = ExportNotes.calls w ++ seg
    /\ Forall (fun c => ExportNotes.isNoteCopy c = false) seg.
Proof.
  intros Hguard.
  apply (triple_snd
           (ExportNotes.since ExportNotes.isNoteCopy (fun _ => True) w));
    [|apply since_start_any].
  apply exportNotes_keeps; try (intros; reflexivity).
  - right. intros c Hc. destruct c; try discriminate; reflexivity.
  - congruence.
  - intros _. split; [reflexivity|]. right. split; [auto|reflexivity].
  - intros _ id. split; reflexivity.
Qed.

(** X20. Unless [embedLink] is set and [exportNote] is not,
    [exportNotes] erases no note. *)
Theorem exportNotes_no_erase (noteItems : list Item.t)
    (options : ExportNotes.Options) (w : ExportNotes.World X) :
  ExportNotes.embedLink options && negb (ExportNotes.exportNote options) = false ->
  exists seg,
    ExportNotes.calls (snd (ExportNotes.exportNotes noteItems options w))
    = ExportNotes.calls w ++ seg
    /\ Forall (fun c => ExportNotes.isErase c = false) seg.
Proof.
  intros Hguard.
  apply (triple_snd (ExportNotes.since ExportNotes.isErase (fun _ => True) w));
    [|apply since_start_any].
  apply exportNotes_keeps; try (intros; reflexivity).
  - right. intros c Hc. destruct c; try discriminate; reflexivity.
  - intros _ c Hc. destruct c; try discriminate; reflexivity.
  - intros _. split; [reflexivity|]. right. split; [auto|reflexivity].
  - congruence.
Qed.

(** X21. When the user cancels every save dialog, [exportNotes] writes
    no Markdown, Docx or FreeMind file, whatever its options. *)
Theorem exportNotes_cancelled_saves (noteItems : list Item.t)
    (options : ExportNotes.Options) (w : ExportNotes.World X) :
  (forall x kind name,
     exists x', ExportNotes.pickSave x kind name = (inr None, x')) ->
  exists seg,
    ExportNotes.calls (snd (ExportNotes.exportNotes noteItems options w))
    = ExportNotes.calls w ++ seg
    /\ Forall (fun c => ExportNotes.isNamedSave c = false) seg.
Proof.
  intros Hcancel.
  apply (triple_snd (ExportNotes.since ExportNotes.isNamedSave (fun _ => True) w));
    [|apply since_start_any].
  apply exportNotes_keeps; try (intros; reflexivity).
  - left. exact Hcancel.
  - intros _ c Hc. destruct c; try discriminate; reflexivity.
  - intros _. split; [reflexivity|]. right. split; [auto|reflexivity].
  - intros _ id. split; reflexivity.
Qed.

(** X22. With [embedLink] and [setAutoSync] set and [exportNote] not,
    no copy is made, and a run of [exportNotes] that completes erases
    every note it was given. *)
Theorem exportNotes_erases_given_notes (noteItems : list Item.t)
    (options : ExportNotes.Options) (w w' : ExportNotes.World X) :
  ExportNotes.embedLink options = true ->
  ExportNotes.exportNote options = false ->
  ExportNotes.setAutoSync options = true ->
  (forall l n, In n l -> In n (ExportNotes.uniqueItems l)) ->
  ExportNotes.exportNotes noteItems options w = (Normal tt, w') ->
  forall n, In n noteItems ->
    In (ExportNotes.Erase (Item.id n)) (ExportNotes.calls w').
Proof.
  intros Hembed Hnote Hauto Huniq Hrun n Hn.
  unfold ExportNotes.exportNotes in Hrun.
  rewrite Hembed, Hnote, Hauto in Hrun. cbn [orb andb negb] in Hrun.
  apply bind_normal in Hrun as (input & w1 & Hinput & Hrun).
  injection Hinput as <- <-.
  apply bind_normal in Hrun as (linked & w2 & _ & Hrun).
  apply bind_normal in Hrun as ([] & w3 & _ & Hrun).
  apply bind_normal in Hrun as ([] & w4 & _ & Hrun).
  apply bind_normal in Hrun as ([] & w5 & _ & Hrun).
  apply bind_normal in Hrun as ([] & w6 & _ & Hrun).
  apply eraseLoop_erases in Hrun as [_ Herased]. apply Herased.
  apply Huniq. apply in_or_app. left. exact Hn.
Qed.

End ExportNotesFacts.

(** * The further properties at work on the small host *)

Lemma sameItem_eq (a b : Item.t) : sameItem a b = true -> a = b.
Proof.
  destruct a as [i n v], b as [i' n' v']. unfold sameItem. simpl.
  intros Hsame. apply andb_prop in Hsame as [Hsame Hv].
  apply andb_prop in Hsame as [Hi Hn].
  apply Z.eqb_eq in Hi, Hv. apply String.eqb_eq in Hn. congruence.
Qed.

Lemma newSet_In (items : list Item.t) :
  forall seen n, In n items -> In n seen \/ In n (newSet items seen).
Proof.
  induction items as [|item items IH]; intros seen n Hn; [destruct Hn|].
  simpl. destruct (existsb (sameItem item) seen) eqn:Hseen.
  - destruct Hn as [<-|Hn]; [|apply IH; exact Hn].
    apply existsb_exists in Hseen as (other & Hother & Hsame).
    apply sameItem_eq in Hsame. subst other. left. exact Hother.
  - destruct Hn as [<-|Hn]; [right; left; reflexivity|].
    destruct (IH (item :: seen) n Hn) as [[<-|Hseen']|Hnew].
    + right. left. reflexivity.
    + left. exact Hseen'.
    + right. right. exact Hnew.
Qed.

Lemma newSet_keeps (items : list Item.t) (n : Item.t) :
  In n items -> In n (newSet items []).
Proof. intros Hn. destruct (newSet_In items [] n Hn) as [[]|Hnew]. exact Hnew. Qed.

(** Two notes given, one of them not under sync. *)
Lemma resolveItems_explicit_witness :
  [itemOf 2 "edited"; itemOf 9 "gone"] <> []
  /\ resolveItems library [itemOf 2 "edited"; itemOf 9 "gone"]
     = inr [itemOf 2 "edited"].
Proof.
  split; [discriminate|].
  apply (proj1 (resolveItems_explicit library [itemOf 2 "edited"; itemOf 9 "gone"]
                  ltac:(discriminate))
           (fun id => Z.eqb id 2)).
  intros item [<-|[<-|[]]]; reflexivity.
Defined.

(** The note open in a focused editor is the one skipped. *)
Lemma skipActiveItems_counts_witness :
  skipActiveItems focusedLibrary true [itemOf 2 "edited"] = inr (1, [])
  /\ 1 + len (@nil Item.t) = len [itemOf 2 "edited"].
Proof.
  split; [reflexivity|].
  apply (skipActiveItems_counts focusedLibrary true [itemOf 2 "edited"] [] 1).
  reflexivity.
Defined.

(** The four notes of the library, sorted by their answers. *)
Lemma comparePass_sorted_witness :
  exists l,
    comparePass library (List.map entryItem library) = inr l
    /\ toImport l = [statusOf 3 "/notes"]
    /\ toDiff l = [statusOf 4 "/notes"]
    /\ toExport_get (toExport l) "/notes" = [2].
Proof.
  destruct (comparePass_sorted library (fun id => statusOf id "/notes") libraryCode
              (List.map entryItem library))
    as (l & Hrun & Himport & Hdiff & Hexport & _).
  - intros item [<-|[<-|[<-|[<-|[]]]]]; split; reflexivity.
  - exists l. split; [exact Hrun|]. split; [rewrite Himport; reflexivity|].
    split; [rewrite Hdiff; reflexivity|]. rewrite Hexport. reflexivity.
Defined.


(** A run over a note whose record cannot be read. *)
Lemma callSyncing_comparison_failure_witness :
  comparePass (H := offlineHost) tt [itemOf 1 "text"] = inl "offline"
  /\ fst (callSyncing (H := offlineHost) (Some [itemOf 1 "text"]) None offline) = None
  /\ lock (snd (callSyncing (H := offlineHost) (Some [itemOf 1 "text"]) None offline))
     = false
  /\ In (EvLog (LogError "offline"))
       (trace (snd (callSyncing (H := offlineHost) (Some [itemOf 1 "text"]) None
                      offline))).
Proof.
  split; [reflexivity|].
  destruct (callSyncing_comparison_failure (H := offlineHost)
              (Some [itemOf 1 "text"]) None offline [itemOf 1 "text"]
              [itemOf 1 "text"] 0 "offline")
    as (Hcaught & Hfree & _ & Hlogged & _).
  - reflexivity.
  - reflexivity.
  - discriminate.
  - reflexivity.
  - reflexivity.
  - split; [exact Hcaught|]. split; [exact Hfree|]. exact Hlogged.
Defined.

(** A run over a library that is in step with its files. *)
Lemma callSyncing_up_to_date_witness :
  lock (idle settledLibrary) = false
  /\ data (snd (callSyncing None None (idle settledLibrary))) = settledLibrary
  /\ actions (trace (snd (callSyncing None None (idle settledLibrary))))
     = [EvDoCompare 1; EvDoCompare 6].
Proof.
  split; [reflexivity|].
  destruct (callSyncing_up_to_date None None (idle settledLibrary)
              (List.map entryItem settledLibrary) (List.map entryItem settledLibrary) 0)
    as (_ & _ & Hdata & Hcalls).
  - reflexivity.
  - reflexivity.
  - discriminate.
  - reflexivity.
  - intros item [<-|[<-|[]]]; eexists; split; reflexivity.
  - split; [exact Hdata|exact Hcalls].
Defined.

(** A run while the list of sync notes cannot be read. *)
Lemma callSyncing_resolution_failure_witness :
  resolveItems (H := offlineHost) tt [] = inl "offline"
  /\ callSyncing (H := offlineHost) None None offline
     = (None, mkWorld "production" true false tt [EvLog (LogError "offline")]).
Proof.
  split; [reflexivity|].
  apply (callSyncing_resolution_failure (H := offlineHost) None None offline "offline");
    reflexivity.
Defined.

(** A run with the default options in production. *)
Lemma callSyncing_quiet_run_witness :
  quiet (default defaultOptions None) = true
  /\ exists seg,
       trace (snd (callSyncing None None (idle library))) = trace (idle library) ++ seg
       /\ Forall (fun ev => isProgress ev = false) seg.
Proof.
  split; [reflexivity|].
  apply (callSyncing_quiet_run None None (idle library)); [discriminate|reflexivity].
Defined.

(** A tick while a run is in flight. *)
Lemma tick_without_effect_witness :
  lock (addon syncingNow) = true /\ tick 0%nat syncingNow = syncingNow.
Proof.
  split; [reflexivity|].
  apply (tick_without_effect 0%nat syncingNow); [reflexivity|left; reflexivity].
Defined.

(** The tick after shutdown. *)
Lemma tick_shutdown_terminal_witness :
  alive (addon tornDown) = false
  /\ existsb (Nat.eqb 0%nat) (timers (tick 0%nat tornDown)) = false
  /\ tick 0%nat (tick 0%nat tornDown) = tick 0%nat tornDown.
Proof.
  split; [reflexivity|].
  apply (tick_shutdown_terminal 0%nat tornDown). reflexivity.
Defined.

(** Note 3 enrolled, then exported again towards another directory. *)
Lemma toSync_then_noop_witness :
  ExportApi.toSync fileNameOf checksumOf (Item.mk 3 "linked" 1) "/elsewhere" false
    (snd (ExportApi.toSync fileNameOf checksumOf (Item.mk 3 "linked" 1) "/sync" true
            oneRecord))
  = (Return,
     snd (ExportApi.toSync fileNameOf checksumOf (Item.mk 3 "linked" 1) "/sync" true
            oneRecord)).
Proof.
  apply (toSync_then_noop fileNameOf checksumOf (Item.mk 3 "linked" 1)
           (Item.mk 3 "linked" 1) "/sync" "/elsewhere" true oneRecord);
    reflexivity.
Defined.

(** Note 1 exported with its links to notes 2 and 3. *)
Lemma exportNotes_enrol_links_witness :
  ExportApi.isSyncNote
    (snd (ExportApi.exportNotes_enrol fileNameOf checksumOf itemsOf true
            [Item.mk 1 "input" 1] [1; 2; 3] "/sync" oneRecord))
    3 = true
  /\ ExportApi.resetAt "/sync" 3
       (snd (ExportApi.exportNotes_enrol fileNameOf checksumOf itemsOf true
               [Item.mk 1 "input" 1] [1; 2; 3] "/sync" oneRecord)).
Proof.
  destruct (exportNotes_enrol_links fileNameOf checksumOf itemsOf true
              [Item.mk 1 "input" 1] [1; 2; 3] "/sync" oneRecord
              (snd (ExportApi.exportNotes_enrol fileNameOf checksumOf itemsOf true
                      [Item.mk 1 "input" 1] [1; 2; 3] "/sync" oneRecord))
              eq_refl (Item.mk 3 "linked" 1))
    as [Hsynced Hfresh].
  - right. left. reflexivity.
  - split; [exact Hsynced|]. apply Hfresh; [reflexivity|].
    simpl. intros [Heq|[]]. discriminate.
Defined.

(** Note 1, whose second line links to note 2 and to a web page. *)
Lemma embedLinkedNotes_renders_witness :
  EmbedLinks.embedLinkedNotes linesOf hrefsOf linkParamsFor templateOf
    (Item.mk 1 "one" 1)
  = inr (String.concat (String (Ascii.ascii_of_nat 10) EmptyString)
           ["intro"; "see note 2 and the web"; "embedded zotero://note/u/2"; "end"]).
Proof.
  apply (proj1 (embedLinkedNotes_renders linesOf hrefsOf linkParamsFor templateOf
                  (Item.mk 1 "one" 1) (String.append "embedded ")
                  ltac:(intros line p [<-|[<-|[<-|[]]]];
                        [intros []|intros [<-|[]]; reflexivity|intros []]))).
Defined.

(** Note 3, whose link is to the note whose template fails. *)
Lemma embedLinkedNotes_throws_witness :
  EmbedLinks.embedLinkedNotes linesOf hrefsOf linkParamsFor templateOf
    (Item.mk 3 "three" 1) = inl "template failed"
  /\ exists line p,
       In line (linesOf (Item.mk 3 "three" 1))
       /\ In p (EmbedLinks.linkParamsOf hrefsOf linkParamsFor line)
       /\ templateOf "[QuickImportV2]" "link, noteItem" (EmbedLinks.link p)
            (Item.mk 3 "three" 1) = inl "template failed".
Proof.
  split; [reflexivity|].
  apply (embedLinkedNotes_throws linesOf hrefsOf linkParamsFor templateOf
           (Item.mk 3 "three" 1) "template failed").
  reflexivity.
Defined.

(** Every export with auto-sync, the folder dialog cancelled. *)
Lemma exportNotes_sync_untouched_witness :
  ExportNotes.exportMD syncedExport && ExportNotes.setAutoSync syncedExport = true
  /\ ExportNotes.syncStore
       (snd (ExportNotes.exportNotes [Item.mk 1 "one" 1; Item.mk 2 "two" 1]
               syncedExport desk))
     = oneRecord
  /\ exists seg,
       ExportNotes.calls
         (snd (ExportNotes.exportNotes [Item.mk 1 "one" 1; Item.mk 2 "two" 1]
                 syncedExport desk))
       = ExportNotes.calls desk ++ seg
       /\ Forall (fun c => ExportNotes.isOnSyncing c = false) seg.
Proof.
  split; [reflexivity|].
  apply (exportNotes_sync_untouched [Item.mk 1 "one" 1; Item.mk 2 "two" 1]
           syncedExport desk).
  right. intros x. exists x. reflexivity.
Defined.

(** Embedding with auto-sync makes no copy. *)
Lemma exportNotes_no_copy_witness :
  exists seg,
    ExportNotes.calls
      (snd (ExportNotes.exportNotes [Item.mk 1 "one" 1; Item.mk 2 "two" 1]
              embedWithSync desk))
    = ExportNotes.calls desk ++ seg
    /\ Forall (fun c => ExportNotes.isNoteCopy c = false) seg.
Proof.
  apply (exportNotes_no_copy [Item.mk 1 "one" 1; Item.mk 2 "two" 1] embedWithSync
           desk).
  reflexivity.
Defined.

(** Export of copies that are kept erases nothing. *)
Lemma exportNotes_no_erase_witness :
  exists seg,
    ExportNotes.calls
      (snd (ExportNotes.exportNotes [Item.mk 1 "one" 1; Item.mk 2 "two" 1]
              copiesToFiles desk))
    = ExportNotes.calls desk ++ seg
    /\ Forall (fun c => ExportNotes.isErase c = false) seg.
Proof.
  apply (exportNotes_no_erase [Item.mk 1 "one" 1; Item.mk 2 "two" 1] copiesToFiles
           desk).
  reflexivity.
Defined.

(** Markdown, Docx and FreeMind export with every dialog cancelled. *)
Lemma exportNotes_cancelled_saves_witness :
  exists seg,
    ExportNotes.calls
      (snd (ExportNotes.exportNotes [Item.mk 1 "one" 1; Item.mk 2 "two" 1]
              copiesToFiles desk))
    = ExportNotes.calls desk ++ seg
    /\ Forall (fun c => ExportNotes.isNamedSave c = false) seg.
Proof.
  apply (exportNotes_cancelled_saves [Item.mk 1 "one" 1; Item.mk 2 "two" 1]
           copiesToFiles desk).
  intros x kind name. exists x. reflexivity.
Defined.

(** Embedding with auto-sync erases the two notes given. *)
Lemma exportNotes_erases_given_notes_witness :
  fst (ExportNotes.exportNotes [Item.mk 1 "one" 1; Item.mk 2 "two" 1] embedWithSync
         desk) = Normal tt
  /\ In (ExportNotes.Erase 2)
       (ExportNotes.calls
          (snd (ExportNotes.exportNotes [Item.mk 1 "one" 1; Item.mk 2 "two" 1]
                  embedWithSync desk))).
Proof.
  split; [reflexivity|].
  apply (exportNotes_erases_given_notes (H := cancellingHost)
           [Item.mk 1 "one" 1; Item.mk 2 "two" 1] embedWithSync desk
           (snd (ExportNotes.exportNotes (H := cancellingHost)
                   [Item.mk 1 "one" 1; Item.mk 2 "two" 1] embedWithSync desk))
           eq_refl eq_refl eq_refl (fun l n => newSet_keeps l n) eq_refl
           (Item.mk 2 "two" 1)).
  right. left. reflexivity.
Defined.
